(** * The rtpoll poll multiplexer: a shallow embedding and its properties

    The development follows [src/modules/module-appsurfer.c].  Its
    second half carries the poll multiplexer ([struct pa_rtpoll],
    [struct pa_rtpoll_item] and the [pa_rtpoll_*] functions), which
    takes up most of this file; its first half holds the two
    stream-routing callbacks of the module, in [Appsurfer] below.
    Stateful code is written in explicit state-passing style over a
    [world]; code that can stop at a [pa_assert] or dereference a
    pointer that is not valid returns an [outcome]. *)

From Stdlib Require Import ZArith List Bool Lia PeanoNat Permutation.
Import ListNotations.
Open Scope Z_scope.

(** ** Machine integers *)

(** [unsigned] is 32 bits wide; arithmetic on it wraps around. *)
Definition u32 (x : Z) : Z := x mod 2 ^ 32.

(** [pa_usec_t] is a 64-bit unsigned count of microseconds. *)
Definition usec (x : Z) : Z := x mod 2 ^ 64.

(** [int] is 32 bits wide; a value that does not fit is reduced modulo
    2^32 into the range from -2^31 to 2^31 - 1 when it is converted, as
    GCC does. *)
Definition c_int (x : Z) : Z := (x + 2 ^ 31) mod 2 ^ 32 - 2 ^ 31.

(** Modelled from the spec: [POLLIN] ("readable"), [EINTR] and [EAGAIN]
    come from <poll.h> and <errno.h>, which are not part of the source;
    the values are those of Linux. *)
Definition POLLIN : Z := 1.
Definition EINTR : Z := 4.
Definition EAGAIN : Z := 11.

(** ** Outcomes: a result, or the reason why the program stopped *)

Inductive fault : Type :=
| assertion_failed   (* a pa_assert did not hold *)
| invalid_pointer    (* a dangling, NULL or out-of-bounds access *)
| out_of_fuel.       (* the rewind loop was cut off by the model *)

Inductive outcome (A : Type) : Type :=
| Ok (a : A)
| Fault (f : fault).
Arguments Ok {A} a.
Arguments Fault {A} f.

Definition bind {A B : Type} (m : outcome A) (k : A -> outcome B) : outcome B :=
  match m with
  | Ok a => k a
  | Fault f => Fault f
  end.

Definition pa_assert (b : bool) : outcome unit :=
  if b then Ok tt else Fault assertion_failed.

Declare Scope outcome_scope.
Delimit Scope outcome_scope with outcome.
Notation "x <- m ;; k" := (bind m (fun x => k))
  (at level 100, m at next level, right associativity) : outcome_scope.
Notation "' p <- m ;; k" := (bind m (fun p => k))
  (at level 100, p pattern, m at next level, right associativity) : outcome_scope.
Notation "m ;;; k" := (bind m (fun _ => k))
  (at level 100, right associativity) : outcome_scope.
Open Scope outcome_scope.

(** ** Data model *)

(** [struct pollfd]. *)
Record struct_pollfd : Type := mk_pollfd {
  fd : Z;
  events : Z;
  revents : Z }.

Definition pollfd_zero : struct_pollfd := mk_pollfd 0 0 0.

Definition clear_revents (s : struct_pollfd) : struct_pollfd :=
  mk_pollfd (fd s) (events s) 0.

(** The functions stored in [before_cb] and [after_cb]: the adapters'
    own hooks, or a hook of the client, named by a number. *)
Inductive before_callback : Type :=
| cb_fdsem_before
| cb_asyncmsgq_before
| cb_client_before (k : nat).

Inductive after_callback : Type :=
| cb_fdsem_after
| cb_asyncmsgq_after
| cb_client_after (k : nat).

(** [struct pa_rtpoll_item].  [addr] is the address of the record, which
    is its identity.  [item_pollfd] is the field [pollfd]: NULL ([None])
    or a pointer into the array that [p->pollfd] designates, kept as the
    index of the slot it points to.  The back pointer [rtpoll] is left
    out: the model holds one poll set.  The list fields are the position
    in [items] below. *)
Record pa_rtpoll_item : Type := mk_item {
  addr : nat;
  dead : bool;
  item_pollfd : option Z;
  n_pollfd : Z;
  before_cb : option before_callback;
  after_cb : option after_callback;
  userdata : Z }.

(** [struct pa_rtpoll].  The two arrays are kept by value; [items] is the
    linked list, head first.  [sigset_unblocked] and [timer] only reach
    the operating system and are not kept. *)
Record pa_rtpoll : Type := mk_rtpoll {
  pollfd : list struct_pollfd;
  pollfd2 : list struct_pollfd;
  n_pollfd_alloc : Z;
  n_pollfd_used : Z;
  timer_enabled : bool;
  next_elapse : Z;
  period : Z;
  scan_for_dead : bool;
  running : bool;
  installed : bool;
  rebuild_needed : bool;
  rtsig : Z;
  dont_use_ppoll : bool;
  items : list pa_rtpoll_item }.

(** What the program does that is visible from outside, in order. *)
Inductive event : Type :=
| ev_before (a : nat) (ret : Z)
    (* the before-hook of item [a] is called and will return [ret] *)
| ev_after (a : nat) (slice : list struct_pollfd)
    (* the after-hook of item [a] is called; [slice] is what its slots hold *)
| ev_wait (fds : list struct_pollfd) (timeout : option Z) (ret err : Z)
    (* poll or ppoll is issued over [fds] and comes back with [ret], [err] *)
| ev_item_free (a : nat)         (* pa_rtpoll_item_free is called on [a] *)
| ev_reclaim (a : nat)           (* the record [a] goes to the free list or to pa_xfree *)
| ev_fdsem_before_poll (f : Z)
| ev_fdsem_after_poll (f : Z)
| ev_asyncmsgq_before_poll (q : Z)
| ev_asyncmsgq_after_poll (q : Z)
| ev_update_timer (enabled : bool) (deadline interval : Z).

(** The state of the program: the poll set, the static free list of item
    records ([PA_STATIC_FLIST_DECLARE(items, 0, pa_xfree)]), the next
    address that [pa_xnew] hands out, [errno], and the events so far.
    Modelled from the spec: pulsecore/flist.h is not part of the source;
    the free list is "a bounded free-list recycling item records", kept
    as a stack of addresses with the capacity [flist_size] of the
    environment. *)
Record world : Type := mk_world {
  rtpoll : pa_rtpoll;
  flist : list nat;
  heap_next : nat;
  errno : Z;
  trace : list event }.

(** The calls a client makes through rtpoll.h, as a hook does from inside
    a cycle.  [call_store_pollfd a j s] is
    [pa_rtpoll_item_get_pollfd(a, NULL)[j] = s]. *)
Inductive api_call : Type :=
| call_item_new (n_fds : Z)
| call_item_free (a : nat)
| call_item_get_pollfd (a : nat)
| call_store_pollfd (a : nat) (j : Z) (s : struct_pollfd)
| call_item_set_before_callback (a : nat) (cb : option before_callback)
| call_item_set_after_callback (a : nat) (cb : option after_callback)
| call_item_set_userdata (a : nat) (u : Z)
| call_item_new_fdsem (f : Z)
| call_item_new_asyncmsgq (q : Z)
| call_set_timer_absolute (ts : Z)
| call_set_timer_periodic (us : Z)
| call_set_timer_relative (us : Z)
| call_set_timer_disabled.

(** What the system call leaves behind: its return value, the [errno] it
    sets when it fails, and the [revents] it stores, slot by slot. *)
Record wait_result : Type := mk_wait {
  wr_ret : Z;
  wr_errno : Z;
  wr_revents : list Z }.

(** The surroundings of the poll set: the build configuration, the
    operating system, the clock, the external primitives behind the
    adapters, and the client's hooks.  Each answer may depend on the
    events so far. *)
Record Env : Type := mk_env {
  HAVE_PPOLL : bool;
  linux : bool;
  uname_release : option (Z * Z * Z);
  xnew_junk : struct_pollfd;            (* content of memory fresh from pa_xnew *)
  auto_junk : Z;                        (* content of an automatic variable never assigned *)
  flist_size : nat;                     (* capacity of the static free list *)
  pa_rtclock_get : list event -> Z;
  sys_poll : list event -> list struct_pollfd -> option Z -> wait_result;
  pa_fdsem_get : Z -> Z;
  pa_fdsem_before_poll : Z -> list event -> Z;
  pa_asyncmsgq_get_fd : Z -> Z;
  pa_asyncmsgq_before_poll : Z -> list event -> Z;
  client_before_hook : nat -> nat -> world -> list api_call * Z;
  client_after_hook : nat -> nat -> world -> list api_call }.

(** ** Field updates *)

Definition set_pollfd v (p : pa_rtpoll) : pa_rtpoll :=
  mk_rtpoll v (pollfd2 p) (n_pollfd_alloc p) (n_pollfd_used p) (timer_enabled p)
    (next_elapse p) (period p) (scan_for_dead p) (running p) (installed p)
    (rebuild_needed p) (rtsig p) (dont_use_ppoll p) (items p).
Definition set_pollfd2 v (p : pa_rtpoll) : pa_rtpoll :=
  mk_rtpoll (pollfd p) v (n_pollfd_alloc p) (n_pollfd_used p) (timer_enabled p)
    (next_elapse p) (period p) (scan_for_dead p) (running p) (installed p)
    (rebuild_needed p) (rtsig p) (dont_use_ppoll p) (items p).
Definition set_n_pollfd_alloc v (p : pa_rtpoll) : pa_rtpoll :=
  mk_rtpoll (pollfd p) (pollfd2 p) v (n_pollfd_used p) (timer_enabled p)
    (next_elapse p) (period p) (scan_for_dead p) (running p) (installed p)
    (rebuild_needed p) (rtsig p) (dont_use_ppoll p) (items p).
Definition set_n_pollfd_used v (p : pa_rtpoll) : pa_rtpoll :=
  mk_rtpoll (pollfd p) (pollfd2 p) (n_pollfd_alloc p) v (timer_enabled p)
    (next_elapse p) (period p) (scan_for_dead p) (running p) (installed p)
    (rebuild_needed p) (rtsig p) (dont_use_ppoll p) (items p).
Definition set_timer_enabled v (p : pa_rtpoll) : pa_rtpoll :=
  mk_rtpoll (pollfd p) (pollfd2 p) (n_pollfd_alloc p) (n_pollfd_used p) v
    (next_elapse p) (period p) (scan_for_dead p) (running p) (installed p)
    (rebuild_needed p) (rtsig p) (dont_use_ppoll p) (items p).
Definition set_next_elapse v (p : pa_rtpoll) : pa_rtpoll :=
  mk_rtpoll (pollfd p) (pollfd2 p) (n_pollfd_alloc p) (n_pollfd_used p) (timer_enabled p)
    v (period p) (scan_for_dead p) (running p) (installed p)
    (rebuild_needed p) (rtsig p) (dont_use_ppoll p) (items p).
Definition set_period v (p : pa_rtpoll) : pa_rtpoll :=
  mk_rtpoll (pollfd p) (pollfd2 p) (n_pollfd_alloc p) (n_pollfd_used p) (timer_enabled p)
    (next_elapse p) v (scan_for_dead p) (running p) (installed p)
    (rebuild_needed p) (rtsig p) (dont_use_ppoll p) (items p).
Definition set_scan_for_dead v (p : pa_rtpoll) : pa_rtpoll :=
  mk_rtpoll (pollfd p) (pollfd2 p) (n_pollfd_alloc p) (n_pollfd_used p) (timer_enabled p)
    (next_elapse p) (period p) v (running p) (installed p)
    (rebuild_needed p) (rtsig p) (dont_use_ppoll p) (items p).
Definition set_running v (p : pa_rtpoll) : pa_rtpoll :=
  mk_rtpoll (pollfd p) (pollfd2 p) (n_pollfd_alloc p) (n_pollfd_used p) (timer_enabled p)
    (next_elapse p) (period p) (scan_for_dead p) v (installed p)
    (rebuild_needed p) (rtsig p) (dont_use_ppoll p) (items p).
Definition set_installed v (p : pa_rtpoll) : pa_rtpoll :=
  mk_rtpoll (pollfd p) (pollfd2 p) (n_pollfd_alloc p) (n_pollfd_used p) (timer_enabled p)
    (next_elapse p) (period p) (scan_for_dead p) (running p) v
    (rebuild_needed p) (rtsig p) (dont_use_ppoll p) (items p).
Definition set_rebuild_needed v (p : pa_rtpoll) : pa_rtpoll :=
  mk_rtpoll (pollfd p) (pollfd2 p) (n_pollfd_alloc p) (n_pollfd_used p) (timer_enabled p)
    (next_elapse p) (period p) (scan_for_dead p) (running p) (installed p)
    v (rtsig p) (dont_use_ppoll p) (items p).
Definition set_items v (p : pa_rtpoll) : pa_rtpoll :=
  mk_rtpoll (pollfd p) (pollfd2 p) (n_pollfd_alloc p) (n_pollfd_used p) (timer_enabled p)
    (next_elapse p) (period p) (scan_for_dead p) (running p) (installed p)
    (rebuild_needed p) (rtsig p) (dont_use_ppoll p) v.

Definition set_rtpoll v (w : world) : world :=
  mk_world v (flist w) (heap_next w) (errno w) (trace w).
Definition set_flist v (w : world) : world :=
  mk_world (rtpoll w) v (heap_next w) (errno w) (trace w).
Definition set_heap_next v (w : world) : world :=
  mk_world (rtpoll w) (flist w) v (errno w) (trace w).
Definition set_errno v (w : world) : world :=
  mk_world (rtpoll w) (flist w) (heap_next w) v (trace w).
Definition log (e : event) (w : world) : world :=
  mk_world (rtpoll w) (flist w) (heap_next w) (errno w) (trace w ++ [e]).

Definition set_dead v (i : pa_rtpoll_item) : pa_rtpoll_item :=
  mk_item (addr i) v (item_pollfd i) (n_pollfd i) (before_cb i) (after_cb i) (userdata i).
Definition set_item_pollfd v (i : pa_rtpoll_item) : pa_rtpoll_item :=
  mk_item (addr i) (dead i) v (n_pollfd i) (before_cb i) (after_cb i) (userdata i).
Definition set_before_cb v (i : pa_rtpoll_item) : pa_rtpoll_item :=
  mk_item (addr i) (dead i) (item_pollfd i) (n_pollfd i) v (after_cb i) (userdata i).
Definition set_after_cb v (i : pa_rtpoll_item) : pa_rtpoll_item :=
  mk_item (addr i) (dead i) (item_pollfd i) (n_pollfd i) (before_cb i) v (userdata i).
Definition set_userdata v (i : pa_rtpoll_item) : pa_rtpoll_item :=
  mk_item (addr i) (dead i) (item_pollfd i) (n_pollfd i) (before_cb i) (after_cb i) v.

(** ** Memory and list helpers *)

(** [n] consecutive slots starting at index [off]; out of bounds is a fault. *)
Definition read_slots (buf : list struct_pollfd) (off n : Z) : outcome (list struct_pollfd) :=
  if (0 <=? off) && (0 <=? n) && (off + n <=? Z.of_nat (length buf))
  then Ok (firstn (Z.to_nat n) (skipn (Z.to_nat off) buf))
  else Fault invalid_pointer.

(** Overwrite the slots starting at index [off] with [data]. *)
Definition write_slots (buf : list struct_pollfd) (off : Z) (data : list struct_pollfd)
  : outcome (list struct_pollfd) :=
  if (0 <=? off) && (off + Z.of_nat (length data) <=? Z.of_nat (length buf))
  then Ok (firstn (Z.to_nat off) buf ++ data
           ++ skipn (Z.to_nat off + length data) buf)
  else Fault invalid_pointer.

(** [pa_xnew(struct pollfd, n)]: [n] slots of unspecified content. *)
Definition pa_xnew_pollfd (junk : struct_pollfd) (n : Z) : list struct_pollfd :=
  repeat junk (Z.to_nat n).

(** [pa_xrealloc(buf, n * sizeof(struct pollfd))]: the first [n] slots are
    kept, slots gained hold unspecified content. *)
Definition pa_xrealloc_pollfd (junk : struct_pollfd) (buf : list struct_pollfd) (n : Z)
  : list struct_pollfd :=
  firstn (Z.to_nat n) buf ++ repeat junk (Z.to_nat n - length buf).

(** The kernel stores [revents] into the leading slots. *)
Fixpoint store_revents (rs : list Z) (buf : list struct_pollfd) : list struct_pollfd :=
  match rs, buf with
  | r :: rs', s :: buf' => mk_pollfd (fd s) (events s) r :: store_revents rs' buf'
  | _, _ => buf
  end.

Fixpoint find_item (a : nat) (l : list pa_rtpoll_item) : option pa_rtpoll_item :=
  match l with
  | [] => None
  | i :: rest => if Nat.eqb (addr i) a then Some i else find_item a rest
  end.

Definition update_item (a : nat) (f : pa_rtpoll_item -> pa_rtpoll_item)
  (l : list pa_rtpoll_item) : list pa_rtpoll_item :=
  map (fun i => if Nat.eqb (addr i) a then f i else i) l.

(** Modelled from the spec: [PA_LLIST_REMOVE] of pulsecore/llist.h is not
    part of the source; it unlinks the record at address [a]. *)
Fixpoint llist_remove (a : nat) (l : list pa_rtpoll_item) : list pa_rtpoll_item :=
  match l with
  | [] => []
  | i :: rest => if Nat.eqb (addr i) a then rest else i :: llist_remove a rest
  end.

(** Modelled from the spec: [PA_LLIST_PREPEND] of pulsecore/llist.h is
    not part of the source; the new record becomes the head of the list
    ("most-recent-first"). *)
Definition llist_prepend (i : pa_rtpoll_item) (l : list pa_rtpoll_item)
  : list pa_rtpoll_item := i :: l.

Fixpoint prev_from (before : option nat) (a : nat) (l : list pa_rtpoll_item) : option nat :=
  match l with
  | [] => None
  | i :: rest => if Nat.eqb (addr i) a then before else prev_from (Some (addr i)) a rest
  end.

(** [i->prev] for the record at address [a]. *)
Definition prev_of (a : nat) (l : list pa_rtpoll_item) : option nat := prev_from None a l.

(** The slots an item's [pollfd] pointer designates. *)
Definition item_slice (p : pa_rtpoll) (i : pa_rtpoll_item) : list struct_pollfd :=
  match item_pollfd i with
  | Some off => firstn (Z.to_nat (n_pollfd i)) (skipn (Z.to_nat off) (pollfd p))
  | None => []
  end.

(** ** Time *)

(** Modelled from the spec: [struct timespec] and pulsecore's
    [pa_timespec_add], [pa_timespec_cmp], [pa_timespec_diff] and
    [pa_timespec_store] are not part of the source.  A point in time and
    a duration are an exact count of microseconds, the unit of
    [pa_usec_t]; a deadline is "the absolute point in time at which the
    timer should next fire". *)
Definition pa_timespec_add (ts v : Z) : Z := ts + v.

Definition pa_timespec_cmp (a b : Z) : Z :=
  match a ?= b with
  | Lt => -1
  | Eq => 0
  | Gt => 1
  end.

Definition pa_timespec_diff (a b : Z) : Z := Z.abs (a - b).

Definition tv_sec (ts : Z) : Z := ts / 1000000.
Definition tv_nsec (ts : Z) : Z := (ts mod 1000000) * 1000.

(** ** The poll set *)

Section Rtpoll.

Variable E : Env.

(** [pa_rtpoll_new]; [ppoll] is broken on Linux before 2.6.16. *)
Definition pa_rtpoll_new : pa_rtpoll :=
  let dont :=
    if HAVE_PPOLL E && linux E then
      match uname_release E with
      | Some (major, minor, micro) =>
          (major <? 2) || ((major =? 2) && (minor <? 6))
          || ((major =? 2) && (minor =? 6) && (micro <? 16))
      | None => true
      end
    else false in
  mk_rtpoll (pa_xnew_pollfd (xnew_junk E) 32) (pa_xnew_pollfd (xnew_junk E) 32)
    32 0 false 0 0 false false false false (-1) dont [].

Definition initial_world : world := mk_world pa_rtpoll_new [] 0 0 [].

Fixpoint rebuild_items (active : list struct_pollfd) (l : list pa_rtpoll_item)
  (e : Z) (scratch : list struct_pollfd)
  : outcome (list pa_rtpoll_item * Z * list struct_pollfd) :=
  match l with
  | [] => Ok ([], e, scratch)
  | i :: rest =>
      '(i', scratch') <-
        (if 0 <? n_pollfd i then
           src <- match item_pollfd i with
                  | Some off => read_slots active off (n_pollfd i)
                  | None => Ok (repeat pollfd_zero (Z.to_nat (n_pollfd i)))
                  end ;;
           s <- write_slots scratch e src ;;
           Ok (set_item_pollfd (Some e) i, s)
         else Ok (set_item_pollfd None i, scratch)) ;;
      '(rest', e', scratch'') <- rebuild_items active rest (e + n_pollfd i) scratch' ;;
      Ok (i' :: rest', e', scratch'')
  end.

(** [rtpoll_rebuild]. *)
Definition rtpoll_rebuild (p : pa_rtpoll) : outcome pa_rtpoll :=
  let p := set_rebuild_needed false p in
  let ra := n_pollfd_alloc p <? n_pollfd_used p in
  let p :=
    if ra then
      let alloc := u32 (n_pollfd_used p * 2) in
      set_pollfd2 (pa_xrealloc_pollfd (xnew_junk E) (pollfd2 p) alloc)
        (set_n_pollfd_alloc alloc p)
    else p in
  '(l, e, scratch) <- rebuild_items (pollfd p) (items p) 0 (pollfd2 p) ;;
  pa_assert (u32 e =? n_pollfd_used p) ;;;
  let t := pollfd p in
  let p := set_pollfd2 t (set_pollfd scratch (set_items l p)) in
  Ok (if ra
      then set_pollfd2 (pa_xrealloc_pollfd (xnew_junk E) (pollfd2 p) (n_pollfd_alloc p)) p
      else p).

(** [rtpoll_item_destroy]: unlink, give the slots back, hand the record to
    the free list, or to [pa_xfree] when the free list is full. *)
Definition rtpoll_item_destroy (a : nat) (w : world) : outcome world :=
  match find_item a (items (rtpoll w)) with
  | None => Fault invalid_pointer
  | Some i =>
      let p := rtpoll w in
      let p := set_items (llist_remove a (items p)) p in
      let p := set_n_pollfd_used (u32 (n_pollfd_used p - n_pollfd i)) p in
      let fl := if (length (flist w) <? flist_size E)%nat then a :: flist w else flist w in
      Ok (log (ev_reclaim a) (set_flist fl (set_rtpoll (set_rebuild_needed true p) w)))
  end.

(** [pa_rtpoll_install]; only [installed] and [rtsig] are kept, and the
    realtime signal is not reserved by the model. *)
Definition pa_rtpoll_install (w : world) : outcome world :=
  pa_assert (negb (installed (rtpoll w))) ;;;
  Ok (set_rtpoll (set_installed true (rtpoll w)) w).

(** [update_timer] programs the timer of the operating system and touches
    no field that is kept. *)
Definition update_timer (w : world) : world :=
  let p := rtpoll w in
  if HAVE_PPOLL E && negb (linux E && dont_use_ppoll p)
  then log (ev_update_timer (timer_enabled p) (next_elapse p) (period p)) w
  else w.

Definition pa_rtpoll_set_timer_absolute (ts : Z) (w : world) : world :=
  let p := rtpoll w in
  update_timer
    (set_rtpoll (set_timer_enabled true (set_period 0 (set_next_elapse ts p))) w).

Definition pa_rtpoll_set_timer_periodic (us : Z) (w : world) : world :=
  let p := set_period us (rtpoll w) in
  let p := set_next_elapse (pa_rtclock_get E (trace w)) p in
  let p := set_next_elapse (pa_timespec_add (next_elapse p) us) p in
  update_timer (set_rtpoll (set_timer_enabled true p) w).

Definition pa_rtpoll_set_timer_relative (us : Z) (w : world) : world :=
  let p := set_period 0 (rtpoll w) in
  let p := set_next_elapse (pa_rtclock_get E (trace w)) p in
  let p := set_next_elapse (pa_timespec_add (next_elapse p) us) p in
  update_timer (set_rtpoll (set_timer_enabled true p) w).

Definition pa_rtpoll_set_timer_disabled (w : world) : world :=
  let p := rtpoll w in
  update_timer
    (set_rtpoll (set_timer_enabled false (set_next_elapse 0 (set_period 0 p))) w).

(** [pa_rtpoll_item_new]; the record comes from the free list when it
    holds one, from [pa_xnew] otherwise.  The result carries the address
    of the new item. *)
Definition pa_rtpoll_item_new (n_fds : Z) (w : world) : outcome (world * nat) :=
  pa_assert (0 <? n_fds) ;;;
  let '(a, w) :=
    match flist w with
    | a :: rest => (a, set_flist rest w)
    | [] => (heap_next w, set_heap_next (S (heap_next w)) w)
    end in
  let i := mk_item a false None n_fds None None 0 in
  let p := rtpoll w in
  let p := set_items (llist_prepend i (items p)) p in
  let p := set_rebuild_needed true p in
  let p := set_n_pollfd_used (u32 (n_pollfd_used p + n_fds)) p in
  Ok (set_rtpoll p w, a).

(** [pa_rtpoll_item_free]. *)
Definition pa_rtpoll_item_free (a : nat) (w : world) : outcome world :=
  let w := log (ev_item_free a) w in
  match find_item a (items (rtpoll w)) with
  | None => Fault invalid_pointer
  | Some _ =>
      if running (rtpoll w) then
        let p := rtpoll w in
        let p := set_items (update_item a (set_dead true) (items p)) p in
        Ok (set_rtpoll (set_scan_for_dead true p) w)
      else rtpoll_item_destroy a w
  end.

(** [pa_rtpoll_item_get_pollfd]; the result carries the pointer. *)
Definition pa_rtpoll_item_get_pollfd (a : nat) (w : world) : outcome (world * option Z) :=
  match find_item a (items (rtpoll w)) with
  | None => Fault invalid_pointer
  | Some _ =>
      w <- (if rebuild_needed (rtpoll w)
            then p <- rtpoll_rebuild (rtpoll w) ;; Ok (set_rtpoll p w)
            else Ok w) ;;
      match find_item a (items (rtpoll w)) with
      | None => Fault invalid_pointer
      | Some i => Ok (w, item_pollfd i)
      end
  end.

Definition update_item_checked (a : nat) (f : pa_rtpoll_item -> pa_rtpoll_item)
  (w : world) : outcome world :=
  match find_item a (items (rtpoll w)) with
  | None => Fault invalid_pointer
  | Some _ => Ok (set_rtpoll (set_items (update_item a f (items (rtpoll w))) (rtpoll w)) w)
  end.

Definition pa_rtpoll_item_set_before_callback (a : nat) (cb : option before_callback) :=
  update_item_checked a (set_before_cb cb).

Definition pa_rtpoll_item_set_after_callback (a : nat) (cb : option after_callback) :=
  update_item_checked a (set_after_cb cb).

Definition pa_rtpoll_item_set_userdata (a : nat) (u : Z) :=
  update_item_checked a (set_userdata u).

Definition pa_rtpoll_item_get_userdata (a : nat) (w : world) : outcome Z :=
  match find_item a (items (rtpoll w)) with
  | None => Fault invalid_pointer
  | Some i => Ok (userdata i)
  end.

(** A store through a pointer into the active array: [ptr[j] = f(ptr[j])]. *)
Definition store_through (ptr : option Z) (j : Z)
  (f : struct_pollfd -> struct_pollfd) (w : world) : outcome world :=
  match ptr with
  | None => Fault invalid_pointer
  | Some off =>
      old <- read_slots (pollfd (rtpoll w)) (off + j) 1 ;;
      buf <- write_slots (pollfd (rtpoll w)) (off + j) (map f old) ;;
      Ok (set_rtpoll (set_pollfd buf (rtpoll w)) w)
  end.

(** The body shared by [pa_rtpoll_item_new_fdsem] and
    [pa_rtpoll_item_new_asyncmsgq]. *)
Definition new_adapter_item (descriptor : Z) (before : before_callback)
  (after : after_callback) (handle : Z) (w : world) : outcome (world * nat) :=
  pa_assert (negb (handle =? 0)) ;;;
  '(w, i) <- pa_rtpoll_item_new 1 w ;;
  '(w, ptr) <- pa_rtpoll_item_get_pollfd i w ;;
  w <- store_through ptr 0 (fun s => mk_pollfd descriptor POLLIN (revents s)) w ;;
  w <- update_item_checked i
         (fun it => set_userdata handle (set_after_cb (Some after)
                      (set_before_cb (Some before) it))) w ;;
  Ok (w, i).

(** [pa_rtpoll_item_new_fdsem]. *)
Definition pa_rtpoll_item_new_fdsem (f : Z) (w : world) : outcome (world * nat) :=
  new_adapter_item (pa_fdsem_get E f) cb_fdsem_before cb_fdsem_after f w.

(** [pa_rtpoll_item_new_asyncmsgq]. *)
Definition pa_rtpoll_item_new_asyncmsgq (q : Z) (w : world) : outcome (world * nat) :=
  new_adapter_item (pa_asyncmsgq_get_fd E q) cb_asyncmsgq_before cb_asyncmsgq_after q w.

End Rtpoll.

(** ** Hooks and the cycle *)

Section Cycle.

Variable E : Env.

(** One call of the client through the interface. *)
Definition exec_call (c : api_call) (w : world) : outcome world :=
  match c with
  | call_item_new n => '(w, _) <- pa_rtpoll_item_new n w ;; Ok w
  | call_item_free a => pa_rtpoll_item_free E a w
  | call_item_get_pollfd a => '(w, _) <- pa_rtpoll_item_get_pollfd E a w ;; Ok w
  | call_store_pollfd a j s =>
      '(w, ptr) <- pa_rtpoll_item_get_pollfd E a w ;;
      store_through ptr j (fun _ => s) w
  | call_item_set_before_callback a cb => pa_rtpoll_item_set_before_callback a cb w
  | call_item_set_after_callback a cb => pa_rtpoll_item_set_after_callback a cb w
  | call_item_set_userdata a u => pa_rtpoll_item_set_userdata a u w
  | call_item_new_fdsem f => '(w, _) <- pa_rtpoll_item_new_fdsem E f w ;; Ok w
  | call_item_new_asyncmsgq q => '(w, _) <- pa_rtpoll_item_new_asyncmsgq E q w ;; Ok w
  | call_set_timer_absolute ts => Ok (pa_rtpoll_set_timer_absolute E ts w)
  | call_set_timer_periodic us => Ok (pa_rtpoll_set_timer_periodic E us w)
  | call_set_timer_relative us => Ok (pa_rtpoll_set_timer_relative E us w)
  | call_set_timer_disabled => Ok (pa_rtpoll_set_timer_disabled E w)
  end.

Fixpoint exec_script (s : list api_call) (w : world) : outcome world :=
  match s with
  | [] => Ok w
  | c :: rest => w' <- exec_call c w ;; exec_script rest w'
  end.

(** [pa_assert((i->pollfd[0].revents & ~POLLIN) == 0)]. *)
Definition assert_only_pollin (i : pa_rtpoll_item) (w : world) : outcome unit :=
  match item_pollfd i with
  | None => Fault invalid_pointer
  | Some off =>
      s <- read_slots (pollfd (rtpoll w)) off 1 ;;
      pa_assert (forallb (fun x => Z.land (revents x) (Z.lnot POLLIN) =? 0) s)
  end.

(** [fdsem_before]. *)
Definition fdsem_before (i : pa_rtpoll_item) (w : world) : outcome (world * Z) :=
  Ok (log (ev_fdsem_before_poll (userdata i)) w,
      pa_fdsem_before_poll E (userdata i) (trace w)).

(** [fdsem_after]. *)
Definition fdsem_after (i : pa_rtpoll_item) (w : world) : outcome world :=
  assert_only_pollin i w ;;;
  Ok (log (ev_fdsem_after_poll (userdata i)) w).

(** [asyncmsgq_before]. *)
Definition asyncmsgq_before (i : pa_rtpoll_item) (w : world) : outcome (world * Z) :=
  Ok (log (ev_asyncmsgq_before_poll (userdata i)) w,
      pa_asyncmsgq_before_poll E (userdata i) (trace w)).

(** [asyncmsgq_after]. *)
Definition asyncmsgq_after (i : pa_rtpoll_item) (w : world) : outcome world :=
  assert_only_pollin i w ;;;
  Ok (log (ev_asyncmsgq_after_poll (userdata i)) w).

(** [i->before_cb(i)]; the event is logged when the hook has returned. *)
Definition invoke_before (cb : before_callback) (i : pa_rtpoll_item) (w : world)
  : outcome (world * Z) :=
  '(w', ret) <-
    match cb with
    | cb_fdsem_before => fdsem_before i w
    | cb_asyncmsgq_before => asyncmsgq_before i w
    | cb_client_before k =>
        let '(script, ret) := client_before_hook E k (addr i) w in
        w' <- exec_script script w ;; Ok (w', ret)
    end ;;
  Ok (log (ev_before (addr i) ret) w', ret).

(** [i->after_cb(i)]; the event is logged when the hook is entered and
    carries the slots the hook finds. *)
Definition invoke_after (cb : after_callback) (i : pa_rtpoll_item) (w : world)
  : outcome world :=
  let w0 := log (ev_after (addr i) (item_slice (rtpoll w) i)) w in
  match cb with
  | cb_fdsem_after => fdsem_after i w0
  | cb_asyncmsgq_after => asyncmsgq_after i w0
  | cb_client_after k => exec_script (client_after_hook E k (addr i) w) w0
  end.

(** The three forward loops [for (i = p->items; i; i = i->next)] run over
    the addresses linked when the loop is entered: while a cycle runs a
    record is never unlinked and a new one is linked in front of the
    head, so the chain of [next] pointers ahead of the cursor is the one
    the loop started with (lemma [exec_script_keeps_chain] below).  The
    fields of an item are read from the current state when the cursor
    reaches it.  The result of the first loop names the item whose
    before-hook refused. *)
Fixpoint before_loop (todo : list nat) (w : world) : outcome (world * option nat) :=
  match todo with
  | [] => Ok (w, None)
  | a :: rest =>
      match find_item a (items (rtpoll w)) with
      | None => Fault invalid_pointer
      | Some i =>
          if dead i then before_loop rest w
          else match before_cb i with
               | None => before_loop rest w
               | Some cb =>
                   '(w', ret) <- invoke_before cb i w ;;
                   if ret <? 0 then Ok (w', Some a) else before_loop rest w'
               end
      end
  end.

(** The rewind loop [for (i = i->prev; i; i = i->prev)].  The cursor is
    an address, and [i->prev] is read after the hook has run.  A hook may
    link new records in front, so the walk has no bound of its own and
    [fuel] bounds the number of records visited. *)
Fixpoint rewind (fuel : nat) (cur : option nat) (w : world) : outcome world :=
  match cur with
  | None => Ok w
  | Some a =>
      match fuel with
      | O => Fault out_of_fuel
      | S fuel' =>
          match find_item a (items (rtpoll w)) with
          | None => Fault invalid_pointer
          | Some i =>
              if dead i then rewind fuel' (prev_of a (items (rtpoll w))) w
              else match after_cb i with
                   | None => rewind fuel' (prev_of a (items (rtpoll w))) w
                   | Some cb =>
                       w' <- invoke_after cb i w ;;
                       rewind fuel' (prev_of a (items (rtpoll w'))) w'
                   end
          end
      end
  end.

(** [for (j = 0; j < i->n_pollfd; j++) i->pollfd[j].revents = 0;] *)
Definition clear_item_revents (i : pa_rtpoll_item) (w : world) : outcome world :=
  if n_pollfd i <=? 0 then Ok w
  else match item_pollfd i with
       | None => Fault invalid_pointer
       | Some off =>
           old <- read_slots (pollfd (rtpoll w)) off (n_pollfd i) ;;
           buf <- write_slots (pollfd (rtpoll w)) off (map clear_revents old) ;;
           Ok (set_rtpoll (set_pollfd buf (rtpoll w)) w)
       end.

Fixpoint after_loop (no_events : bool) (todo : list nat) (w : world) : outcome world :=
  match todo with
  | [] => Ok w
  | a :: rest =>
      match find_item a (items (rtpoll w)) with
      | None => Fault invalid_pointer
      | Some i =>
          if dead i then after_loop no_events rest w
          else match after_cb i with
               | None => after_loop no_events rest w
               | Some cb =>
                   w1 <- (if no_events then clear_item_revents i w else Ok w) ;;
                   w2 <- invoke_after cb i w1 ;;
                   after_loop no_events rest w2
               end
      end
  end.

(** The loop under [finish:]; [n = i->next] is read before [i] goes. *)
Fixpoint reap_loop (todo : list nat) (w : world) : outcome world :=
  match todo with
  | [] => Ok w
  | a :: rest =>
      match find_item a (items (rtpoll w)) with
      | None => Fault invalid_pointer
      | Some i =>
          if dead i
          then w' <- rtpoll_item_destroy E a w ;; reap_loop rest w'
          else reap_loop rest w
      end
  end.

(** From the label [finish:] to the end of [pa_rtpoll_run]. *)
Definition finish (r saved_errno : Z) (w : world) : outcome (world * Z) :=
  let w := set_rtpoll (set_running false (rtpoll w)) w in
  w <- (if scan_for_dead (rtpoll w)
        then let w := set_rtpoll (set_scan_for_dead false (rtpoll w)) w in
             reap_loop (map addr (items (rtpoll w))) w
        else Ok w) ;;
  Ok (set_errno saved_errno w, r).

(** "Calculate timeout": the value of [timeout] when the timer is enabled. *)
Definition calc_timeout (w : world) : Z :=
  let p := rtpoll w in
  let now := pa_rtclock_get E (trace w) in
  if pa_timespec_cmp (next_elapse p) now <=? 0 then 0
  else pa_timespec_diff (next_elapse p) now.

(** The system call: [ppoll] takes the timeout as a [timespec], [poll] in
    milliseconds through its [int] parameter.  The kernel reads the first [n_pollfd_used] slots of
    the active array and stores their [revents]; [errno] is set when the
    call fails. *)
Definition wait_syscall (use_ppoll : bool) (w : world) : world * Z :=
  let p := rtpoll w in
  let nfds := Z.to_nat (n_pollfd_used p) in
  let fds := firstn nfds (pollfd p) in
  let timeout := calc_timeout w in
  let t :=
    if timer_enabled p
    then Some (if use_ppoll then timeout
               else c_int (tv_sec timeout * 1000 + tv_nsec timeout / 1000000))
    else None in
  let res := sys_poll E (trace w) fds t in
  let err := if wr_ret res <? 0 then wr_errno res else errno w in
  let buf := store_revents (firstn nfds (wr_revents res)) (pollfd p) in
  (log (ev_wait fds t (wr_ret res) err)
     (set_errno err (set_rtpoll (set_pollfd buf p) w)),
   wr_ret res).

(** "OK, now let's sleep": the lines between the two [#ifdef HAVE_PPOLL]
    ... [#endif] and the statement [saved_errno = errno;] after them, as
    the preprocessor leaves them.  With [HAVE_PPOLL] on Linux the text is
    [if (!p->dont_use_ppoll) r = ppoll(...); else saved_errno = errno;],
    so [saved_errno] is assigned only when no call is made.  The result
    is the state, [r] and [saved_errno]. *)
Definition sleep (w : world) : world * Z * Z :=
  if HAVE_PPOLL E then
    if linux E then
      if negb (dont_use_ppoll (rtpoll w))
      then let '(w', r) := wait_syscall true w in (w', r, auto_junk E)
      else (w, 0, errno w)
    else let '(w', r) := wait_syscall true w in (w', r, errno w')
  else let '(w', r) := wait_syscall false w in (w', r, errno w').

(** The deadline after the wait: [if (p->timer_enabled) { ... }]. *)
Definition advance_timer (w : world) : world :=
  let p := rtpoll w in
  if timer_enabled p then
    if 0 <? period p then
      let now := pa_rtclock_get E (trace w) in
      let ne := pa_timespec_add (next_elapse p) (period p) in
      let ne :=
        if pa_timespec_cmp ne now <? 0
        then pa_timespec_add ne
               (usec (usec (pa_timespec_diff now ne / period p + 1) * period p))
        else ne in
      set_rtpoll (set_next_elapse ne p) w
    else set_rtpoll (set_timer_enabled false p) w
  else w.

(** [if (r == 0 || (r < 0 && (errno == EAGAIN || errno == EINTR)))]. *)
Definition is_no_events (r err : Z) : bool :=
  (r =? 0) || ((r <? 0) && ((err =? EAGAIN) || (err =? EINTR))).

(** [pa_rtpoll_run]. *)
Definition pa_rtpoll_run (fuel : nat) (w : world) : outcome (world * Z) :=
  pa_assert (negb (running (rtpoll w))) ;;;
  pa_assert (installed (rtpoll w)) ;;;
  let w := set_rtpoll (set_running true (rtpoll w)) w in
  '(w, refused) <- before_loop (map addr (items (rtpoll w))) w ;;
  match refused with
  | Some a =>
      w <- rewind fuel (prev_of a (items (rtpoll w))) w ;;
      finish 0 (auto_junk E) w
  | None =>
      w <- (if rebuild_needed (rtpoll w)
            then p <- rtpoll_rebuild E (rtpoll w) ;; Ok (set_rtpoll p w)
            else Ok w) ;;
      let '(w, r, saved_errno) := sleep w in
      let w := advance_timer w in
      let no_events := is_no_events r (errno w) in
      let r := if no_events then 0 else r in
      w <- after_loop no_events (map addr (items (rtpoll w))) w ;;
      finish r saved_errno w
  end.

(** [pa_rtpoll_free]: [while (p->items) rtpoll_item_destroy(p->items);]
    then the arrays and the poll set go. *)
Fixpoint destroy_all (n : nat) (w : world) : outcome world :=
  match n with
  | O => Ok w
  | S n' =>
      match items (rtpoll w) with
      | [] => Ok w
      | i :: _ => w' <- rtpoll_item_destroy E (addr i) w ;; destroy_all n' w'
      end
  end.

Definition pa_rtpoll_free (w : world) : outcome world :=
  destroy_all (length (items (rtpoll w))) w.

End Cycle.

(** ** Scenarios used to state the properties *)

(** Create one item per requested slot count, in the order given; the
    result lists the addresses in creation order. *)
Fixpoint create_items (ns : list Z) (w : world) : outcome (world * list nat) :=
  match ns with
  | [] => Ok (w, [])
  | n :: rest =>
      '(w1, a) <- pa_rtpoll_item_new n w ;;
      '(w2, l) <- create_items rest w1 ;;
      Ok (w2, a :: l)
  end.

(** Item [a] owns the slots [lo, hi) of the active array. *)
Definition owns (w : world) (a : nat) (lo hi : Z) : Prop :=
  exists i, find_item a (items (rtpoll w)) = Some i
            /\ item_pollfd i = Some lo /\ lo + n_pollfd i = hi.

(** A fresh poll set, three items asking for 2, 1 and 3 slots created in
    this order, then a rebuild. *)
Definition rebuild_2_1_3 (E : Env) : outcome (world * list nat) :=
  '(w, created) <- create_items [2; 1; 3] (initial_world E) ;;
  p <- rtpoll_rebuild E (rtpoll w) ;;
  Ok (set_rtpoll p w, created).

(** An environment for the examples: [poll] only, nothing ever ready,
    hooks that do nothing. *)
Definition quiet_env : Env :=
  mk_env false false None pollfd_zero 0 8%nat
    (fun _ => 0) (fun _ _ _ => mk_wait 0 0 [])
    (fun f => f) (fun _ _ => 0) (fun q => q) (fun _ _ => 0)
    (fun _ _ _ => ([], 0)) (fun _ _ _ => []).

Definition is_wait (e : event) : bool :=
  match e with
  | ev_wait _ _ _ _ => true
  | _ => false
  end.

(** As [quiet_env], with a clock that reads [t0] until the system call
    has been made and [t1] afterwards. *)
Definition two_reading_clock_env (t0 t1 : Z) : Env :=
  mk_env false false None pollfd_zero 0 8%nat
    (fun tr => if existsb is_wait tr then t1 else t0)
    (fun _ _ _ => mk_wait 0 0 [])
    (fun f => f) (fun _ _ => 0) (fun q => q) (fun _ _ => 0)
    (fun _ _ _ => ([], 0)) (fun _ _ _ => []).

(** Install a fresh poll set, arm the periodic timer with period [us],
    and run one cycle. *)
Definition arm_periodic_and_run (E : Env) (us : Z) : outcome (world * Z) :=
  w <- pa_rtpoll_install (initial_world E) ;;
  pa_rtpoll_run E 0 (pa_rtpoll_set_timer_periodic E us w).

(** A Linux build with [ppoll], kernel 2.6.20, on which the system call
    fails with [ret] and [err]; [junk] is what the never-assigned
    [saved_errno] holds. *)
Definition failing_ppoll_env (ret err junk : Z) : Env :=
  mk_env true true (Some (2, 6, 20)) pollfd_zero junk 8%nat
    (fun _ => 0) (fun _ _ _ => mk_wait ret err [])
    (fun f => f) (fun _ _ => 0) (fun q => q) (fun _ _ => 0)
    (fun _ _ _ => ([], 0)) (fun _ _ _ => []).

(** Install a fresh poll set and run one cycle. *)
Definition install_and_run (E : Env) : outcome (world * Z) :=
  w <- pa_rtpoll_install (initial_world E) ;;
  pa_rtpoll_run E 0 w.

(** ** Invariants *)

(** What [rtpoll_rebuild] leaves alone in an item: all but [pollfd]. *)
Definition skel (i : pa_rtpoll_item)
  : nat * bool * Z * option before_callback * option after_callback * Z :=
  (addr i, dead i, n_pollfd i, before_cb i, after_cb i, userdata i).

Definition addrs (w : world) : list nat := map addr (items (rtpoll w)).

(** The sum of the slot counts of a list of items. *)
Definition slot_sum (l : list pa_rtpoll_item) : Z :=
  fold_right Z.add 0 (map n_pollfd l).

(** The items that are not marked dead. *)
Definition live_items (p : pa_rtpoll) : list pa_rtpoll_item :=
  filter (fun i => negb (dead i)) (items p).

Definition dead_addrs (w : world) : list nat :=
  map addr (filter dead (items (rtpoll w))).

(** The records in use and the records on the free list are distinct and
    lie below the next fresh address. *)
Definition wf_addr (w : world) : Prop :=
  NoDup (addrs w ++ flist w)
  /\ Forall (fun x => (x < heap_next w)%nat) (addrs w ++ flist w).

(** [n_pollfd_used] is the sum, in [unsigned] arithmetic, of the slot
    counts of the linked items. *)
Definition count_ok (w : world) : Prop :=
  n_pollfd_used (rtpoll w) = u32 (slot_sum (items (rtpoll w))).

(** Item [a] is marked for the reaper. *)
Definition marked (a : nat) (w : world) : Prop :=
  scan_for_dead (rtpoll w) = true /\ In a (dead_addrs w).

Definition is_reclaim (e : event) : bool :=
  match e with
  | ev_reclaim _ => true
  | _ => false
  end.

(** The state inside a cycle that started in [w0]: the cycle is marked
    running, the bookkeeping is sound, a dead item is only met with
    [scan_for_dead] set, no record has been reclaimed since [w0], and
    every item on which [pa_rtpoll_item_free] was called since [w0] is
    marked. *)
Definition in_cycle (w0 w : world) : Prop :=
  running (rtpoll w) = true
  /\ wf_addr w
  /\ count_ok w
  /\ (scan_for_dead (rtpoll w) = false -> dead_addrs w = [])
  /\ exists d, trace w = trace w0 ++ d
               /\ Forall (fun e => is_reclaim e = false) d
               /\ forall a, In (ev_item_free a) d -> marked a w.

(** The state between two cycles: nothing runs, the bookkeeping is
    sound, and no linked item is dead. *)
Definition idle (w : world) : Prop :=
  running (rtpoll w) = false
  /\ wf_addr w
  /\ count_ok w
  /\ scan_for_dead (rtpoll w) = false
  /\ dead_addrs w = [].

(** The events logged when a before-hook is called, and when an
    after-hook is called. *)
Definition is_before_event (e : event) : bool :=
  match e with
  | ev_before _ _ | ev_fdsem_before_poll _ | ev_asyncmsgq_before_poll _ => true
  | _ => false
  end.

Definition is_after_event (e : event) : bool :=
  match e with
  | ev_after _ _ | ev_fdsem_after_poll _ | ev_asyncmsgq_after_poll _ => true
  | _ => false
  end.

(** The events logged by the calls of the interface. *)
Definition is_api_event (e : event) : bool :=
  match e with
  | ev_item_free _ | ev_reclaim _ | ev_update_timer _ _ _ => true
  | _ => false
  end.

(** [w'] continues [w] with events that satisfy [P]. *)
Definition extends_by (P : event -> bool) (w w' : world) : Prop :=
  exists d, trace w' = trace w ++ d /\ Forall (fun e => P e = true) d.

(** What a client does with a poll set from outside a cycle: any call of
    the interface, the installation, or one cycle. *)
Inductive op : Type :=
| op_call (c : api_call)
| op_install
| op_run (fuel : nat).

Definition exec_op (E : Env) (o : op) (w : world) : outcome world :=
  match o with
  | op_call c => exec_call E c w
  | op_install => pa_rtpoll_install w
  | op_run fuel => '(w', _) <- pa_rtpoll_run E fuel w ;; Ok w'
  end.

Fixpoint exec_ops (E : Env) (ops : list op) (w : world) : outcome world :=
  match ops with
  | [] => Ok w
  | o :: rest => w' <- exec_op E o w ;; exec_ops E rest w'
  end.



(** The world an outcome holds, for the examples. *)
Definition world_of (o : outcome world) (E : Env) : world :=
  match o with
  | Ok w => w
  | Fault _ => initial_world E
  end.

Definition run_result (o : outcome (world * Z)) (E : Env) : world * Z :=
  match o with
  | Ok x => x
  | Fault _ => (initial_world E, 0)
  end.

(** Two items created, the first destroyed again, one cycle run. *)
Definition example_ops : list op :=
  [op_call (call_item_new 2); op_call (call_item_new 3);
   op_call (call_item_free 0); op_install; op_run 0].

(** An item of as many slots as an [unsigned] can say, then one of two
    slots. *)
Definition wrapping_ops : list op :=
  [op_call (call_item_new 4294967295); op_call (call_item_new 2)].

(** The pointers a rebuild hands out, walking the list from offset [e]. *)
Fixpoint layout (e : Z) (l : list pa_rtpoll_item) : list (option Z) :=
  match l with
  | [] => []
  | i :: rest =>
      (if 0 <? n_pollfd i then Some e else None) :: layout (e + n_pollfd i) rest
  end.

(** The [pollfd] pointer of an item is NULL or lies inside [buf]. *)
Definition ptr_ok (buf : list struct_pollfd) (i : pa_rtpoll_item) : Prop :=
  match item_pollfd i with
  | Some off => 0 <= off /\ off + n_pollfd i <= Z.of_nat (length buf)
  | None => True
  end.

(** The arrays are as large as [n_pollfd_alloc] says, every pointer lies
    inside the active array, and the slot counts are far from the end of
    the range of [unsigned]. *)
Definition layout_ok (w : world) : Prop :=
  count_ok w
  /\ Forall (fun i => 0 < n_pollfd i /\ ptr_ok (pollfd (rtpoll w)) i) (items (rtpoll w))
  /\ Z.of_nat (length (pollfd (rtpoll w))) = n_pollfd_alloc (rtpoll w)
  /\ Z.of_nat (length (pollfd2 (rtpoll w))) = n_pollfd_alloc (rtpoll w)
  /\ slot_sum (items (rtpoll w)) < 2 ^ 30.

(** What no call of the interface changes: [errno], the flags [running]
    and [installed], the choice of system call; the events it adds are
    those of the interface. *)
Definition keeps (w w' : world) : Prop :=
  errno w' = errno w
  /\ running (rtpoll w') = running (rtpoll w)
  /\ installed (rtpoll w') = installed (rtpoll w)
  /\ dont_use_ppoll (rtpoll w') = dont_use_ppoll (rtpoll w)
  /\ extends_by is_api_event w w'.

(** The events of the dispatch itself: a hook called, the system call
    made. *)
Definition is_dispatch (e : event) : bool :=
  match e with
  | ev_before _ _ | ev_after _ _ | ev_wait _ _ _ _ => true
  | _ => false
  end.

Definition no_dispatch (e : event) : bool := negb (is_dispatch e).

(** No slot of [sl] reports an event. *)
Definition all_revents_zero (sl : list struct_pollfd) : bool :=
  forallb (fun s => revents s =? 0) sl.

(** In a cycle whose wait is classified by [ne]: a system call logged is
    classified that way, and with [ne] set an after-hook finds no event
    reported in its slots. *)
Definition classified (ne : bool) (e : event) : bool :=
  match e with
  | ev_wait _ _ ret err =>
      Bool.eqb ((ret =? 0) || ((ret <? 0) && ((err =? EAGAIN) || (err =? EINTR)))) ne
  | ev_after _ sl => if ne then all_revents_zero sl else true
  | _ => true
  end.

(** The events of the first loop: no after-hook, no system call. *)
Definition before_phase_event (e : event) : bool :=
  match e with
  | ev_after _ _ | ev_wait _ _ _ _ => false
  | _ => true
  end.

(** The events of the rewind and of the reaper: no before-hook, no
    system call. *)
Definition rewind_phase_event (e : event) : bool :=
  match e with
  | ev_before _ _ | ev_wait _ _ _ _ => false
  | _ => true
  end.

(** An environment in which the first system call reports [POLLIN] on
    two descriptors and every later one is interrupted ([EINTR]) and
    stores nothing; client hooks do nothing. *)
Definition interrupted_env : Env :=
  mk_env false false None pollfd_zero 0 8%nat
    (fun _ => 0)
    (fun tr _ _ => if existsb is_wait tr
                   then mk_wait (-1) EINTR []
                   else mk_wait 2 0 [POLLIN; POLLIN])
    (fun f => f) (fun _ _ => 0) (fun q => q) (fun _ _ => 0)
    (fun _ _ _ => ([], 0)) (fun _ _ _ => []).

(** Two items of one slot each, waiting for descriptors 3 and 4 to become
    readable; the second-created one (address 1) has an after-hook, the
    first-created one (address 0) has none.  One cycle has run, in which
    both descriptors were reported ready. *)
Definition after_first_cycle (E : Env) : outcome world :=
  exec_ops E [op_install; op_call (call_item_new 1); op_call (call_item_new 1);
              op_call (call_store_pollfd 0 0 (mk_pollfd 3 POLLIN 0));
              op_call (call_store_pollfd 1 0 (mk_pollfd 4 POLLIN 0));
              op_call (call_item_set_after_callback 1 (Some (cb_client_after 0)));
              op_run 0]
           (initial_world E).

(** ** The order of dispatch *)

(** A hook call or the system call, without what it carried. *)
Inductive dispatch : Type :=
| d_before (a : nat)
| d_after (a : nat)
| d_wait.

Definition dispatch_of (e : event) : list dispatch :=
  match e with
  | ev_before a _ => [d_before a]
  | ev_after a _ => [d_after a]
  | ev_wait _ _ _ _ => [d_wait]
  | _ => []
  end.

Definition dispatches (d : list event) : list dispatch := flat_map dispatch_of d.

(** What the dispatch loops read of an item. *)
Definition view_of (i : pa_rtpoll_item)
  : nat * bool * option before_callback * option after_callback :=
  (addr i, dead i, before_cb i, after_cb i).

Definition view (w : world) := map view_of (items (rtpoll w)).

Definition is_some {A : Type} (o : option A) : bool :=
  match o with
  | Some _ => true
  | None => false
  end.

(** The addresses of the live items of [l] that have a before-hook, and
    of those that have an after-hook, in the order of [l]. *)
Definition hooked_before (l : list pa_rtpoll_item) : list nat :=
  map addr (filter (fun i => negb (dead i) && is_some (before_cb i)) l).

Definition hooked_after (l : list pa_rtpoll_item) : list nat :=
  map addr (filter (fun i => negb (dead i) && is_some (after_cb i)) l).

(** The calls that leave the item list, the [dead] flags and the hooks
    as they are. *)
Definition quiet_call (c : api_call) : bool :=
  match c with
  | call_item_get_pollfd _ | call_store_pollfd _ _ _ | call_item_set_userdata _ _
  | call_set_timer_absolute _ | call_set_timer_periodic _
  | call_set_timer_relative _ | call_set_timer_disabled => true
  | _ => false
  end.

(** The client's hooks make quiet calls only. *)
Definition quiet_hooks (E : Env) : Prop :=
  forall k a w,
    forallb quiet_call (fst (client_before_hook E k a w)) = true
    /\ forallb quiet_call (client_after_hook E k a w) = true.

(** [prev_from] reads the addresses only. *)
Fixpoint prev_addr (before : option nat) (a : nat) (l : list nat) : option nat :=
  match l with
  | [] => None
  | x :: rest => if Nat.eqb x a then before else prev_addr (Some x) a rest
  end.

(** The outcome is not the cut-off of the model. *)
Definition fuel_ok {A : Type} (o : outcome A) : Prop := o <> Fault out_of_fuel.

(** Three items created one after the other (addresses 0, 1, 2, so the
    list is 2, 1, 0), each with the client's before-hook 0 and
    after-hook 0, on an installed poll set. *)
Definition three_hooked_items (E : Env) : outcome world :=
  exec_ops E
    [op_install;
     op_call (call_item_new 1); op_call (call_item_new 1); op_call (call_item_new 1);
     op_call (call_item_set_before_callback 0 (Some (cb_client_before 0)));
     op_call (call_item_set_before_callback 1 (Some (cb_client_before 0)));
     op_call (call_item_set_before_callback 2 (Some (cb_client_before 0)));
     op_call (call_item_set_after_callback 0 (Some (cb_client_after 0)));
     op_call (call_item_set_after_callback 1 (Some (cb_client_after 0)));
     op_call (call_item_set_after_callback 2 (Some (cb_client_after 0)))]
    (initial_world E).

(** As [quiet_env], with a before-hook that refuses on the item at
    address 1 and accepts on every other item. *)
Definition refusing_env : Env :=
  mk_env false false None pollfd_zero 0 8%nat
    (fun _ => 0) (fun _ _ _ => mk_wait 0 0 [])
    (fun f => f) (fun _ _ => 0) (fun q => q) (fun _ _ => 0)
    (fun _ a _ => ([], if Nat.eqb a 1 then -1 else 0)) (fun _ _ _ => []).


(** A before-hook on the item at address 1 that frees the item at
    address 2, and one on the item at address 0 that refuses. *)
Definition freeing_env : Env :=
  mk_env false false None pollfd_zero 0 8%nat
    (fun _ => 0) (fun _ _ _ => mk_wait 0 0 [])
    (fun f => f) (fun _ _ => 0) (fun q => q) (fun _ _ => 0)
    (fun _ a _ => if Nat.eqb a 1 then ([call_item_free 2], 0)
                  else ([], if Nat.eqb a 0 then -1 else 0))
    (fun _ _ _ => []).

(** A fresh poll set with one item of two slots, laid out by a first
    call of [pa_rtpoll_item_get_pollfd]. *)
Definition one_item_laid_out (E : Env) : outcome world :=
  exec_ops E [op_call (call_item_new 2); op_call (call_item_get_pollfd 0)]
           (initial_world E).

(** ** A call of [pa_rtpoll_item_free] from a hook *)










(** ** Definitions for the further properties *)

(** What [rtpoll_rebuild] puts into the slots of an item, read from the
    array [active]: the slots its pointer designated ([memcpy]), or
    zeros for an item that had no pointer yet ([memset]). *)
Definition copied (active : list struct_pollfd) (i : pa_rtpoll_item) : list struct_pollfd :=
  match item_pollfd i with
  | Some off => firstn (Z.to_nat (n_pollfd i)) (skipn (Z.to_nat off) active)
  | None => repeat pollfd_zero (Z.to_nat (n_pollfd i))
  end.

(** Unless a rebuild is pending, the pointers of the items are those the
    last rebuild handed out. *)
Definition packed (w : world) : Prop :=
  rebuild_needed (rtpoll w) = false ->
  map item_pollfd (items (rtpoll w)) = layout 0 (items (rtpoll w)).

(** The slots of the item at address [a] as [pa_rtpoll_item_get_pollfd]
    hands them out: what its pointer designates, or zeros before its
    first layout. *)
Definition slots_of (w : world) (a : nat) : option (list struct_pollfd) :=
  match find_item a (items (rtpoll w)) with
  | Some i => Some (copied (pollfd (rtpoll w)) i)
  | None => None
  end.


(** A version [major.minor.micro] is older than another one. *)
Definition version_lt (v u : Z * Z * Z) : Prop :=
  let '(a, b, c) := v in
  let '(x, y, z) := u in
  a < x \/ (a = x /\ (b < y \/ (b = y /\ c < z))).

(** The client's hooks make only calls that [allowed] accepts. *)
Definition hooks_within (allowed : api_call -> bool) (E : Env) : Prop :=
  forall k a w,
    forallb allowed (fst (client_before_hook E k a w)) = true
    /\ forallb allowed (client_after_hook E k a w) = true.

(** The calls that arm or disarm the timer. *)
Definition timer_call (c : api_call) : bool :=
  match c with
  | call_set_timer_absolute _ | call_set_timer_periodic _
  | call_set_timer_relative _ | call_set_timer_disabled => true
  | _ => false
  end.

Definition no_timer_call (c : api_call) : bool := negb (timer_call c).

(** The three fields of the timer. *)
Definition timer_of (w : world) : bool * Z * Z :=
  (timer_enabled (rtpoll w), next_elapse (rtpoll w), period (rtpoll w)).

(** The build on which a poll set that avoids [ppoll] makes no system
    call at all. *)
Definition skips_wait (E : Env) (w : world) : bool :=
  HAVE_PPOLL E && linux E && dont_use_ppoll (rtpoll w).

(** The client's hooks make no call of the interface. *)
Definition silent_hooks (E : Env) : Prop := hooks_within (fun _ => false) E.

(** The after-hook of the item, if any, is a hook of the client. *)
Definition client_after (i : pa_rtpoll_item) : bool :=
  match after_cb i with
  | Some cb_fdsem_after | Some cb_asyncmsgq_after => false
  | _ => true
  end.

(** What a hook that makes no call, the system call and the clearing of
    [revents] leave alone: all of the state but the content of the
    active array, the timer, [errno] and the events. *)
Definition shape (w : world) :=
  (items (rtpoll w), length (pollfd (rtpoll w)), pollfd2 (rtpoll w),
   n_pollfd_alloc (rtpoll w), n_pollfd_used (rtpoll w),
   scan_for_dead (rtpoll w), running (rtpoll w), installed (rtpoll w),
   rebuild_needed (rtpoll w), flist w, heap_next w).

(** ** Scenarios for the further properties *)

(** An item of two slots, laid out, whose second slot waits for
    descriptor 5; then a second item of one slot, not yet laid out. *)
Definition two_items_one_stored (E : Env) : outcome world :=
  exec_ops E [op_call (call_item_new 2);
              op_call (call_store_pollfd 0 1 (mk_pollfd 5 POLLIN 0));
              op_call (call_item_new 1)]
           (initial_world E).

(** A Linux build with [ppoll] on kernel 2.6.15; nothing ever ready,
    hooks that do nothing. *)
Definition old_linux_env : Env :=
  mk_env true true (Some (2, 6, 15)) pollfd_zero 0 8%nat
    (fun _ => 0) (fun _ _ _ => mk_wait 0 0 [])
    (fun f => f) (fun _ _ => 0) (fun q => q) (fun _ _ => 0)
    (fun _ _ _ => ([], 0)) (fun _ _ _ => []).

(** An installed poll set without items whose timer is set to the
    absolute deadline [ts]. *)
Definition armed_absolute (E : Env) (ts : Z) : outcome world :=
  exec_ops E [op_install; op_call (call_set_timer_absolute ts)] (initial_world E).

(** The operations [ops] made after those that gave [o]. *)
Definition and_then (E : Env) (o : outcome world) (ops : list op) : outcome world :=
  w <- o ;; exec_ops E ops w.

(** The slots that an operation asks for when it creates an item. *)
Definition slots_asked (o : op) : Z :=
  match o with
  | op_call (call_item_new n) => Z.max 0 n
  | op_call (call_item_new_fdsem _) | op_call (call_item_new_asyncmsgq _) => 1
  | _ => 0
  end.

Definition total_asked (ops : list op) : Z := fold_right Z.add 0 (map slots_asked ops).

(** Sound bookkeeping between two cycles. *)
Definition sound (w : world) : Prop := idle w /\ layout_ok w /\ packed w.



(** An installed poll set with two items of one slot each, waiting for
    descriptors 3 and 4 to become readable, both with the client's
    after-hook 0. *)
Definition two_watched_descriptors (E : Env) : outcome world :=
  exec_ops E [op_install; op_call (call_item_new 1); op_call (call_item_new 1);
              op_call (call_store_pollfd 0 0 (mk_pollfd 3 POLLIN 0));
              op_call (call_store_pollfd 1 0 (mk_pollfd 4 POLLIN 0));
              op_call (call_item_set_after_callback 0 (Some (cb_client_after 0)));
              op_call (call_item_set_after_callback 1 (Some (cb_client_after 0)))]
           (initial_world E).

(** The deadline that a call arms the timer with:
    [p->next_elapse = *ts] for the absolute one,
    [pa_rtclock_get(&p->next_elapse); pa_timespec_add(&p->next_elapse, usec)]
    for the periodic and the relative one; none for
    [pa_rtpoll_set_timer_disabled] and for the other calls. *)
Definition armed_deadline (E : Env) (c : api_call) (w : world) : option Z :=
  match c with
  | call_set_timer_absolute ts => Some ts
  | call_set_timer_periodic us | call_set_timer_relative us =>
      Some (pa_timespec_add (pa_rtclock_get E (trace w)) us)
  | _ => None
  end.

(** An installed poll set without items. *)
Definition installed_only (E : Env) : outcome world :=
  exec_ops E [op_install] (initial_world E).

(** * The stream-routing callbacks of module-appsurfer

    The first part of [src/modules/module-appsurfer.c] holds two hook
    callbacks that route a stream to the sink named after the process
    that plays it.  pulsecore is not part of the source: its calls
    ([pa_sink_input_move_to], [pa_sink_input_finish_move],
    [pa_module_load], [pa_xmalloc], [pa_log_info]) are recorded in the
    order in which they are made, and what they return is given by the
    environment.  A C string is the list of its characters before the
    terminating NUL. *)

From Stdlib Require String.

Module Appsurfer.
Import String.

(** Modelled from pulsecore, which is not part of the source: the states
    of the core and the results of a hook callback. *)
Inductive pa_core_state_t : Type :=
| PA_CORE_STARTUP
| PA_CORE_RUNNING
| PA_CORE_SHUTDOWN.

Inductive pa_hook_result_t : Type :=
| PA_HOOK_OK
| PA_HOOK_STOP
| PA_HOOK_CANCEL.

(** The fields of [pa_sink], [pa_core] and [pa_sink_input] that the
    callbacks read.  [sinks] lists [c->sinks] in the order in which
    [PA_IDXSET_FOREACH] visits it.  [process_id] is what
    [pa_proplist_gets(i->proplist, PA_PROP_APPLICATION_PROCESS_ID)]
    returns: the value of the property, [None] for NULL when the stream
    has none. *)
Record pa_sink : Type := mk_sink {
  sink_index : Z;
  name : string
}.

Record pa_core : Type := mk_core {
  state : pa_core_state_t;
  sinks : list pa_sink
}.

Record pa_sink_input : Type := mk_sink_input {
  index : Z;
  process_id : option string
}.

(** What a stream is asked to move to: a sink of the core, or the module
    that [pa_module_load] returned, which the first callback hands to
    [pa_sink_input_move_to] in the place of a sink. *)
Inductive move_target : Type :=
| target_sink (s : pa_sink)
| target_module (m : Z).

(** The calls of pulsecore, with what was handed over.  Of
    [pa_log_info] only the choice of message is kept: [true] for
    "Successfully moved", [false] for "Failed to move". *)
Inductive pulsecore_call : Type :=
| call_sink_input_move_to (i : pa_sink_input) (target : move_target)
| call_sink_input_finish_move (i : pa_sink_input) (target : pa_sink)
| call_xmalloc (size : Z)
| call_module_load (name : Z) (argument : string)
| call_log_info (moved : bool).

(** What the environment decides.  [multichar_constant] is the value of
    ['module-null-sink'], a character constant of more than one
    character, which the compiler chooses; the callback hands it to
    [pa_module_load] as the name of the module. *)
Record Pulsecore : Type := mk_pulsecore {
  multichar_constant : Z;
  pa_sink_input_move_to : list pulsecore_call -> pa_sink_input -> move_target -> Z;
  pa_sink_input_finish_move : list pulsecore_call -> pa_sink_input -> pa_sink -> Z;
  pa_module_load : list pulsecore_call -> Z -> string -> option Z
}.

(** How a callback ends: with a [return] statement, or by reaching the
    closing brace, which leaves the value that the caller reads
    undetermined. *)
Inductive ending : Type :=
| returns (r : pa_hook_result_t)
| falls_off_the_end.

Section Callbacks.
Variable P : Pulsecore.

(** [pa_streq(pid, target->name)], which is [strcmp] and reads through
    both pointers. *)
Definition pa_streq (pid : option string) (target_name : string) : outcome bool :=
  match pid with
  | Some p => Ok (String.eqb p target_name)
  | None => Fault invalid_pointer
  end.

(** [strlen(pid)]. *)
Definition strlen (pid : option string) : outcome Z :=
  match pid with
  | Some p => Ok (Z.of_nat (String.length p))
  | None => Fault invalid_pointer
  end.

(** [sprintf(module_name, "sink_name=%s", pid)] into a block of [size]
    bytes: the characters and the terminating NUL must fit. *)
Definition sprintf_sink_name (size : Z) (pid : string) : outcome string :=
  let s := String.append "sink_name=" pid in
  if Z.of_nat (String.length s) + 1 <=? size then Ok s else Fault invalid_pointer.

(** The move of the stream and the message about it, as both branches
    of the first callback make them. *)
Definition move_and_log (i : pa_sink_input) (target : move_target)
  (tr : list pulsecore_call) : list pulsecore_call :=
  let r := pa_sink_input_move_to P tr i target in
  let tr := tr ++ [call_sink_input_move_to i target] in
  if r <? 0 then tr ++ [call_log_info false] else tr ++ [call_log_info true].

(** The loop of [new_sink_input_callback]:
    [PA_IDXSET_FOREACH(target, c->sinks, idx)].  The result tells
    whether the loop ended the callback. *)
Fixpoint new_sink_input_loop (pid : option string) (i : pa_sink_input)
  (targets : list pa_sink) (tr : list pulsecore_call)
  : outcome (list pulsecore_call * bool) :=
  match targets with
  | [] => Ok (tr, false)
  | target :: rest =>
      eq <- pa_streq pid (name target) ;;
      if eq then Ok (move_and_log i (target_sink target) tr, true)
      else new_sink_input_loop pid i rest tr
  end.

(** [new_sink_input_callback], from the calls [tr] made so far. *)
Definition new_sink_input_callback (c : pa_core) (i : pa_sink_input)
  (tr : list pulsecore_call) : outcome (list pulsecore_call * pa_hook_result_t) :=
  match state c with
  | PA_CORE_SHUTDOWN => Ok (tr, PA_HOOK_OK)
  | _ =>
      let pid := process_id i in
      '(tr, done) <- new_sink_input_loop pid i (sinks c) tr ;;
      if (done : bool) then Ok (tr, PA_HOOK_OK)
      else
        len <- strlen pid ;;
        let size := len + 11 in
        let tr := tr ++ [call_xmalloc size] in
        module_name <- match pid with
                       | Some p => sprintf_sink_name size p
                       | None => Fault invalid_pointer
                       end ;;
        let null_sink := pa_module_load P tr (multichar_constant P) module_name in
        let tr := tr ++ [call_module_load (multichar_constant P) module_name] in
        match null_sink with
        | Some m => Ok (move_and_log i (target_module m) tr, PA_HOOK_OK)
        | None => Ok (tr, PA_HOOK_OK)
        end
  end.

(** The loop of [sink_input_move_fail_hook_callback]. *)
Fixpoint move_fail_loop (pid : option string) (i : pa_sink_input)
  (targets : list pa_sink) (tr : list pulsecore_call)
  : outcome (list pulsecore_call * ending) :=
  match targets with
  | [] => Ok (tr, falls_off_the_end)
  | target :: rest =>
      eq <- pa_streq pid (name target) ;;
      if eq then
        let r := pa_sink_input_finish_move P tr i target in
        let tr := tr ++ [call_sink_input_finish_move i target] in
        if r <? 0 then Ok (tr ++ [call_log_info false], returns PA_HOOK_OK)
        else Ok (tr ++ [call_log_info true], returns PA_HOOK_STOP)
      else move_fail_loop pid i rest tr
  end.

(** [sink_input_move_fail_hook_callback]. *)
Definition sink_input_move_fail_hook_callback (c : pa_core) (i : pa_sink_input)
  (tr : list pulsecore_call) : outcome (list pulsecore_call * ending) :=
  match state c with
  | PA_CORE_SHUTDOWN => Ok (tr, returns PA_HOOK_OK)
  | _ => move_fail_loop (process_id i) i (sinks c) tr
  end.

End Callbacks.

(** ** Scenarios *)

(** A core that runs, with the sinks "alsa", "4711" and a second
    "4711". *)
Definition three_sinks : pa_core :=
  mk_core PA_CORE_RUNNING [mk_sink 0 "alsa"%string; mk_sink 1 "4711"%string; mk_sink 2 "4711"%string].

(** Moves succeed, [pa_module_load] returns the module at address 7. *)
Definition willing : Pulsecore :=
  mk_pulsecore 0 (fun _ _ _ => 0) (fun _ _ _ => 0) (fun _ _ _ => Some 7).

(** The stream 5 of process 4711, of process 99, and one that does not
    say which process plays it. *)
Definition stream_of_4711 : pa_sink_input := mk_sink_input 5 (Some "4711"%string).
Definition stream_of_99 : pa_sink_input := mk_sink_input 5 (Some "99"%string).
Definition anonymous_stream : pa_sink_input := mk_sink_input 5 None.

End Appsurfer.

(** * Properties *)

(** ** Creation order (C9, C3) *)

Lemma pa_rtpoll_item_new_ok n w :
  0 < n ->
  exists w' a,
    pa_rtpoll_item_new n w = Ok (w', a)
    /\ items (rtpoll w') = mk_item a false None n None None 0 :: items (rtpoll w)
    /\ n_pollfd_used (rtpoll w') = u32 (n_pollfd_used (rtpoll w) + n)
    /\ rebuild_needed (rtpoll w') = true.
Proof.
  intros Hn. unfold pa_rtpoll_item_new.
  assert (Hb : (0 <? n) = true) by (apply Z.ltb_lt; exact Hn).
  rewrite Hb. cbn [pa_assert bind].
  destruct (flist w) as [|a rest]; cbn; eauto 10.
Qed.

(** C9: [pa_rtpoll_item_new] links the new record at the head of the item
    list, so after a run of creations the list holds the new items in
    front of the old ones, the most recently created first: their
    addresses and slot counts read in the reverse of creation order. *)
Theorem item_list_is_reverse_creation_order (ns : list Z) (w : world) :
  Forall (fun n => 0 < n) ns ->
  exists w' created fresh,
    create_items ns w = Ok (w', created)
    /\ items (rtpoll w') = fresh ++ items (rtpoll w)
    /\ map addr fresh = rev created
    /\ map n_pollfd fresh = rev ns.
Proof.
  intros H. revert w. induction H as [|n ns Hn _ IH]; intros w.
  - exists w, [], []. cbn. auto.
  - destruct (pa_rtpoll_item_new_ok n w Hn) as (w1 & a & Hnew & Hit & _).
    destruct (IH w1) as (w2 & created & fresh & Hc & Hi & Ha & Hs).
    exists w2, (a :: created), (fresh ++ [mk_item a false None n None None 0]).
    cbn [create_items]. rewrite Hnew. cbn [bind]. rewrite Hc. cbn [bind].
    rewrite Hi, Hit, <- app_assoc, !map_app, Ha, Hs. cbn. auto.
Qed.

Lemma item_list_is_reverse_creation_order_witness :
  exists w' created fresh,
    create_items [2; 1; 3] (initial_world quiet_env) = Ok (w', created)
    /\ items (rtpoll w') = fresh ++ items (rtpoll (initial_world quiet_env))
    /\ map addr fresh = rev created
    /\ map n_pollfd fresh = rev [2; 1; 3].
Proof.
  apply (item_list_is_reverse_creation_order [2; 1; 3] (initial_world quiet_env)).
  repeat constructor.
Defined.

(** C3, as stated, does not hold: after creating items of 2, 1 and 3
    slots in this order and rebuilding, the first-created item does not
    own the slots [0,2). *)
Lemma rebuild_2_1_3_not_in_creation_order :
  exists w a1 a2 a3,
    rebuild_2_1_3 quiet_env = Ok (w, [a1; a2; a3])
    /\ ~ (owns w a1 0 2 /\ owns w a2 2 3 /\ owns w a3 3 6).
Proof.
  eexists _, _, _, _. split; [vm_compute; reflexivity|].
  intros [(i & Hf & Hp & _) _]. vm_compute in Hf.
  injection Hf as <-. discriminate Hp.
Qed.

(** C3, amended: the rebuild lays the six slots out in the order of the
    item list, which is the reverse of creation order: the third-created
    item owns [0,3), the second-created [3,4), the first-created [4,6). *)
Theorem rebuild_2_1_3_layout (E : Env) :
  exists w a1 a2 a3,
    rebuild_2_1_3 E = Ok (w, [a1; a2; a3])
    /\ n_pollfd_used (rtpoll w) = 6
    /\ map addr (items (rtpoll w)) = [a3; a2; a1]
    /\ owns w a3 0 3 /\ owns w a2 3 4 /\ owns w a1 4 6.
Proof.
  destruct E.
  eexists _, 0%nat, 1%nat, 2%nat.
  split; [vm_compute; reflexivity|].
  unfold owns. vm_compute.
  repeat split; try reflexivity; eexists; (split; [reflexivity|split; reflexivity]).
Qed.

(** ** Marking an item dead inside a cycle (C10) *)

Lemma update_item_addr a f l :
  (forall i, addr (f i) = addr i) -> map addr (update_item a f l) = map addr l.
Proof.
  intros Hf. unfold update_item. rewrite map_map. apply map_ext.
  intros i. destruct (Nat.eqb (addr i) a); auto.
Qed.

Lemma update_item_set_dead_frame a l :
  Forall2 (fun old new =>
             addr new = addr old /\ item_pollfd new = item_pollfd old
             /\ n_pollfd new = n_pollfd old /\ before_cb new = before_cb old
             /\ after_cb new = after_cb old /\ userdata new = userdata old
             /\ (addr old <> a -> dead new = dead old))
          l (update_item a (set_dead true) l).
Proof.
  induction l as [|i l IH]; cbn; constructor; auto.
  destruct (Nat.eqb (addr i) a) eqn:Ha; cbn; repeat split; auto.
  intros Hne. apply Nat.eqb_eq in Ha. contradiction.
Qed.

(** C10: while a cycle runs, [pa_rtpoll_item_free] sets the item's [dead]
    flag and the poll set's [scan_for_dead] flag and nothing else: the
    list links, the used-slot count, [rebuild_needed], the two arrays and
    every other field of the poll set stay as they were, the free list
    is not touched, and every item keeps its slot pointer, slot count,
    hooks and user data. *)
Theorem item_free_while_running_frame
  (E : Env) (a : nat) (w : world) (i : pa_rtpoll_item) :
  running (rtpoll w) = true ->
  find_item a (items (rtpoll w)) = Some i ->
  exists w',
    pa_rtpoll_item_free E a w = Ok w'
    /\ scan_for_dead (rtpoll w') = true
    /\ (exists i', find_item a (items (rtpoll w')) = Some i' /\ dead i' = true)
    /\ map addr (items (rtpoll w')) = map addr (items (rtpoll w))
    /\ Forall2 (fun old new =>
                  addr new = addr old /\ item_pollfd new = item_pollfd old
                  /\ n_pollfd new = n_pollfd old /\ before_cb new = before_cb old
                  /\ after_cb new = after_cb old /\ userdata new = userdata old
                  /\ (addr old <> a -> dead new = dead old))
               (items (rtpoll w)) (items (rtpoll w'))
    /\ n_pollfd_used (rtpoll w') = n_pollfd_used (rtpoll w)
    /\ n_pollfd_alloc (rtpoll w') = n_pollfd_alloc (rtpoll w)
    /\ rebuild_needed (rtpoll w') = rebuild_needed (rtpoll w)
    /\ pollfd (rtpoll w') = pollfd (rtpoll w)
    /\ pollfd2 (rtpoll w') = pollfd2 (rtpoll w)
    /\ running (rtpoll w') = running (rtpoll w)
    /\ installed (rtpoll w') = installed (rtpoll w)
    /\ timer_enabled (rtpoll w') = timer_enabled (rtpoll w)
    /\ next_elapse (rtpoll w') = next_elapse (rtpoll w)
    /\ period (rtpoll w') = period (rtpoll w)
    /\ flist w' = flist w
    /\ heap_next w' = heap_next w
    /\ errno w' = errno w.
Proof.
  intros Hrun Hfind. unfold pa_rtpoll_item_free. cbn [log rtpoll].
  rewrite Hfind, Hrun. eexists. split; [reflexivity|]. cbn.
  split; [reflexivity|]. split.
  - clear Hrun. revert Hfind. induction (items (rtpoll w)) as [|j l IH]; cbn; [discriminate|].
    destruct (Nat.eqb (addr j) a) eqn:Ha.
    + intros _. cbn. rewrite Ha. eexists; split; reflexivity.
    + rewrite Ha. exact IH.
  - split; [apply update_item_addr; reflexivity|].
    split; [apply update_item_set_dead_frame|]. repeat split; auto.
Qed.

Lemma item_free_while_running_frame_witness :
  exists w', pa_rtpoll_item_free quiet_env 5
               (mk_world (set_running true
                            (set_items [mk_item 5 false None 2 None None 0]
                                       (pa_rtpoll_new quiet_env)))
                         [] 6 0 []) = Ok w'
             /\ scan_for_dead (rtpoll w') = true.
Proof.
  destruct (item_free_while_running_frame quiet_env 5
              (mk_world (set_running true
                           (set_items [mk_item 5 false None 2 None None 0]
                                      (pa_rtpoll_new quiet_env)))
                        [] 6 0 [])
              (mk_item 5 false None 2 None None 0) eq_refl eq_refl)
    as (w' & H1 & H2 & _).
  exists w'. split; assumption.
Defined.

(** ** The periodic deadline (C2) *)

(** Away from the boundary the deadline after the wait is the first
    [D + k * P], [k >= 1], strictly later than the clock reading at
    resume. *)
Lemma advance_timer_periodic (E : Env) (w : world) :
  let D := next_elapse (rtpoll w) in
  let P := period (rtpoll w) in
  let now := pa_rtclock_get E (trace w) in
  timer_enabled (rtpoll w) = true ->
  0 < P < 2 ^ 62 -> 0 <= D -> now < 2 ^ 62 ->
  now <> D + P ->
  exists k, 1 <= k
    /\ next_elapse (rtpoll (advance_timer E w)) = D + k * P
    /\ now < D + k * P
    /\ (forall j, 1 <= j -> now < D + j * P -> k <= j).
Proof.
  intros D P now Hen HP HD Hnow Hne. unfold advance_timer.
  fold D P now. rewrite Hen.
  assert (HPb : (0 <? P) = true) by (apply Z.ltb_lt; lia). rewrite HPb.
  unfold pa_timespec_add, pa_timespec_cmp, pa_timespec_diff.
  destruct (Z.compare_spec (D + P) now) as [Heq|Hlt|Hgt].
  - lia.
  - cbn [Z.ltb Z.compare rtpoll next_elapse set_rtpoll set_next_elapse].
    set (q := Z.abs (now - (D + P)) / P).
    assert (Habs : Z.abs (now - (D + P)) = now - (D + P)) by lia.
    assert (Hq : q * P <= now - (D + P) < (q + 1) * P).
    { unfold q. rewrite Habs.
      pose proof (Z.mul_div_le (now - (D + P)) P ltac:(lia)).
      pose proof (Z.mul_succ_div_gt (now - (D + P)) P ltac:(lia)).
      unfold Z.succ in *. lia. }
    assert (Hq0 : 0 <= q) by (unfold q; apply Z.div_pos; lia).
    assert (Hu1 : usec (q + 1) = q + 1).
    { unfold usec. apply Z.mod_small. split; [lia|].
      assert (q * P < 2 ^ 62) by lia.
      assert (q < 2 ^ 62) by nia. lia. }
    assert (Hu2 : usec ((q + 1) * P) = (q + 1) * P).
    { unfold usec. apply Z.mod_small. split; [nia|]. lia. }
    rewrite Hu1, Hu2.
    exists (q + 2). repeat split; try lia.
    intros j Hj Hjn. assert (q + 1 < j) by nia. lia.
  - cbn [Z.ltb Z.compare rtpoll next_elapse set_rtpoll set_next_elapse].
    exists 1. repeat split; try lia.
Qed.

(** Arming at [T0] with an even period [P] and resuming at [T0 + 7.5 P]
    gives the deadline [T0 + 8 P]. *)
Lemma advance_timer_seven_and_a_half (E : Env) (w : world) (T0 h : Z) :
  timer_enabled (rtpoll w) = true ->
  period (rtpoll w) = 2 * h -> next_elapse (rtpoll w) = T0 + 2 * h ->
  pa_rtclock_get E (trace w) = T0 + 15 * h ->
  0 < h < 2 ^ 58 -> 0 <= T0 < 2 ^ 58 ->
  next_elapse (rtpoll (advance_timer E w)) = T0 + 8 * (2 * h).
Proof.
  intros Hen HP HD Hnow Hh HT.
  destruct (advance_timer_periodic E w Hen) as (k & Hk & Hne & Hlt & Hmin);
    rewrite ?HP, ?HD, ?Hnow in *; try lia.
  rewrite Hne.
  assert (k <= 7) by (apply Hmin; lia).
  assert (7 <= k) by nia.
  replace k with 7 by lia. lia.
Qed.

(** C2, at the boundary: a periodic timer of period 5 armed at time 5 has
    its first deadline at 10; when the cycle resumes at time 15, the
    deadline becomes 15, which is the resume time itself and not later
    than it. *)
Theorem periodic_deadline_equals_resume_time :
  exists w' r,
    arm_periodic_and_run (two_reading_clock_env 5 15) 5 = Ok (w', r)
    /\ pa_rtclock_get (two_reading_clock_env 5 15) (trace w') = 15
    /\ next_elapse (rtpoll w') = 15.
Proof.
  eexists _, _. split; [vm_compute; reflexivity|]. split; reflexivity.
Qed.

(** ** The return value and [errno] (C4) *)

(** C4, on a Linux build with [ppoll]: the system call fails with -1 and
    [errno] 9; the cycle returns -1, and [errno] is what the unassigned
    [saved_errno] held, here 0. *)
Theorem run_loses_errno_with_ppoll :
  exists w',
    install_and_run (failing_ppoll_env (-1) 9 0) = Ok (w', -1)
    /\ In (ev_wait [] None (-1) 9) (trace w')
    /\ errno w' = 0.
Proof.
  eexists. split; [vm_compute; reflexivity|]. split; [left|]; reflexivity.
Qed.

(** ** What the primitives keep *)

(** Reduce the field selections of updated records, and nothing else. *)
Ltac fields :=
  cbn [pollfd pollfd2 n_pollfd_alloc n_pollfd_used timer_enabled next_elapse period
       scan_for_dead running installed rebuild_needed rtsig dont_use_ppoll items
       set_pollfd set_pollfd2 set_n_pollfd_alloc set_n_pollfd_used set_timer_enabled
       set_next_elapse set_period set_scan_for_dead set_running set_installed
       set_rebuild_needed set_items
       rtpoll flist heap_next errno trace set_rtpoll set_flist set_heap_next set_errno log
       addr dead item_pollfd n_pollfd before_cb after_cb userdata
       set_dead set_item_pollfd set_before_cb set_after_cb set_userdata].

Tactic Notation "fields" "in" hyp(H) :=
  cbn [pollfd pollfd2 n_pollfd_alloc n_pollfd_used timer_enabled next_elapse period
       scan_for_dead running installed rebuild_needed rtsig dont_use_ppoll items
       set_pollfd set_pollfd2 set_n_pollfd_alloc set_n_pollfd_used set_timer_enabled
       set_next_elapse set_period set_scan_for_dead set_running set_installed
       set_rebuild_needed set_items
       rtpoll flist heap_next errno trace set_rtpoll set_flist set_heap_next set_errno log
       addr dead item_pollfd n_pollfd before_cb after_cb userdata
       set_dead set_item_pollfd set_before_cb set_after_cb set_userdata] in H.

Ltac splits := repeat match goal with |- _ /\ _ => split end.

Ltac inv_bind H :=
  match type of H with
  | bind ?m _ = Ok _ =>
      let Hm := fresh "Hm" in
      destruct m eqn:Hm; cbn [bind] in H; [|discriminate H]
  end.

Tactic Notation "inv_bind_as" hyp(H) simple_intropattern(p) :=
  match type of H with
  | bind ?m _ = Ok _ =>
      let Hm := fresh "Hm" in
      destruct m as [p|] eqn:Hm; cbn [bind] in H; [|discriminate H]
  end.

Lemma pa_assert_ok b u : pa_assert b = Ok u -> b = true.
Proof. destruct b; [reflexivity|discriminate]. Qed.

Lemma rebuild_items_skel active l e scratch l' e' scratch' :
  rebuild_items active l e scratch = Ok (l', e', scratch') ->
  map skel l' = map skel l.
Proof.
  revert e scratch l' e' scratch'.
  induction l as [|i l IH]; intros e scratch l' e' scratch' H; cbn in H.
  - injection H as <- _ _. reflexivity.
  - inv_bind H. destruct a as [i1 s1].
    inv_bind H. destruct a as [[l1 e1] s2].
    injection H as <- _ _. cbn. f_equal; [|eauto].
    destruct (0 <? n_pollfd i).
    + inv_bind Hm. inv_bind Hm. injection Hm as <- _. reflexivity.
    + injection Hm as <- _. reflexivity.
Qed.

Lemma skel_addr l l' : map skel l' = map skel l -> map addr l' = map addr l.
Proof.
  intros H.
  assert (forall l0, map addr l0 = map (fun s => fst (fst (fst (fst (fst s))))) (map skel l0)) as Hx
      by (intros; rewrite map_map; reflexivity).
  rewrite (Hx l), (Hx l'), H. reflexivity.
Qed.

Lemma skel_slot_sum l l' : map skel l' = map skel l -> slot_sum l' = slot_sum l.
Proof.
  intros H. unfold slot_sum.
  assert (forall l0, map n_pollfd l0 = map (fun s => snd (fst (fst (fst s)))) (map skel l0)) as Hx
      by (intros; rewrite map_map; reflexivity).
  rewrite (Hx l), (Hx l'), H. reflexivity.
Qed.

Lemma skel_dead_addrs l l' :
  map skel l' = map skel l -> map addr (filter dead l') = map addr (filter dead l).
Proof.
  revert l'. induction l as [|i l IH]; intros [|i' l'] H; try discriminate; [reflexivity|].
  cbn in H. injection H as Ha Hd Hn Hb Hc Hu Hl. cbn. rewrite Hd.
  destruct (dead i); cbn; rewrite ?Ha, (IH l' Hl); reflexivity.
Qed.

Lemma rtpoll_rebuild_keeps E p p' :
  rtpoll_rebuild E p = Ok p' ->
  map skel (items p') = map skel (items p)
  /\ running p' = running p /\ scan_for_dead p' = scan_for_dead p
  /\ n_pollfd_used p' = n_pollfd_used p /\ installed p' = installed p
  /\ timer_enabled p' = timer_enabled p /\ next_elapse p' = next_elapse p
  /\ period p' = period p /\ dont_use_ppoll p' = dont_use_ppoll p
  /\ rebuild_needed p' = false.
Proof.
  unfold rtpoll_rebuild. intros H.
  inv_bind H. destruct a as [[l e] scratch]. inv_bind H.
  apply rebuild_items_skel in Hm.
  destruct (n_pollfd_alloc (set_rebuild_needed false p) <? n_pollfd_used (set_rebuild_needed false p));
    injection H as <-; cbn in *; repeat split; auto.
Qed.

Lemma u32_add_l x n : u32 (u32 x + n) = u32 (x + n).
Proof. unfold u32. apply Zplus_mod_idemp_l. Qed.

Lemma u32_sub_l x n : u32 (u32 x - n) = u32 (x - n).
Proof. unfold u32. apply Zminus_mod_idemp_l. Qed.

Lemma sound_item_new w n w' a :
  wf_addr w -> count_ok w -> pa_rtpoll_item_new n w = Ok (w', a) ->
  wf_addr w' /\ count_ok w'
  /\ items (rtpoll w') = mk_item a false None n None None 0 :: items (rtpoll w)
  /\ trace w' = trace w /\ running (rtpoll w') = running (rtpoll w)
  /\ scan_for_dead (rtpoll w') = scan_for_dead (rtpoll w).
Proof.
  intros (Hnd & Hlt) Hcnt H.
  unfold pa_rtpoll_item_new in H. inv_bind H.
  assert (Hcount : forall p0, n_pollfd_used p0 = u32 (slot_sum (items p0)) ->
            u32 (n_pollfd_used p0 + n)
            = u32 (slot_sum (mk_item a false None n None None 0 :: items p0))).
  { intros p0 Hp0. rewrite Hp0, u32_add_l. unfold slot_sum. cbn. f_equal. lia. }
  unfold wf_addr, addrs in *.
  destruct (flist w) as [|b rest] eqn:Hfl; injection H as <- <-.
  - split; [|split].
    + cbn. rewrite ?Hfl. rewrite app_nil_r in *. split.
      * constructor; [|exact Hnd]. intros Hin.
        rewrite Forall_forall in Hlt. specialize (Hlt _ Hin). lia.
      * constructor; [lia|]. eapply Forall_impl; [|exact Hlt]. cbn. intros; lia.
    + unfold count_ok. cbn. apply Hcount. exact Hcnt.
    + cbn. auto.
  - split; [|split].
    + cbn. split.
      * eapply Permutation_NoDup; [|exact Hnd].
        apply Permutation_sym, Permutation_middle.
      * eapply Permutation_Forall; [|exact Hlt].
        apply Permutation_sym, Permutation_middle.
    + unfold count_ok. cbn. apply Hcount. exact Hcnt.
    + cbn. auto.
Qed.

Lemma in_cycle_step w0 w w' d :
  in_cycle w0 w ->
  running (rtpoll w') = running (rtpoll w) ->
  addrs w' = addrs w -> flist w' = flist w -> heap_next w' = heap_next w ->
  n_pollfd_used (rtpoll w') = n_pollfd_used (rtpoll w) ->
  slot_sum (items (rtpoll w')) = slot_sum (items (rtpoll w)) ->
  (scan_for_dead (rtpoll w) = true -> scan_for_dead (rtpoll w') = true) ->
  incl (dead_addrs w) (dead_addrs w') ->
  (scan_for_dead (rtpoll w') = true \/ dead_addrs w' = dead_addrs w) ->
  trace w' = trace w ++ d ->
  Forall (fun e => is_reclaim e = false) d ->
  (forall a, In (ev_item_free a) d -> marked a w') ->
  in_cycle w0 w'.
Proof.
  intros (Hrun & (Hnd & Hlt) & Hcnt & Hsd & d0 & Htr & Hnr & Hmk)
         Hr Ha Hf Hh Hu Hs Hsc Hd Hd' Ht Hd1 Hd2.
  split; [congruence|]. split.
  { unfold wf_addr. rewrite Ha, Hf, Hh. auto. }
  split.
  { unfold count_ok. rewrite Hu, Hs. exact Hcnt. }
  split.
  { intros Hfalse. destruct Hd' as [Hd'|Hd']; [congruence|]. rewrite Hd'. apply Hsd.
    destruct (scan_for_dead (rtpoll w)); [|reflexivity].
    rewrite Hsc in Hfalse; [discriminate|reflexivity]. }
  exists (d0 ++ d). split; [rewrite Ht, Htr, app_assoc; reflexivity|].
  split; [apply Forall_app; auto|].
  intros a Hin. apply in_app_or in Hin. destruct Hin as [Hin|Hin]; [|auto].
  destruct (Hmk a Hin) as [H1 H2]. split; auto.
Qed.

Ltac same_step :=
  cbn;
  first [ reflexivity
        | solve [intros x Hx; exact Hx]
        | solve [right; reflexivity]
        | solve [rewrite app_nil_r; reflexivity]
        | solve [constructor]
        | solve [intros ? []]
        | solve [auto] ].

Lemma in_cycle_log w0 w e :
  in_cycle w0 w -> is_reclaim e = false ->
  (forall a, e <> ev_item_free a) ->
  in_cycle w0 (log e w).
Proof.
  intros H He Hne. apply (in_cycle_step w0 w (log e w) [e]); auto; try same_step.
  intros a [Hin|[]]. destruct (Hne a Hin).
Qed.

Lemma in_cycle_item_new w0 w n w' a :
  in_cycle w0 w -> pa_rtpoll_item_new n w = Ok (w', a) -> in_cycle w0 w'.
Proof.
  intros (Hrun & Hwf & Hcnt & Hsd & d0 & Htr & Hnr & Hmk) H.
  destruct (sound_item_new _ _ _ _ Hwf Hcnt H) as (Hwf' & Hcnt' & Hit & Ht & Hr & Hs).
  assert (Hda : dead_addrs w' = dead_addrs w) by (unfold dead_addrs; rewrite Hit; reflexivity).
  split; [congruence|]. split; [exact Hwf'|]. split; [exact Hcnt'|]. split.
  { rewrite Hs, Hda. exact Hsd. }
  exists d0. split; [congruence|]. split; [exact Hnr|].
  intros x Hx. destruct (Hmk x Hx) as [H1 H2]. split; [congruence|].
  rewrite Hda. exact H2.
Qed.

Lemma update_item_slot_sum a f l :
  (forall i, n_pollfd (f i) = n_pollfd i) -> slot_sum (update_item a f l) = slot_sum l.
Proof.
  intros Hf. unfold slot_sum, update_item. rewrite map_map. f_equal.
  apply map_ext. intros i. destruct (Nat.eqb (addr i) a); auto.
Qed.

Lemma update_item_dead_addrs a f l :
  (forall i, addr (f i) = addr i) -> (forall i, dead i = true -> dead (f i) = true) ->
  incl (map addr (filter dead l)) (map addr (filter dead (update_item a f l))).
Proof.
  intros Ha Hd. induction l as [|i l IH]; cbn; [intros x Hx; exact Hx|].
  destruct (dead i) eqn:Hi.
  - assert (Hi' : dead (if Nat.eqb (addr i) a then f i else i) = true)
      by (destruct (Nat.eqb (addr i) a); auto).
    rewrite Hi'. cbn. intros x [Hx|Hx].
    + left. rewrite <- Hx. destruct (Nat.eqb (addr i) a); auto.
    + right. apply IH. exact Hx.
  - intros x Hx. apply IH in Hx.
    destruct (dead (if Nat.eqb (addr i) a then f i else i)); [right|]; exact Hx.
Qed.

Lemma update_item_dead_addrs_eq a f l :
  (forall i, addr (f i) = addr i) -> (forall i, dead (f i) = dead i) ->
  map addr (filter dead (update_item a f l)) = map addr (filter dead l).
Proof.
  intros Ha Hd. induction l as [|i l IH]; cbn; [reflexivity|].
  assert (Hi : dead (if Nat.eqb (addr i) a then f i else i) = dead i)
    by (destruct (Nat.eqb (addr i) a); auto).
  rewrite Hi. destruct (dead i); cbn; [|exact IH].
  f_equal; [|exact IH]. destruct (Nat.eqb (addr i) a); auto.
Qed.

Lemma update_item_marks a l i :
  find_item a l = Some i ->
  In a (map addr (filter dead (update_item a (set_dead true) l))).
Proof.
  induction l as [|j l IH]; cbn; [discriminate|].
  destruct (Nat.eqb (addr j) a) eqn:Hj.
  - intros _. cbn. left. apply Nat.eqb_eq. exact Hj.
  - intros H. specialize (IH H). destruct (dead j); [right|]; exact IH.
Qed.

Lemma in_cycle_item_free E w0 w a w' :
  in_cycle w0 w -> pa_rtpoll_item_free E a w = Ok w' -> in_cycle w0 w'.
Proof.
  intros Hc H. pose proof Hc as (Hrun & _).
  unfold pa_rtpoll_item_free in H. cbn [log rtpoll] in H.
  destruct (find_item a (items (rtpoll w))) as [i|] eqn:Hf; [|discriminate].
  rewrite Hrun in H. injection H as <-.
  apply (in_cycle_step w0 w _ [ev_item_free a]); auto; cbn.
  - unfold addrs. cbn. apply update_item_addr. reflexivity.
  - apply update_item_slot_sum. reflexivity.
  - unfold dead_addrs. cbn. apply update_item_dead_addrs; auto.
  - intros b [Hb|[]]. injection Hb as <-. split; [reflexivity|].
    unfold dead_addrs. cbn. eapply update_item_marks; eauto.
Qed.

Lemma in_cycle_rebuild E w0 w p :
  in_cycle w0 w -> rtpoll_rebuild E (rtpoll w) = Ok p -> in_cycle w0 (set_rtpoll p w).
Proof.
  intros Hc H. apply rtpoll_rebuild_keeps in H.
  destruct H as (Hsk & Hr & Hs & Hu & _).
  assert (Hda : dead_addrs (set_rtpoll p w) = dead_addrs w)
    by (unfold dead_addrs; cbn; apply skel_dead_addrs; exact Hsk).
  apply (in_cycle_step w0 w _ []); auto; try same_step.
  - unfold addrs. cbn. apply skel_addr. exact Hsk.
  - apply skel_slot_sum. exact Hsk.
  - cbn. congruence.
  - rewrite Hda. intros x Hx; exact Hx.
Qed.

Lemma in_cycle_get_pollfd E w0 w a w' ptr :
  in_cycle w0 w -> pa_rtpoll_item_get_pollfd E a w = Ok (w', ptr) -> in_cycle w0 w'.
Proof.
  intros Hc H. unfold pa_rtpoll_item_get_pollfd in H.
  destruct (find_item a (items (rtpoll w))); [|discriminate].
  inv_bind H. destruct (find_item a (items (rtpoll a0))); [|discriminate].
  injection H as <- _.
  destruct (rebuild_needed (rtpoll w)).
  - inv_bind Hm. injection Hm as <-. eapply in_cycle_rebuild; eauto.
  - injection Hm as <-. exact Hc.
Qed.

Lemma in_cycle_set_pollfd w0 w buf :
  in_cycle w0 w -> in_cycle w0 (set_rtpoll (set_pollfd buf (rtpoll w)) w).
Proof. intros Hc. apply (in_cycle_step w0 w _ []); auto; same_step. Qed.

Lemma in_cycle_store_through w0 w ptr j f w' :
  in_cycle w0 w -> store_through ptr j f w = Ok w' -> in_cycle w0 w'.
Proof.
  intros Hc H. unfold store_through in H. destruct ptr; [|discriminate].
  inv_bind H. inv_bind H. injection H as <-. apply in_cycle_set_pollfd. exact Hc.
Qed.

Lemma in_cycle_update_item w0 w a f w' :
  (forall i, addr (f i) = addr i) -> (forall i, dead (f i) = dead i) ->
  (forall i, n_pollfd (f i) = n_pollfd i) ->
  in_cycle w0 w -> update_item_checked a f w = Ok w' -> in_cycle w0 w'.
Proof.
  intros Ha Hd Hn Hc H. unfold update_item_checked in H.
  destruct (find_item a (items (rtpoll w))); [|discriminate]. injection H as <-.
  assert (Hda : dead_addrs (set_rtpoll (set_items (update_item a f (items (rtpoll w)))
                                          (rtpoll w)) w) = dead_addrs w)
    by (unfold dead_addrs; cbn; apply update_item_dead_addrs_eq; auto).
  apply (in_cycle_step w0 w _ []); auto; try same_step.
  - unfold addrs. cbn. apply update_item_addr. exact Ha.
  - apply update_item_slot_sum. exact Hn.
  - rewrite Hda. intros x Hx; exact Hx.
Qed.

Lemma in_cycle_update_timer E w0 w :
  in_cycle w0 w -> in_cycle w0 (update_timer E w).
Proof.
  intros Hc. unfold update_timer.
  destruct (HAVE_PPOLL E && negb (linux E && dont_use_ppoll (rtpoll w))); [|exact Hc].
  apply in_cycle_log; auto. intros a; discriminate.
Qed.

Lemma in_cycle_new_adapter_item E w0 w d b a h w' i :
  in_cycle w0 w -> new_adapter_item E d b a h w = Ok (w', i) -> in_cycle w0 w'.
Proof.
  intros Hc H. unfold new_adapter_item in H.
  inv_bind H. inv_bind H. destruct a1 as [w1 i1].
  inv_bind H. destruct a1 as [w2 ptr]. inv_bind H. inv_bind H.
  injection H as <- _.
  eapply in_cycle_update_item; [| | | |exact Hm3]; try reflexivity.
  eapply in_cycle_store_through; [|exact Hm2].
  eapply in_cycle_get_pollfd; [|exact Hm1].
  eapply in_cycle_item_new; [|exact Hm0]. exact Hc.
Qed.

Lemma in_cycle_exec_call E w0 c w w' :
  in_cycle w0 w -> exec_call E c w = Ok w' -> in_cycle w0 w'.
Proof.
  intros Hc H. destruct c; cbn [exec_call] in H.
  - inv_bind H. destruct a as [w1 a1]. injection H as <-.
    eapply in_cycle_item_new; eauto.
  - eapply in_cycle_item_free; eauto.
  - inv_bind H. destruct a0 as [w1 p1]. injection H as <-.
    eapply in_cycle_get_pollfd; eauto.
  - inv_bind H. destruct a0 as [w1 p1].
    eapply in_cycle_store_through; [|exact H]. eapply in_cycle_get_pollfd; eauto.
  - eapply in_cycle_update_item; [| | | |exact H]; auto.
  - eapply in_cycle_update_item; [| | | |exact H]; auto.
  - eapply in_cycle_update_item; [| | | |exact H]; auto.
  - inv_bind H. destruct a as [w1 a1]. injection H as <-.
    eapply in_cycle_new_adapter_item; eauto.
  - inv_bind H. destruct a as [w1 a1]. injection H as <-.
    eapply in_cycle_new_adapter_item; eauto.
  - injection H as <-. apply in_cycle_update_timer.
    apply (in_cycle_step w0 w _ []); auto; same_step.
  - injection H as <-. apply in_cycle_update_timer.
    apply (in_cycle_step w0 w _ []); auto; same_step.
  - injection H as <-. apply in_cycle_update_timer.
    apply (in_cycle_step w0 w _ []); auto; same_step.
  - injection H as <-. apply in_cycle_update_timer.
    apply (in_cycle_step w0 w _ []); auto; same_step.
Qed.

(** ** Invariants of the dispatch loops *)

Section LoopInvariant.

Variable E : Env.
Variable I : world -> Prop.

Hypothesis I_call : forall c w w', I w -> exec_call E c w = Ok w' -> I w'.
Hypothesis I_log_b : forall e w, is_before_event e = true -> I w -> I (log e w).
Hypothesis I_log_a : forall e w, is_after_event e = true -> I w -> I (log e w).
Hypothesis I_buf : forall buf w, I w -> I (set_rtpoll (set_pollfd buf (rtpoll w)) w).

Lemma exec_script_inv s w w' : I w -> exec_script E s w = Ok w' -> I w'.
Proof.
  revert w. induction s as [|c s IH]; intros w Hw H; cbn in H.
  - injection H as <-. exact Hw.
  - inv_bind H. eauto.
Qed.

Lemma invoke_before_inv cb i w w' ret :
  I w -> invoke_before E cb i w = Ok (w', ret) -> I w'.
Proof.
  intros Hw H. unfold invoke_before in H. inv_bind H. destruct a as [w1 r1].
  injection H as <- _. apply I_log_b; [reflexivity|].
  destruct cb; cbn in Hm.
  - injection Hm as <- _. apply I_log_b; [reflexivity|exact Hw].
  - injection Hm as <- _. apply I_log_b; [reflexivity|exact Hw].
  - destruct (client_before_hook E k (addr i) w) as [script r2].
    inv_bind Hm. injection Hm as <- _. eapply exec_script_inv; eauto.
Qed.

Lemma invoke_after_inv cb i w w' :
  I w -> invoke_after E cb i w = Ok w' -> I w'.
Proof.
  intros Hw H. unfold invoke_after in H.
  assert (Hw0 : I (log (ev_after (addr i) (item_slice (rtpoll w) i)) w))
    by (apply I_log_a; [reflexivity|exact Hw]).
  destruct cb.
  - unfold fdsem_after in H. inv_bind H. injection H as <-.
    apply I_log_a; [reflexivity|exact Hw0].
  - unfold asyncmsgq_after in H. inv_bind H. injection H as <-.
    apply I_log_a; [reflexivity|exact Hw0].
  - eapply exec_script_inv; eauto.
Qed.

Lemma before_loop_inv todo w w' refused :
  I w -> before_loop E todo w = Ok (w', refused) -> I w'.
Proof.
  revert w. induction todo as [|a todo IH]; intros w Hw H; cbn in H.
  - injection H as <- _. exact Hw.
  - destruct (find_item a (items (rtpoll w))) as [i|]; [|discriminate].
    destruct (dead i); [eauto|].
    destruct (before_cb i) as [cb|]; [|eauto].
    inv_bind H. destruct a0 as [w1 ret].
    apply invoke_before_inv in Hm; [|exact Hw].
    destruct (ret <? 0); [injection H as <- _; exact Hm|eauto].
Qed.

Lemma rewind_inv fuel cur w w' :
  I w -> rewind E fuel cur w = Ok w' -> I w'.
Proof.
  revert cur w. induction fuel as [|fuel IH]; intros cur w Hw H;
    destruct cur as [a|]; cbn in H; try discriminate;
    try (injection H as <-; exact Hw).
  destruct (find_item a (items (rtpoll w))) as [i|]; [|discriminate].
  destruct (dead i); [eauto|].
  destruct (after_cb i) as [cb|]; [|eauto].
  inv_bind H. apply invoke_after_inv in Hm; eauto.
Qed.

Lemma clear_item_revents_inv i w w' :
  I w -> clear_item_revents i w = Ok w' -> I w'.
Proof.
  intros Hw H. unfold clear_item_revents in H.
  destruct (n_pollfd i <=? 0); [injection H as <-; exact Hw|].
  destruct (item_pollfd i); [|discriminate].
  inv_bind H. inv_bind H. injection H as <-. apply I_buf. exact Hw.
Qed.

Lemma after_loop_inv ne todo w w' :
  I w -> after_loop E ne todo w = Ok w' -> I w'.
Proof.
  revert w. induction todo as [|a todo IH]; intros w Hw H; cbn in H.
  - injection H as <-. exact Hw.
  - destruct (find_item a (items (rtpoll w))) as [i|]; [|discriminate].
    destruct (dead i); [eauto|].
    destruct (after_cb i) as [cb|]; [|eauto].
    inv_bind H. inv_bind H.
    assert (Ha : I a0).
    { destruct ne; [eapply clear_item_revents_inv; eauto|injection Hm as <-; exact Hw]. }
    apply invoke_after_inv in Hm0; eauto.
Qed.

End LoopInvariant.

(** ** Destruction and the reaper *)

Lemma find_item_mid l1 i l2 :
  ~ In (addr i) (map addr l1) -> find_item (addr i) (l1 ++ i :: l2) = Some i.
Proof.
  induction l1 as [|j l1 IH]; cbn; intros H.
  - rewrite Nat.eqb_refl. reflexivity.
  - destruct (Nat.eqb (addr j) (addr i)) eqn:Hj.
    + apply Nat.eqb_eq in Hj. destruct H. left. exact Hj.
    + apply IH. intros Hin. apply H. right. exact Hin.
Qed.

Lemma llist_remove_mid l1 i l2 :
  ~ In (addr i) (map addr l1) -> llist_remove (addr i) (l1 ++ i :: l2) = l1 ++ l2.
Proof.
  induction l1 as [|j l1 IH]; cbn; intros H.
  - rewrite Nat.eqb_refl. reflexivity.
  - destruct (Nat.eqb (addr j) (addr i)) eqn:Hj.
    + apply Nat.eqb_eq in Hj. destruct H. left. exact Hj.
    + f_equal. apply IH. intros Hin. apply H. right. exact Hin.
Qed.

Lemma slot_sum_app l1 l2 : slot_sum (l1 ++ l2) = slot_sum l1 + slot_sum l2.
Proof.
  unfold slot_sum. induction l1 as [|i l1 IH]; cbn; [reflexivity|].
  cbn in IH. rewrite IH. lia.
Qed.

Lemma NoDup_app_not_in (l1 : list nat) a l2 : NoDup (l1 ++ a :: l2) -> ~ In a l1.
Proof.
  intros H Hin. apply NoDup_remove_2 in H. apply H. apply in_or_app. left. exact Hin.
Qed.

Lemma destroy_mid E w l1 i l2 :
  items (rtpoll w) = l1 ++ i :: l2 -> wf_addr w -> count_ok w ->
  exists w',
    rtpoll_item_destroy E (addr i) w = Ok w'
    /\ items (rtpoll w') = l1 ++ l2
    /\ wf_addr w' /\ count_ok w'
    /\ trace w' = trace w ++ [ev_reclaim (addr i)]
    /\ running (rtpoll w') = running (rtpoll w)
    /\ scan_for_dead (rtpoll w') = scan_for_dead (rtpoll w)
    /\ errno w' = errno w.
Proof.
  intros Hit (Hnd & Hlt) Hcnt. unfold wf_addr, addrs in *. rewrite Hit in Hnd, Hlt.
  rewrite map_app in Hnd, Hlt. cbn in Hnd, Hlt. rewrite <- app_assoc in Hnd, Hlt.
  cbn in Hnd, Hlt.
  assert (Hni : ~ In (addr i) (map addr l1)) by (eapply NoDup_app_not_in; eauto).
  unfold rtpoll_item_destroy. rewrite Hit, find_item_mid, llist_remove_mid by exact Hni.
  eexists. split; [reflexivity|]. cbn. split; [reflexivity|].
  assert (Hp : Permutation (map addr l1 ++ addr i :: map addr l2 ++ flist w)
                 (map addr (l1 ++ l2) ++ addr i :: flist w)).
  { rewrite map_app, <- app_assoc.
    apply Permutation_app_head. apply Permutation_middle. }
  split; [|split].
  - match goal with |- context [if ?c then _ else _] => destruct c end.
    + split; [eapply Permutation_NoDup|eapply Permutation_Forall]; eauto.
    + split.
      * rewrite map_app, <- app_assoc. eapply NoDup_remove_1; eauto.
      * rewrite map_app, <- app_assoc. rewrite Forall_app in *.
        destruct Hlt as [H1 H2]. split; [exact H1|]. inversion H2; auto.
  - unfold count_ok in *. cbn. rewrite Hcnt, Hit, u32_sub_l. f_equal.
    change (fold_right Z.add 0 (map n_pollfd (l1 ++ l2))) with (slot_sum (l1 ++ l2)).
    rewrite !slot_sum_app.
    change (slot_sum (i :: l2)) with (n_pollfd i + slot_sum l2). lia.
  - repeat split; reflexivity.
Qed.

Lemma filter_dead_live_nil l :
  map addr (filter dead l) = [] -> filter (fun i => negb (dead i)) l = l.
Proof.
  induction l as [|i l IH]; cbn; [reflexivity|].
  destruct (dead i); cbn; [discriminate|]. intros H. f_equal. auto.
Qed.

Lemma reap_loop_spec E l2 : forall l1 w,
  items (rtpoll w) = l1 ++ l2 -> wf_addr w -> count_ok w ->
  exists w',
    reap_loop E (map addr l2) w = Ok w'
    /\ items (rtpoll w') = l1 ++ filter (fun i => negb (dead i)) l2
    /\ wf_addr w' /\ count_ok w'
    /\ trace w' = trace w ++ map ev_reclaim (map addr (filter dead l2))
    /\ running (rtpoll w') = running (rtpoll w)
    /\ scan_for_dead (rtpoll w') = scan_for_dead (rtpoll w)
    /\ errno w' = errno w.
Proof.
  induction l2 as [|i l2 IH]; intros l1 w Hit Hwf Hcnt; cbn.
  - exists w. rewrite app_nil_r in Hit. splits; rewrite ?app_nil_r; auto.
  - assert (Hni : ~ In (addr i) (map addr l1)).
    { destruct Hwf as [Hnd _]. unfold addrs in Hnd. rewrite Hit, map_app in Hnd.
      cbn in Hnd. rewrite <- app_assoc in Hnd. eapply NoDup_app_not_in; eauto. }
    rewrite Hit, find_item_mid by exact Hni.
    destruct (dead i) eqn:Hd; cbn.
    + destruct (destroy_mid E w l1 i l2 Hit Hwf Hcnt)
        as (w1 & Hdes & Hit1 & Hwf1 & Hcnt1 & Htr1 & Hr1 & Hs1 & He1).
      rewrite Hdes. cbn [bind].
      destruct (IH l1 w1 Hit1 Hwf1 Hcnt1)
        as (w2 & Hre & Hit2 & Hwf2 & Hcnt2 & Htr2 & Hr2 & Hs2 & He2).
      exists w2. rewrite Htr2, Htr1, <- app_assoc. cbn.
      splits; auto; congruence.
    + destruct (IH (l1 ++ [i]) w) as (w2 & Hre & Hit2 & Hwf2 & Hcnt2 & Htr2 & Hr2 & Hs2 & He2);
        auto.
      { rewrite <- app_assoc. exact Hit. }
      exists w2. rewrite <- app_assoc in Hit2. splits; auto.
Qed.

Lemma live_not_reaped (l : list pa_rtpoll_item) a :
  NoDup (map addr l) -> In a (map addr (filter dead l)) ->
  ~ In a (map addr (filter (fun i => negb (dead i)) l)).
Proof.
  induction l as [|i l IH]; cbn; [intros _ []|].
  intros Hnd. inversion Hnd as [|x xs Hx Hnd']; subst.
  assert (Hsub : forall f b, In b (map addr (filter f l)) -> In b (map addr l)).
  { intros f b Hb. apply in_map_iff in Hb. destruct Hb as (j & <- & Hj).
    apply filter_In in Hj. apply in_map. tauto. }
  destruct (dead i); cbn.
  - intros [<-|Hin]; [intros Hc; apply Hx; eapply Hsub; eauto|auto].
  - intros Hin [<-|Hc]; [apply Hx; eapply Hsub; eauto|]. exact (IH Hnd' Hin Hc).
Qed.

Lemma finish_spec E w0 w r se :
  in_cycle w0 w ->
  exists w' d reaped,
    finish E r se w = Ok (w', r)
    /\ idle w' /\ errno w' = se
    /\ trace w = trace w0 ++ d
    /\ trace w' = trace w0 ++ d ++ map ev_reclaim reaped
    /\ Forall (fun e => is_reclaim e = false) d
    /\ (forall a, In (ev_item_free a) d -> In a reaped)
    /\ (forall a, In a reaped -> ~ In a (addrs w')).
Proof.
  intros (Hrun & Hwf & Hcnt & Hsd & d & Htr & Hnr & Hmk). unfold finish. cbn [rtpoll set_rtpoll].
  destruct (scan_for_dead (rtpoll w)) eqn:Hs; cbn [scan_for_dead set_running].
  - rewrite Hs.
    destruct (reap_loop_spec E (items (rtpoll w)) []
                (set_rtpoll (set_scan_for_dead false (set_running false (rtpoll w)))
                   (set_rtpoll (set_running false (rtpoll w)) w)))
      as (w1 & Hre & Hit & Hwf1 & Hcnt1 & Htr1 & Hr1 & Hs1 & He1); auto.
    change (items (set_scan_for_dead false (set_running false (rtpoll w))))
      with (items (rtpoll w)).
    rewrite Hre. cbn [bind]. cbn in Hit, Htr1, Hr1, Hs1.
    exists (set_errno se w1), d, (dead_addrs w).
    split; [reflexivity|]. split.
    { split; [exact Hr1|]. split; [exact Hwf1|]. split; [exact Hcnt1|].
      split; [exact Hs1|]. unfold dead_addrs. cbn. rewrite Hit.
      clear. induction (items (rtpoll w)) as [|i l IH]; cbn; [reflexivity|].
      destruct (dead i) eqn:Hd; cbn; rewrite ?Hd; exact IH. }
    split; [reflexivity|]. split; [exact Htr|]. split.
    { cbn. rewrite Htr1, Htr, <- app_assoc. reflexivity. }
    split; [exact Hnr|]. split.
    { intros a Ha. apply (Hmk a Ha). }
    intros a Ha. unfold addrs. cbn. rewrite Hit. apply live_not_reaped; [|exact Ha].
    destruct Hwf as [Hnd _]. apply NoDup_app_remove_r in Hnd. exact Hnd.
  - rewrite Hs. cbn [bind]. exists (set_errno se (set_rtpoll (set_running false (rtpoll w)) w)), d, [].
    split; [reflexivity|]. split.
    { split; [reflexivity|]. split; [exact Hwf|]. split; [exact Hcnt|].
      split; [exact Hs|]. apply Hsd. reflexivity. }
    split; [reflexivity|]. split; [exact Htr|]. split.
    { cbn. rewrite app_nil_r. exact Htr. }
    split; [exact Hnr|]. split.
    { intros a Ha. destruct (Hmk a Ha) as [Hc _]. congruence. }
    intros a [].
Qed.

(** ** One cycle *)

Lemma in_cycle_hook_log w0 e w :
  is_before_event e = true \/ is_after_event e = true ->
  in_cycle w0 w -> in_cycle w0 (log e w).
Proof.
  intros He Hc. apply in_cycle_log; [exact Hc| |].
  - destruct e; try reflexivity; destruct He; discriminate.
  - intros a ->. destruct He; discriminate.
Qed.

Lemma in_cycle_wait E w0 w b w' r :
  in_cycle w0 w -> wait_syscall E b w = (w', r) -> in_cycle w0 w'.
Proof.
  intros Hc H. unfold wait_syscall in H. injection H as <- _.
  apply in_cycle_log; [|reflexivity|intros a; discriminate].
  apply (in_cycle_step w0 w _ []); auto; same_step.
Qed.

Lemma in_cycle_sleep E w0 w w' r se :
  in_cycle w0 w -> sleep E w = (w', r, se) -> in_cycle w0 w'.
Proof.
  intros Hc H. unfold sleep in H.
  destruct (HAVE_PPOLL E); [destruct (linux E);
    [destruct (negb (dont_use_ppoll (rtpoll w)))|]|].
  - destruct (wait_syscall E true w) as [w1 r1] eqn:Hw. injection H as <- _ _.
    eapply in_cycle_wait; eauto.
  - injection H as <- _ _. exact Hc.
  - destruct (wait_syscall E true w) as [w1 r1] eqn:Hw. injection H as <- _ _.
    eapply in_cycle_wait; eauto.
  - destruct (wait_syscall E false w) as [w1 r1] eqn:Hw. injection H as <- _ _.
    eapply in_cycle_wait; eauto.
Qed.

Lemma in_cycle_advance_timer E w0 w :
  in_cycle w0 w -> in_cycle w0 (advance_timer E w).
Proof.
  intros Hc. unfold advance_timer.
  destruct (timer_enabled (rtpoll w)); [|exact Hc].
  destruct (0 <? period (rtpoll w));
    apply (in_cycle_step w0 w _ []); auto; same_step.
Qed.

Lemma idle_enters_cycle w :
  idle w -> in_cycle w (set_rtpoll (set_running true (rtpoll w)) w).
Proof.
  intros (Hr & Hwf & Hcnt & Hs & Hd).
  split; [reflexivity|]. split; [exact Hwf|]. split; [exact Hcnt|].
  split; [intros _; exact Hd|].
  exists []. cbn. rewrite app_nil_r. split; [reflexivity|].
  split; [constructor|intros a []].
Qed.

(** A cycle started between two cycles ends between two cycles; its
    events are a part [d] with no reclamation, made while the cycle was
    marked running, followed by the reclamations of the reaper. *)
Lemma run_cycle E fuel w w' r :
  idle w -> pa_rtpoll_run E fuel w = Ok (w', r) ->
  idle w'
  /\ exists d reaped,
       trace w' = trace w ++ d ++ map ev_reclaim reaped
       /\ Forall (fun e => is_reclaim e = false) d
       /\ (forall a, In (ev_item_free a) d -> In a reaped)
       /\ (forall a, In a reaped -> ~ In a (addrs w')).
Proof.
  intros Hidle H. unfold pa_rtpoll_run in H.
  inv_bind_as H u1. inv_bind_as H u2.
  apply idle_enters_cycle in Hidle.
  set (w1 := set_rtpoll (set_running true (rtpoll w)) w) in *.
  inv_bind_as H [w2 refused].
  assert (Hc2 : in_cycle w w2).
  { eapply (before_loop_inv E (in_cycle w)); eauto using in_cycle_exec_call,
      in_cycle_hook_log, in_cycle_set_pollfd. }
  assert (Hfin : forall w3 r3 se, in_cycle w w3 -> finish E r3 se w3 = Ok (w', r) ->
            idle w' /\ exists d reaped,
              trace w' = trace w ++ d ++ map ev_reclaim reaped
              /\ Forall (fun e => is_reclaim e = false) d
              /\ (forall a, In (ev_item_free a) d -> In a reaped)
              /\ (forall a, In a reaped -> ~ In a (addrs w'))).
  { intros w3 r3 se Hc3 Hf.
    destruct (finish_spec E w w3 r3 se Hc3)
      as (w4 & d & reaped & Hf' & Hi & _ & _ & Ht & Hnr & Hfr & Hre).
    rewrite Hf' in Hf. injection Hf as <- _. split; [exact Hi|]. eauto 10. }
  destruct refused as [a|].
  - inv_bind_as H w3. eapply Hfin; [|exact H].
    eapply (rewind_inv E (in_cycle w)); eauto using in_cycle_exec_call,
      in_cycle_hook_log, in_cycle_set_pollfd.
  - inv_bind_as H w3.
    assert (Hc3 : in_cycle w w3).
    { destruct (rebuild_needed (rtpoll w2)).
      - inv_bind_as Hm2 p3. injection Hm2 as <-. eapply in_cycle_rebuild; eauto.
      - injection Hm2 as <-. exact Hc2. }
    destruct (sleep E w3) as [[w4 r4] se] eqn:Hsl.
    apply (in_cycle_sleep E w) in Hsl; [|exact Hc3].
    inv_bind_as H w5. eapply Hfin; [|exact H].
    eapply (after_loop_inv E (in_cycle w)); [| | | |exact Hm3];
      eauto using in_cycle_exec_call, in_cycle_hook_log, in_cycle_set_pollfd,
        in_cycle_advance_timer.
Qed.

(** ** Between two cycles *)

Lemma idle_step w w' :
  idle w ->
  running (rtpoll w') = running (rtpoll w) ->
  addrs w' = addrs w -> flist w' = flist w -> heap_next w' = heap_next w ->
  n_pollfd_used (rtpoll w') = n_pollfd_used (rtpoll w) ->
  slot_sum (items (rtpoll w')) = slot_sum (items (rtpoll w)) ->
  scan_for_dead (rtpoll w') = scan_for_dead (rtpoll w) ->
  dead_addrs w' = dead_addrs w ->
  idle w'.
Proof.
  intros (Hrun & (Hnd & Hlt) & Hcnt & Hsc & Hda) Hr Ha Hf Hh Hu Hs Hsc' Hd.
  split; [congruence|]. split.
  { unfold wf_addr. rewrite Ha, Hf, Hh. auto. }
  split; [unfold count_ok; rewrite Hu, Hs; exact Hcnt|].
  split; congruence.
Qed.

Lemma idle_initial E : idle (initial_world E).
Proof.
  split; [reflexivity|]. split; [split; constructor|].
  split; [reflexivity|]. split; reflexivity.
Qed.

Lemma idle_log e w : idle w -> idle (log e w).
Proof. intros H. apply (idle_step w); auto. Qed.

Lemma idle_item_new w n w' a :
  idle w -> pa_rtpoll_item_new n w = Ok (w', a) -> idle w'.
Proof.
  intros (Hrun & Hwf & Hcnt & Hsc & Hda) H.
  destruct (sound_item_new _ _ _ _ Hwf Hcnt H) as (Hwf' & Hcnt' & Hit & Ht & Hr & Hs).
  split; [congruence|]. split; [exact Hwf'|]. split; [exact Hcnt'|].
  split; [congruence|]. unfold dead_addrs. rewrite Hit. exact Hda.
Qed.

Lemma find_item_split a l i :
  find_item a l = Some i ->
  exists l1 l2, l = l1 ++ i :: l2 /\ addr i = a.
Proof.
  induction l as [|j l IH]; cbn; [discriminate|].
  destruct (Nat.eqb (addr j) a) eqn:Hj.
  - intros H. injection H as <-. apply Nat.eqb_eq in Hj. exists [], l. auto.
  - intros H. destruct (IH H) as (l1 & l2 & -> & Ha). exists (j :: l1), l2. auto.
Qed.

Lemma dead_addrs_remove (l1 l2 : list pa_rtpoll_item) i :
  map addr (filter dead (l1 ++ i :: l2)) = [] -> map addr (filter dead (l1 ++ l2)) = [].
Proof.
  rewrite !filter_app, !map_app. cbn. intros H.
  apply app_eq_nil in H. destruct H as [H1 H2]. rewrite H1. cbn.
  destruct (dead i); [discriminate|exact H2].
Qed.

Lemma idle_item_free E w a w' :
  idle w -> pa_rtpoll_item_free E a w = Ok w' -> idle w'.
Proof.
  intros Hi H. pose proof (idle_log (ev_item_free a) w Hi) as Hi1.
  destruct Hi as (Hrun & _). destruct Hi1 as (Hrun1 & Hwf1 & Hcnt1 & Hsc1 & Hda1).
  unfold pa_rtpoll_item_free in H. cbn [log rtpoll] in H.
  destruct (find_item a (items (rtpoll w))) as [i|] eqn:Hf; [|discriminate].
  rewrite Hrun in H.
  destruct (find_item_split _ _ _ Hf) as (l1 & l2 & Hit & <-).
  destruct (destroy_mid E (log (ev_item_free (addr i)) w) l1 i l2 Hit Hwf1 Hcnt1)
    as (w1 & Hdes & Hit1 & Hwf' & Hcnt' & _ & Hr' & Hs' & _).
  rewrite Hdes in H. injection H as <-.
  split; [congruence|]. split; [exact Hwf'|]. split; [exact Hcnt'|].
  split; [congruence|]. unfold dead_addrs in *. rewrite Hit1.
  cbn in Hda1. rewrite Hit in Hda1. eapply dead_addrs_remove; eauto.
Qed.

Lemma idle_rebuild E w p :
  idle w -> rtpoll_rebuild E (rtpoll w) = Ok p -> idle (set_rtpoll p w).
Proof.
  intros Hc H. apply rtpoll_rebuild_keeps in H.
  destruct H as (Hsk & Hr & Hs & Hu & _).
  apply (idle_step w); auto.
  - unfold addrs. cbn. apply skel_addr. exact Hsk.
  - apply skel_slot_sum. exact Hsk.
  - unfold dead_addrs. cbn. apply skel_dead_addrs. exact Hsk.
Qed.

Lemma idle_get_pollfd E w a w' ptr :
  idle w -> pa_rtpoll_item_get_pollfd E a w = Ok (w', ptr) -> idle w'.
Proof.
  intros Hc H. unfold pa_rtpoll_item_get_pollfd in H.
  destruct (find_item a (items (rtpoll w))); [|discriminate].
  inv_bind_as H w1. destruct (find_item a (items (rtpoll w1))); [|discriminate].
  injection H as <- _.
  destruct (rebuild_needed (rtpoll w)).
  - inv_bind_as Hm p1. injection Hm as <-. eapply idle_rebuild; eauto.
  - injection Hm as <-. exact Hc.
Qed.

Lemma idle_store_through w ptr j f w' :
  idle w -> store_through ptr j f w = Ok w' -> idle w'.
Proof.
  intros Hc H. unfold store_through in H. destruct ptr; [|discriminate].
  inv_bind_as H old. inv_bind_as H buf. injection H as <-. apply (idle_step w); auto.
Qed.

Lemma idle_update_item w a f w' :
  (forall i, addr (f i) = addr i) -> (forall i, dead (f i) = dead i) ->
  (forall i, n_pollfd (f i) = n_pollfd i) ->
  idle w -> update_item_checked a f w = Ok w' -> idle w'.
Proof.
  intros Ha Hd Hn Hc H. unfold update_item_checked in H.
  destruct (find_item a (items (rtpoll w))); [|discriminate]. injection H as <-.
  apply (idle_step w); auto.
  - unfold addrs. cbn. apply update_item_addr. exact Ha.
  - apply update_item_slot_sum. exact Hn.
  - unfold dead_addrs. cbn. apply update_item_dead_addrs_eq; auto.
Qed.

Lemma idle_update_timer E w : idle w -> idle (update_timer E w).
Proof.
  intros Hc. unfold update_timer.
  destruct (HAVE_PPOLL E && negb (linux E && dont_use_ppoll (rtpoll w))); [|exact Hc].
  apply idle_log. exact Hc.
Qed.

Lemma idle_new_adapter_item E w d b a h w' i :
  idle w -> new_adapter_item E d b a h w = Ok (w', i) -> idle w'.
Proof.
  intros Hc H. unfold new_adapter_item in H.
  inv_bind_as H u. inv_bind_as H [w1 i1].
  inv_bind_as H [w2 ptr]. inv_bind_as H w3. inv_bind_as H w4.
  injection H as <- _.
  eapply idle_update_item; [| | | |exact Hm3]; try reflexivity.
  eapply idle_store_through; [|exact Hm2].
  eapply idle_get_pollfd; [|exact Hm1].
  eapply idle_item_new; [|exact Hm0]. exact Hc.
Qed.

Lemma idle_exec_call E c w w' :
  idle w -> exec_call E c w = Ok w' -> idle w'.
Proof.
  intros Hc H. destruct c; cbn [exec_call] in H.
  - inv_bind_as H [w1 a1]. injection H as <-. eapply idle_item_new; eauto.
  - eapply idle_item_free; eauto.
  - inv_bind_as H [w1 p1]. injection H as <-. eapply idle_get_pollfd; eauto.
  - inv_bind_as H [w1 p1].
    eapply idle_store_through; [|exact H]. eapply idle_get_pollfd; eauto.
  - eapply idle_update_item; [| | | |exact H]; auto.
  - eapply idle_update_item; [| | | |exact H]; auto.
  - eapply idle_update_item; [| | | |exact H]; auto.
  - inv_bind_as H [w1 a1]. injection H as <-. eapply idle_new_adapter_item; eauto.
  - inv_bind_as H [w1 a1]. injection H as <-. eapply idle_new_adapter_item; eauto.
  - injection H as <-. apply idle_update_timer. apply (idle_step w); auto.
  - injection H as <-. apply idle_update_timer. apply (idle_step w); auto.
  - injection H as <-. apply idle_update_timer. apply (idle_step w); auto.
  - injection H as <-. apply idle_update_timer. apply (idle_step w); auto.
Qed.

Lemma idle_exec_op E o w w' : idle w -> exec_op E o w = Ok w' -> idle w'.
Proof.
  intros Hc H. destruct o; cbn in H.
  - eapply idle_exec_call; eauto.
  - unfold pa_rtpoll_install in H. inv_bind_as H u. injection H as <-.
    apply (idle_step w); auto.
  - inv_bind_as H [w1 r]. injection H as <-.
    eapply run_cycle; eauto.
Qed.

Lemma idle_exec_ops E ops w w' : idle w -> exec_ops E ops w = Ok w' -> idle w'.
Proof.
  revert w. induction ops as [|o ops IH]; intros w Hc H; cbn in H.
  - injection H as <-. exact Hc.
  - inv_bind_as H w1. eapply IH; [|exact H]. eapply idle_exec_op; eauto.
Qed.

(** C6: after any sequence of calls of the interface made between cycles
    (item creations and destructions among them), with whole cycles in
    between, [n_pollfd_used] is the sum of the slot counts of the live
    items of the list, the sum being taken in [unsigned] arithmetic as
    the count itself is; it is the plain sum whenever that fits in an
    [unsigned].  No linked item is dead at that point. *)
Theorem used_slots_equal_live_sum (E : Env) (ops : list op) (w' : world) :
  exec_ops E ops (initial_world E) = Ok w' ->
  n_pollfd_used (rtpoll w') = u32 (slot_sum (live_items (rtpoll w')))
  /\ (0 <= slot_sum (live_items (rtpoll w')) < 2 ^ 32 ->
      n_pollfd_used (rtpoll w') = slot_sum (live_items (rtpoll w')))
  /\ live_items (rtpoll w') = items (rtpoll w').
Proof.
  intros H. apply idle_exec_ops in H; [|apply idle_initial].
  destruct H as (_ & _ & Hcnt & _ & Hda).
  assert (Hl : live_items (rtpoll w') = items (rtpoll w'))
    by (apply filter_dead_live_nil; exact Hda).
  rewrite Hl. split; [exact Hcnt|]. split; [|reflexivity].
  intros Hr. rewrite Hcnt. unfold u32. apply Z.mod_small. exact Hr.
Qed.


Lemma used_slots_equal_live_sum_witness :
  let w' := world_of (exec_ops quiet_env example_ops (initial_world quiet_env)) quiet_env in
  n_pollfd_used (rtpoll w') = u32 (slot_sum (live_items (rtpoll w')))
  /\ (0 <= slot_sum (live_items (rtpoll w')) < 2 ^ 32 ->
      n_pollfd_used (rtpoll w') = slot_sum (live_items (rtpoll w')))
  /\ live_items (rtpoll w') = items (rtpoll w').
Proof.
  intros w'. apply (used_slots_equal_live_sum quiet_env example_ops w').
  vm_compute. reflexivity.
Defined.

(** C6 as it is worded fails: the count wraps around where the sum
    does not.  After an item of 2^32 - 1 slots and one of two slots,
    [n_pollfd_used] is 1 and the sum of the slot counts of the two live
    items is 2^32 + 1. *)
Lemma used_slots_wrap_around :
  exists w,
    exec_ops quiet_env wrapping_ops (initial_world quiet_env) = Ok w
    /\ live_items (rtpoll w) = items (rtpoll w)
    /\ n_pollfd_used (rtpoll w) = 1
    /\ slot_sum (live_items (rtpoll w)) = 4294967297
    /\ n_pollfd_used (rtpoll w) <> slot_sum (live_items (rtpoll w)).
Proof.
  eexists. split; [vm_compute; reflexivity|].
  split; [reflexivity|]. split; [reflexivity|]. split; [reflexivity|].
  vm_compute. discriminate.
Qed.


(** ** The rebuild *)

Lemma read_slots_ok buf off n :
  0 <= off -> 0 <= n -> off + n <= Z.of_nat (length buf) ->
  read_slots buf off n = Ok (firstn (Z.to_nat n) (skipn (Z.to_nat off) buf))
  /\ length (firstn (Z.to_nat n) (skipn (Z.to_nat off) buf)) = Z.to_nat n.
Proof.
  intros H1 H2 H3. unfold read_slots.
  assert (Hb : (0 <=? off) && (0 <=? n) && (off + n <=? Z.of_nat (length buf)) = true).
  { rewrite !andb_true_iff, !Z.leb_le. auto. }
  rewrite Hb. split; [reflexivity|].
  rewrite length_firstn, length_skipn. lia.
Qed.

Lemma write_slots_ok buf off data :
  0 <= off -> off + Z.of_nat (length data) <= Z.of_nat (length buf) ->
  exists buf',
    write_slots buf off data = Ok buf'
    /\ length buf' = length buf
    /\ (forall k, (k <= Z.to_nat off)%nat -> firstn k buf' = firstn k buf)
    /\ firstn (length data) (skipn (Z.to_nat off) buf') = data.
Proof.
  intros H1 H2. unfold write_slots.
  assert (Hb : (0 <=? off) && (off + Z.of_nat (length data) <=? Z.of_nat (length buf)) = true).
  { rewrite !andb_true_iff, !Z.leb_le. auto. }
  rewrite Hb. eexists. split; [reflexivity|].
  assert (Hl : length (firstn (Z.to_nat off) buf) = Z.to_nat off)
    by (rewrite length_firstn; lia).
  split; [|split].
  - rewrite !length_app, length_firstn, length_skipn. lia.
  - intros k Hk. rewrite firstn_app, Hl.
    replace (k - Z.to_nat off)%nat with 0%nat by lia. cbn. rewrite app_nil_r.
    rewrite firstn_firstn. f_equal. lia.
  - rewrite skipn_app, Hl, Nat.sub_diag. cbn [skipn].
    rewrite (skipn_all2 (firstn (Z.to_nat off) buf)) by lia. cbn [app].
    rewrite firstn_app, Nat.sub_diag. cbn [firstn]. rewrite app_nil_r.
    apply firstn_all.
Qed.

Lemma slot_sum_nonneg l : Forall (fun i => 0 <= n_pollfd i) l -> 0 <= slot_sum l.
Proof.
  induction 1 as [|i l Hi _ IH]; unfold slot_sum in *; cbn; lia.
Qed.

Lemma rebuild_items_ok active : forall l e scratch,
  0 <= e ->
  Forall (fun i => 0 <= n_pollfd i /\ ptr_ok active i) l ->
  e + slot_sum l <= Z.of_nat (length scratch) ->
  exists l' scratch',
    rebuild_items active l e scratch = Ok (l', e + slot_sum l, scratch')
    /\ length scratch' = length scratch
    /\ (forall k, (k <= Z.to_nat e)%nat -> firstn k scratch' = firstn k scratch)
    /\ map item_pollfd l' = layout e l
    /\ (forall i rest, l = i :: rest -> item_pollfd i = None ->
        firstn (Z.to_nat (n_pollfd i)) (skipn (Z.to_nat e) scratch')
        = repeat pollfd_zero (Z.to_nat (n_pollfd i))).
Proof.
  induction l as [|i l IH]; intros e scratch He Hall Hfit.
  - exists [], scratch. cbn. unfold slot_sum. cbn. rewrite Z.add_0_r.
    splits; auto. intros i rest Hx. discriminate.
  - inversion Hall as [|x xs [Hn Hp] Hall']; subst.
    assert (Hs : 0 <= slot_sum l).
    { apply slot_sum_nonneg. eapply Forall_impl; [|exact Hall']. cbn. tauto. }
    change (slot_sum (i :: l)) with (n_pollfd i + slot_sum l) in *.
    cbn [rebuild_items].
    destruct (0 <? n_pollfd i) eqn:Hpos.
    + set (src := match item_pollfd i with
                  | Some off => read_slots active off (n_pollfd i)
                  | None => Ok (repeat pollfd_zero (Z.to_nat (n_pollfd i)))
                  end).
      assert (Hsrc : exists s, src = Ok s /\ length s = Z.to_nat (n_pollfd i)
                      /\ (item_pollfd i = None ->
                          s = repeat pollfd_zero (Z.to_nat (n_pollfd i)))).
      { unfold src, ptr_ok in *. destruct (item_pollfd i) as [off|].
        - destruct Hp as [Hp1 Hp2].
          destruct (read_slots_ok active off (n_pollfd i) Hp1 Hn Hp2) as [Hr Hl].
          eexists. split; [exact Hr|]. split; [exact Hl|]. discriminate.
        - eexists. split; [reflexivity|]. split; [apply repeat_length|]. reflexivity. }
      destruct Hsrc as (s & -> & Hls & Hzero). cbn [bind].
      destruct (write_slots_ok scratch e s He) as (s1 & Hw & Hl1 & Hpre1 & Hdat1); [lia|].
      rewrite Hw. cbn [bind].
      destruct (IH (e + n_pollfd i) s1) as (l' & s2 & Hre & Hl2 & Hpre2 & Hlay & _);
        [lia|exact Hall'|lia|].
      rewrite Hre. cbn [bind].
      exists (set_item_pollfd (Some e) i :: l'), s2.
      rewrite Z.add_assoc. splits; auto.
      * congruence.
      * intros k Hk. rewrite Hpre2 by lia. apply Hpre1. exact Hk.
      * cbn. rewrite Hpos, Hlay. reflexivity.
      * intros i0 rest Heq Hnone. injection Heq as <- <-.
        assert (Hx : firstn (Z.to_nat e + Z.to_nat (n_pollfd i)) s2
                     = firstn (Z.to_nat e + Z.to_nat (n_pollfd i)) s1)
          by (apply Hpre2; lia).
        transitivity (firstn (Z.to_nat (n_pollfd i)) (skipn (Z.to_nat e) s1)).
        { rewrite !firstn_skipn_comm, Hx. reflexivity. }
        rewrite <- Hls, Hdat1, Hls. apply Hzero. exact Hnone.
    + assert (Hz : n_pollfd i = 0) by (apply Z.ltb_ge in Hpos; lia).
      cbn [bind].
      destruct (IH (e + n_pollfd i) scratch) as (l' & s2 & Hre & Hl2 & Hpre2 & Hlay & _);
        [lia|exact Hall'|lia|].
      rewrite Hre. cbn [bind].
      exists (set_item_pollfd None i :: l'), s2.
      rewrite Z.add_assoc. splits; auto.
      * intros k Hk. apply Hpre2. lia.
      * cbn. rewrite Hpos, Hlay. reflexivity.
      * intros i0 rest Heq Hnone. injection Heq as <- <-. rewrite Hz. reflexivity.
Qed.

Lemma pa_xrealloc_pollfd_length junk buf n :
  0 <= n -> Z.of_nat (length (pa_xrealloc_pollfd junk buf n)) = n.
Proof.
  intros Hn. unfold pa_xrealloc_pollfd.
  rewrite length_app, length_firstn, repeat_length. lia.
Qed.

Lemma rtpoll_rebuild_ok E p :
  n_pollfd_used p = slot_sum (items p) ->
  Forall (fun i => 0 <= n_pollfd i /\ ptr_ok (pollfd p) i) (items p) ->
  Z.of_nat (length (pollfd p)) = n_pollfd_alloc p ->
  Z.of_nat (length (pollfd2 p)) = n_pollfd_alloc p ->
  slot_sum (items p) < 2 ^ 31 ->
  exists p',
    rtpoll_rebuild E p = Ok p'
    /\ map item_pollfd (items p') = layout 0 (items p)
    /\ Z.of_nat (length (pollfd p')) = n_pollfd_alloc p'
    /\ Z.of_nat (length (pollfd2 p')) = n_pollfd_alloc p'
    /\ n_pollfd_used p' <= n_pollfd_alloc p'
    /\ (forall i rest, items p = i :: rest -> item_pollfd i = None ->
        firstn (Z.to_nat (n_pollfd i)) (pollfd p')
        = repeat pollfd_zero (Z.to_nat (n_pollfd i))).
Proof.
  intros Hu Hall Hl1 Hl2 Hsum.
  assert (Hs0 : 0 <= slot_sum (items p)).
  { apply slot_sum_nonneg. eapply Forall_impl; [|exact Hall]. cbn. tauto. }
  unfold rtpoll_rebuild.
  cbn [n_pollfd_alloc n_pollfd_used set_rebuild_needed].
  destruct (n_pollfd_alloc p <? n_pollfd_used p) eqn:Hra.
  - apply Z.ltb_lt in Hra.
    assert (Ha : u32 (n_pollfd_used p * 2) = n_pollfd_used p * 2)
      by (unfold u32; apply Z.mod_small; lia).
    rewrite Ha. cbn [pollfd pollfd2 items set_pollfd2 set_n_pollfd_alloc set_rebuild_needed].
    set (sc := pa_xrealloc_pollfd (xnew_junk E) (pollfd2 p) (n_pollfd_used p * 2)).
    assert (Hsc : Z.of_nat (length sc) = n_pollfd_used p * 2)
      by (apply pa_xrealloc_pollfd_length; lia).
    destruct (rebuild_items_ok (pollfd p) (items p) 0 sc)
      as (l' & s' & Hre & Hl' & _ & Hlay & Hzero); [lia|exact Hall|lia|].
    rewrite Hre. cbn [bind].
    assert (Has : pa_assert (u32 (0 + slot_sum (items p)) =? n_pollfd_used p) = Ok tt).
    { unfold u32. rewrite Z.mod_small by lia. rewrite Z.add_0_l, Hu, Z.eqb_refl. reflexivity. }
    cbn [n_pollfd_used set_pollfd2 set_n_pollfd_alloc set_rebuild_needed].
    rewrite Has. cbn [bind]. eexists. split; [reflexivity|].
    cbn. splits; auto; try lia; try (apply pa_xrealloc_pollfd_length; lia).
  - apply Z.ltb_ge in Hra.
    cbn [pollfd pollfd2 items set_rebuild_needed].
    destruct (rebuild_items_ok (pollfd p) (items p) 0 (pollfd2 p))
      as (l' & s' & Hre & Hl' & _ & Hlay & Hzero); [lia|exact Hall|lia|].
    rewrite Hre. cbn [bind].
    assert (Has : pa_assert (u32 (0 + slot_sum (items p)) =? n_pollfd_used p) = Ok tt).
    { unfold u32. rewrite Z.mod_small by lia. rewrite Z.add_0_l, Hu, Z.eqb_refl. reflexivity. }
    cbn [n_pollfd_used set_pollfd2 set_n_pollfd_alloc set_rebuild_needed].
    rewrite Has. cbn [bind]. eexists. split; [reflexivity|].
    cbn. splits; auto; try lia.
Qed.

(** ** The semaphore adapter (C8) *)

Lemma pa_rtpoll_item_new_fields n w :
  0 < n ->
  exists w' a,
    pa_rtpoll_item_new n w = Ok (w', a)
    /\ rtpoll w' =
       set_n_pollfd_used (u32 (n_pollfd_used (rtpoll w) + n))
         (set_rebuild_needed true
            (set_items (mk_item a false None n None None 0 :: items (rtpoll w)) (rtpoll w)))
    /\ trace w' = trace w /\ errno w' = errno w.
Proof.
  intros Hn. unfold pa_rtpoll_item_new.
  assert (Hb : (0 <? n) = true) by (apply Z.ltb_lt; exact Hn).
  rewrite Hb. cbn [pa_assert bind].
  destruct (flist w) as [|a rest]; cbn; eauto 10.
Qed.




(** ** The events of the interface *)

Lemma extends_by_refl P w : extends_by P w w.
Proof. exists []. rewrite app_nil_r. split; [reflexivity|constructor]. Qed.

Lemma extends_by_trans P w1 w2 w3 :
  extends_by P w1 w2 -> extends_by P w2 w3 -> extends_by P w1 w3.
Proof.
  intros (d1 & H1 & F1) (d2 & H2 & F2). exists (d1 ++ d2).
  rewrite H2, H1, app_assoc. split; [reflexivity|apply Forall_app; auto].
Qed.

Lemma extends_by_log (P : event -> bool) e w : P e = true -> extends_by P w (log e w).
Proof. intros H. exists [e]. split; [reflexivity|constructor; auto]. Qed.

Lemma extends_by_same P w w' : trace w' = trace w -> extends_by P w w'.
Proof. intros H. exists []. rewrite app_nil_r. split; [exact H|constructor]. Qed.

Lemma extends_by_impl (P Q : event -> bool) w w' :
  (forall e, P e = true -> Q e = true) -> extends_by P w w' -> extends_by Q w w'.
Proof.
  intros H (d & Ht & Hd). exists d. split; [exact Ht|].
  eapply Forall_impl; [|exact Hd]. exact H.
Qed.

Lemma keeps_refl w : keeps w w.
Proof. unfold keeps. splits; auto using extends_by_refl. Qed.

Lemma keeps_trans w1 w2 w3 : keeps w1 w2 -> keeps w2 w3 -> keeps w1 w3.
Proof.
  intros (A1 & A2 & A3 & A4 & A5) (B1 & B2 & B3 & B4 & B5). unfold keeps.
  splits; try congruence. eapply extends_by_trans; eauto.
Qed.

Lemma keeps_fields w w' :
  errno w' = errno w -> trace w' = trace w ->
  running (rtpoll w') = running (rtpoll w) ->
  installed (rtpoll w') = installed (rtpoll w) ->
  dont_use_ppoll (rtpoll w') = dont_use_ppoll (rtpoll w) ->
  keeps w w'.
Proof. intros. unfold keeps. splits; auto using extends_by_same. Qed.

Lemma keeps_log e w : is_api_event e = true -> keeps w (log e w).
Proof. intros H. unfold keeps. splits; auto using extends_by_log. Qed.

Lemma keeps_item_new n w w' a : pa_rtpoll_item_new n w = Ok (w', a) -> keeps w w'.
Proof.
  intros H. unfold pa_rtpoll_item_new in H. inv_bind_as H u.
  destruct (flist w); injection H as <- _; apply keeps_fields; reflexivity.
Qed.

Lemma keeps_destroy E a w w' : rtpoll_item_destroy E a w = Ok w' -> keeps w w'.
Proof.
  intros H. unfold rtpoll_item_destroy in H.
  destruct (find_item a (items (rtpoll w))); [|discriminate]. injection H as <-.
  eapply keeps_trans; [|apply keeps_log; reflexivity].
  apply keeps_fields; reflexivity.
Qed.

Lemma keeps_item_free E a w w' : pa_rtpoll_item_free E a w = Ok w' -> keeps w w'.
Proof.
  intros H. unfold pa_rtpoll_item_free in H.
  eapply keeps_trans; [apply (keeps_log (ev_item_free a)); reflexivity|].
  destruct (find_item a (items (rtpoll (log (ev_item_free a) w)))); [|discriminate].
  destruct (running (rtpoll (log (ev_item_free a) w))).
  - injection H as <-. apply keeps_fields; reflexivity.
  - eapply keeps_destroy; eauto.
Qed.

Lemma keeps_rebuild E w p : rtpoll_rebuild E (rtpoll w) = Ok p -> keeps w (set_rtpoll p w).
Proof.
  intros H. apply rtpoll_rebuild_keeps in H.
  destruct H as (_ & Hr & _ & _ & Hi & _ & _ & _ & Hd & _).
  apply keeps_fields; auto.
Qed.

Lemma keeps_get_pollfd E a w w' ptr :
  pa_rtpoll_item_get_pollfd E a w = Ok (w', ptr) -> keeps w w'.
Proof.
  intros H. unfold pa_rtpoll_item_get_pollfd in H.
  destruct (find_item a (items (rtpoll w))); [|discriminate].
  inv_bind_as H w1. destruct (find_item a (items (rtpoll w1))); [|discriminate].
  injection H as <- _.
  destruct (rebuild_needed (rtpoll w)).
  - inv_bind_as Hm p1. injection Hm as <-. eapply keeps_rebuild; eauto.
  - injection Hm as <-. apply keeps_refl.
Qed.

Lemma keeps_store_through ptr j f w w' : store_through ptr j f w = Ok w' -> keeps w w'.
Proof.
  intros H. unfold store_through in H. destruct ptr; [|discriminate].
  inv_bind_as H old. inv_bind_as H buf. injection H as <-. apply keeps_fields; reflexivity.
Qed.

Lemma keeps_update_item a f w w' : update_item_checked a f w = Ok w' -> keeps w w'.
Proof.
  intros H. unfold update_item_checked in H.
  destruct (find_item a (items (rtpoll w))); [|discriminate]. injection H as <-.
  apply keeps_fields; reflexivity.
Qed.

Lemma keeps_update_timer E w : keeps w (update_timer E w).
Proof.
  unfold update_timer.
  destruct (HAVE_PPOLL E && negb (linux E && dont_use_ppoll (rtpoll w)));
    [apply keeps_log; reflexivity|apply keeps_refl].
Qed.

Lemma keeps_new_adapter_item E d b a h w w' i :
  new_adapter_item E d b a h w = Ok (w', i) -> keeps w w'.
Proof.
  intros H. unfold new_adapter_item in H.
  inv_bind_as H u. inv_bind_as H [w1 i1].
  inv_bind_as H [w2 ptr]. inv_bind_as H w3. inv_bind_as H w4.
  injection H as <- _.
  eapply keeps_trans; [eapply keeps_item_new; eauto|].
  eapply keeps_trans; [eapply keeps_get_pollfd; eauto|].
  eapply keeps_trans; [eapply keeps_store_through; eauto|].
  eapply keeps_update_item; eauto.
Qed.

Lemma keeps_exec_call E c w w' : exec_call E c w = Ok w' -> keeps w w'.
Proof.
  intros H. destruct c; cbn [exec_call] in H.
  - inv_bind_as H [w1 a1]. injection H as <-. eapply keeps_item_new; eauto.
  - eapply keeps_item_free; eauto.
  - inv_bind_as H [w1 p1]. injection H as <-. eapply keeps_get_pollfd; eauto.
  - inv_bind_as H [w1 p1].
    eapply keeps_trans; [eapply keeps_get_pollfd; eauto|eapply keeps_store_through; eauto].
  - eapply keeps_update_item; eauto.
  - eapply keeps_update_item; eauto.
  - eapply keeps_update_item; eauto.
  - inv_bind_as H [w1 a1]. injection H as <-. eapply keeps_new_adapter_item; eauto.
  - inv_bind_as H [w1 a1]. injection H as <-. eapply keeps_new_adapter_item; eauto.
  - injection H as <-. eapply keeps_trans; [|apply keeps_update_timer].
    apply keeps_fields; reflexivity.
  - injection H as <-. eapply keeps_trans; [|apply keeps_update_timer].
    apply keeps_fields; reflexivity.
  - injection H as <-. eapply keeps_trans; [|apply keeps_update_timer].
    apply keeps_fields; reflexivity.
  - injection H as <-. eapply keeps_trans; [|apply keeps_update_timer].
    apply keeps_fields; reflexivity.
Qed.

Lemma keeps_exec_script E s w w' : exec_script E s w = Ok w' -> keeps w w'.
Proof.
  revert w. induction s as [|c s IH]; intros w H; cbn in H.
  - injection H as <-. apply keeps_refl.
  - inv_bind_as H w1. eapply keeps_trans; [eapply keeps_exec_call; eauto|eauto].
Qed.

(** ** The events of a hook call *)

Lemma api_no_dispatch e : is_api_event e = true -> no_dispatch e = true.
Proof. destruct e; cbn; congruence. Qed.

Lemma exec_script_no_dispatch E s w w' :
  exec_script E s w = Ok w' -> extends_by no_dispatch w w'.
Proof.
  intros H. apply keeps_exec_script in H. destruct H as (_ & _ & _ & _ & H).
  eapply extends_by_impl; [|exact H]. exact api_no_dispatch.
Qed.

Lemma invoke_before_trace E cb i w w' ret :
  invoke_before E cb i w = Ok (w', ret) ->
  exists d, trace w' = trace w ++ d ++ [ev_before (addr i) ret]
            /\ Forall (fun e => no_dispatch e = true) d
            /\ errno w' = errno w.
Proof.
  intros H. unfold invoke_before in H. inv_bind_as H [w1 r1]. injection H as <- <-.
  destruct cb; cbn in Hm.
  - injection Hm as <- _. exists [ev_fdsem_before_poll (userdata i)]. cbn.
    rewrite <- app_assoc. split; [reflexivity|]. split; [repeat constructor|reflexivity].
  - injection Hm as <- _. exists [ev_asyncmsgq_before_poll (userdata i)]. cbn.
    rewrite <- app_assoc. split; [reflexivity|]. split; [repeat constructor|reflexivity].
  - destruct (client_before_hook E k (addr i) w) as [script r2].
    inv_bind_as Hm w2. injection Hm as <- _.
    pose proof (keeps_exec_script _ _ _ _ Hm0) as (He & _).
    apply exec_script_no_dispatch in Hm0. destruct Hm0 as (d & Ht & Hd).
    exists d. cbn. rewrite Ht, app_assoc. auto.
Qed.

Lemma invoke_after_trace E cb i w w' :
  invoke_after E cb i w = Ok w' ->
  exists d, trace w' = trace w ++ ev_after (addr i) (item_slice (rtpoll w) i) :: d
            /\ Forall (fun e => no_dispatch e = true) d
            /\ errno w' = errno w.
Proof.
  intros H. unfold invoke_after in H. destruct cb.
  - unfold fdsem_after in H. inv_bind_as H u. injection H as <-.
    exists [ev_fdsem_after_poll (userdata i)]. cbn. rewrite <- app_assoc.
    split; [reflexivity|]. split; [repeat constructor|reflexivity].
  - unfold asyncmsgq_after in H. inv_bind_as H u. injection H as <-.
    exists [ev_asyncmsgq_after_poll (userdata i)]. cbn. rewrite <- app_assoc.
    split; [reflexivity|]. split; [repeat constructor|reflexivity].
  - pose proof (keeps_exec_script _ _ _ _ H) as (He & _).
    apply exec_script_no_dispatch in H. destruct H as (d & Ht & Hd).
    exists d. rewrite Ht. cbn. rewrite <- app_assoc. auto.
Qed.

(** ** Stale events and the after-hooks (C5) *)

Lemma read_slots_inv buf off n s :
  read_slots buf off n = Ok s ->
  0 <= off /\ 0 <= n /\ off + n <= Z.of_nat (length buf)
  /\ s = firstn (Z.to_nat n) (skipn (Z.to_nat off) buf).
Proof.
  unfold read_slots. intros H.
  destruct ((0 <=? off) && (0 <=? n) && (off + n <=? Z.of_nat (length buf))) eqn:Hb;
    [|discriminate].
  rewrite !andb_true_iff, !Z.leb_le in Hb. injection H as <-. tauto.
Qed.

Lemma clear_item_revents_slice i w w' :
  clear_item_revents i w = Ok w' ->
  all_revents_zero (item_slice (rtpoll w') i) = true
  /\ trace w' = trace w /\ errno w' = errno w.
Proof.
  unfold clear_item_revents. intros H.
  destruct (n_pollfd i <=? 0) eqn:Hn.
  - injection H as <-. apply Z.leb_le in Hn. split; [|auto].
    unfold item_slice. destruct (item_pollfd i); [|reflexivity].
    replace (Z.to_nat (n_pollfd i)) with 0%nat by lia. reflexivity.
  - apply Z.leb_gt in Hn.
    destruct (item_pollfd i) as [off|] eqn:Hp; [|discriminate].
    inv_bind_as H old. inv_bind_as H buf. injection H as <-.
    split; [|auto].
    apply read_slots_inv in Hm. destruct Hm as (H1 & H2 & H3 & ->).
    destruct (read_slots_ok (pollfd (rtpoll w)) off (n_pollfd i) H1 H2 H3) as [_ Hlen].
    destruct (write_slots_ok (pollfd (rtpoll w)) off
                (map clear_revents
                   (firstn (Z.to_nat (n_pollfd i)) (skipn (Z.to_nat off) (pollfd (rtpoll w))))))
      as (buf' & Hw & _ & _ & Hdat); [lia|rewrite length_map, Hlen; lia|].
    rewrite Hw in Hm0. injection Hm0 as <-.
    unfold item_slice. rewrite Hp. fields.
    rewrite length_map, Hlen in Hdat. rewrite Hdat.
    unfold all_revents_zero. rewrite forallb_forall. intros s Hs.
    apply in_map_iff in Hs. destruct Hs as (s0 & <- & _). reflexivity.
Qed.

Lemma after_loop_classified E ne todo w w' :
  after_loop E ne todo w = Ok w' ->
  extends_by (classified ne) w w' /\ errno w' = errno w.
Proof.
  revert w. induction todo as [|a todo IH]; intros w H; cbn in H.
  - injection H as <-. split; [apply extends_by_refl|reflexivity].
  - destruct (find_item a (items (rtpoll w))) as [i|]; [|discriminate].
    destruct (dead i); [eauto|].
    destruct (after_cb i) as [cb|]; [|eauto].
    inv_bind_as H w1. inv_bind_as H w2.
    destruct (IH _ H) as [Hx He]. clear IH H.
    destruct (invoke_after_trace _ _ _ _ _ Hm0) as (d & Ht & Hd & He2).
    assert (H1 : trace w1 = trace w /\ errno w1 = errno w
                 /\ (ne = true -> all_revents_zero (item_slice (rtpoll w1) i) = true)).
    { destruct ne.
      - apply clear_item_revents_slice in Hm. tauto.
      - injection Hm as <-. splits; auto. discriminate. }
    destruct H1 as (Ht1 & He1 & Hz).
    split; [|congruence].
    eapply extends_by_trans; [|exact Hx].
    exists (ev_after (addr i) (item_slice (rtpoll w1) i) :: d).
    split; [rewrite Ht, Ht1; reflexivity|].
    constructor.
    + cbn. destruct ne; auto.
    + eapply Forall_impl; [|exact Hd]. intros e. destruct e; cbn; congruence.
Qed.

Lemma before_loop_events E todo w w' refused :
  before_loop E todo w = Ok (w', refused) ->
  extends_by before_phase_event w w' /\ errno w' = errno w.
Proof.
  revert w. induction todo as [|a todo IH]; intros w H; cbn in H.
  - injection H as <- _. split; [apply extends_by_refl|reflexivity].
  - destruct (find_item a (items (rtpoll w))) as [i|]; [|discriminate].
    destruct (dead i); [eauto|].
    destruct (before_cb i) as [cb|]; [|eauto].
    inv_bind_as H [w1 ret].
    destruct (invoke_before_trace _ _ _ _ _ _ Hm) as (d & Ht & Hd & He).
    assert (Hx : extends_by before_phase_event w w1).
    { exists (d ++ [ev_before (addr i) ret]). split; [exact Ht|].
      apply Forall_app. split; [|repeat constructor].
      eapply Forall_impl; [|exact Hd]. intros e. destruct e; cbn; congruence. }
    destruct (ret <? 0).
    + injection H as <- _. auto.
    + destruct (IH _ H) as [Hy He']. split; [|congruence].
      eapply extends_by_trans; eauto.
Qed.

Lemma rewind_events E fuel cur w w' :
  rewind E fuel cur w = Ok w' ->
  extends_by rewind_phase_event w w' /\ errno w' = errno w.
Proof.
  revert cur w. induction fuel as [|fuel IH]; intros cur w H;
    destruct cur as [a|]; cbn in H; try discriminate;
    try (injection H as <-; split; [apply extends_by_refl|reflexivity]).
  destruct (find_item a (items (rtpoll w))) as [i|]; [|discriminate].
  destruct (dead i); [eauto|].
  destruct (after_cb i) as [cb|]; [|eauto].
  inv_bind_as H w1.
  destruct (invoke_after_trace _ _ _ _ _ Hm) as (d & Ht & Hd & He).
  destruct (IH _ _ H) as [Hy He']. split; [|congruence].
  eapply extends_by_trans; [|exact Hy].
  exists (ev_after (addr i) (item_slice (rtpoll w) i) :: d). split; [exact Ht|].
  constructor; [reflexivity|].
  eapply Forall_impl; [|exact Hd]. intros e. destruct e; cbn; congruence.
Qed.

Lemma reap_loop_events E todo w w' :
  reap_loop E todo w = Ok w' -> extends_by is_api_event w w'.
Proof.
  revert w. induction todo as [|a todo IH]; intros w H; cbn in H.
  - injection H as <-. apply extends_by_refl.
  - destruct (find_item a (items (rtpoll w))) as [i|]; [|discriminate].
    destruct (dead i); [|eauto].
    inv_bind_as H w1. eapply extends_by_trans; [|eauto].
    apply keeps_destroy in Hm. apply Hm.
Qed.

Lemma finish_events E r se w w' r' :
  finish E r se w = Ok (w', r') ->
  extends_by is_api_event w w' /\ errno w' = se /\ r' = r.
Proof.
  unfold finish. intros H. inv_bind_as H w1. injection H as <- <-.
  split; [|auto].
  assert (Hx : extends_by is_api_event w w1).
  { destruct (scan_for_dead (rtpoll (set_rtpoll (set_running false (rtpoll w)) w))).
    - apply reap_loop_events in Hm. destruct Hm as (d & Ht & Hd).
      exists d. split; [exact Ht|exact Hd].
    - injection Hm as <-. apply extends_by_same. reflexivity. }
  destruct Hx as (d & Ht & Hd). exists d. split; [exact Ht|exact Hd].
Qed.

Lemma sleep_events E w w' r se :
  sleep E w = (w', r, se) ->
  extends_by (classified (is_no_events r (errno w'))) w w'
  /\ (HAVE_PPOLL E && linux E = false ->
      se = errno w'
      /\ exists fds t, trace w' = trace w ++ [ev_wait fds t r (errno w')]).
Proof.
  assert (Hw : forall b w1 r1, wait_syscall E b w = (w1, r1) ->
            exists fds t, trace w1 = trace w ++ [ev_wait fds t r1 (errno w1)]).
  { intros b w1 r1 H. unfold wait_syscall in H. injection H as <- <-. cbn. eauto. }
  assert (Hc : forall b w1 r1, wait_syscall E b w = (w1, r1) ->
            extends_by (classified (is_no_events r1 (errno w1))) w w1).
  { intros b w1 r1 H. destruct (Hw _ _ _ H) as (fds & t & Ht).
    exists [ev_wait fds t r1 (errno w1)]. split; [exact Ht|].
    constructor; [|constructor]. cbn. unfold is_no_events. apply eqb_reflx. }
  intros H. unfold sleep in H.
  destruct (HAVE_PPOLL E); [destruct (linux E)|]; cbn [andb].
  - split; [|discriminate].
    destruct (negb (dont_use_ppoll (rtpoll w))).
    + destruct (wait_syscall E true w) as [w1 r1] eqn:Hs. injection H as <- <- _. eauto.
    + injection H as <- _ _. apply extends_by_refl.
  - destruct (wait_syscall E true w) as [w1 r1] eqn:Hs. injection H as <- <- <-.
    split; [eauto|]. intros _. split; [reflexivity|eauto].
  - destruct (wait_syscall E false w) as [w1 r1] eqn:Hs. injection H as <- <- <-.
    split; [eauto|]. intros _. split; [reflexivity|eauto].
Qed.

Lemma advance_timer_keeps E w :
  trace (advance_timer E w) = trace w /\ errno (advance_timer E w) = errno w.
Proof.
  unfold advance_timer. destruct (timer_enabled (rtpoll w)); [|auto].
  destruct (0 <? period (rtpoll w)); auto.
Qed.

(** The events of a whole cycle: with a refusal there is no system call
    and no before-hook after the refusal; without one, every event is
    classified as the wait was. *)
Lemma run_events E fuel w w' r :
  pa_rtpoll_run E fuel w = Ok (w', r) ->
  extends_by (fun e => negb (is_wait e)) w w'
  \/ exists ne, extends_by (classified ne) w w'.
Proof.
  intros H. unfold pa_rtpoll_run in H.
  inv_bind_as H u1. inv_bind_as H u2. inv_bind_as H [w2 refused].
  apply before_loop_events in Hm1. destruct Hm1 as [Hb _]. fields in Hb.
  assert (Hb' : extends_by before_phase_event w w2).
  { destruct Hb as (d & Ht & Hd). exists d. split; [exact Ht|exact Hd]. }
  clear Hb. destruct refused as [a|].
  - left. inv_bind_as H w3. apply rewind_events in Hm1. destruct Hm1 as [Hr _].
    apply finish_events in H. destruct H as (Hf & _).
    eapply extends_by_trans; [eapply extends_by_impl; [|exact Hb']|].
    { intros e. destruct e; cbn; congruence. }
    eapply extends_by_trans; [eapply extends_by_impl; [|exact Hr]|].
    { intros e. destruct e; cbn; congruence. }
    eapply extends_by_impl; [|exact Hf]. intros e. destruct e; cbn; congruence.
  - right. inv_bind_as H w3.
    assert (Ht3 : trace w3 = trace w2).
    { destruct (rebuild_needed (rtpoll w2)).
      - inv_bind_as Hm1 p3. injection Hm1 as <-. reflexivity.
      - injection Hm1 as <-. reflexivity. }
    destruct (sleep E w3) as [[w4 r4] se] eqn:Hsl.
    apply sleep_events in Hsl. destruct Hsl as [Hs _].
    inv_bind_as H w5.
    destruct (advance_timer_keeps E w4) as [Hta Hea].
    apply after_loop_classified in Hm2. destruct Hm2 as [Ha _].
    apply finish_events in H. destruct H as (Hf & _).
    rewrite Hea in Ha. exists (is_no_events r4 (errno w4)).
    eapply extends_by_trans; [eapply extends_by_impl; [|exact Hb']|].
    { intros e. destruct e; cbn; congruence. }
    eapply extends_by_trans; [exists []; rewrite app_nil_r; split; [exact Ht3|constructor]|].
    eapply extends_by_trans; [exact Hs|].
    eapply extends_by_trans;
      [destruct Ha as (d & Ht & Hd); exists d; split; [rewrite Ht, Hta; reflexivity|exact Hd]|].
    eapply extends_by_impl; [|exact Hf]. intros e. destruct e; cbn; congruence.
Qed.

(** C5, amended: in a cycle whose wait is classified as "no events", the
    slots of an item whose after-hook is called report no event when
    the hook is called: the slice every after-hook finds has all its
    [revents] zero. *)
Theorem after_hooks_find_revents_cleared
  (E : Env) (fuel : nat) (w w' : world) (r : Z) (d : list event) :
  pa_rtpoll_run E fuel w = Ok (w', r) ->
  trace w' = trace w ++ d ->
  (exists fds t ret err,
      In (ev_wait fds t ret err) d /\ is_no_events ret err = true) ->
  forall a sl, In (ev_after a sl) d -> Forall (fun s => revents s = 0) sl.
Proof.
  intros H Ht (fds & t & ret & err & Hin & Hne) a sl Ha.
  destruct (run_events E fuel w w' r H) as [(d' & Ht' & Hd)|(ne & d' & Ht' & Hd)];
    rewrite Ht in Ht'; apply app_inv_head in Ht'; subst d'; rewrite Forall_forall in Hd.
  - specialize (Hd _ Hin). discriminate.
  - pose proof (Hd _ Hin) as Hw. cbn in Hw. unfold is_no_events in Hne.
    rewrite Hne in Hw. destruct ne; [|discriminate].
    specialize (Hd _ Ha). cbn in Hd. unfold all_revents_zero in Hd.
    rewrite forallb_forall in Hd. apply Forall_forall. intros s Hs.
    apply Z.eqb_eq. auto.
Qed.

Lemma after_hooks_find_revents_cleared_witness :
  let w := world_of (after_first_cycle interrupted_env) interrupted_env in
  let w' := fst (run_result (pa_rtpoll_run interrupted_env 0 w) interrupted_env) in
  In (ev_after 1 [mk_pollfd 4 POLLIN 0]) (skipn (length (trace w)) (trace w'))
  /\ Forall (fun s => revents s = 0) [mk_pollfd 4 POLLIN 0].
Proof.
  intros w w'.
  assert (Hin : In (ev_after 1 [mk_pollfd 4 POLLIN 0]) (skipn (length (trace w)) (trace w')))
    by (vm_compute; right; left; reflexivity).
  split; [exact Hin|].
  apply (after_hooks_find_revents_cleared interrupted_env 0 w w' 0
           (skipn (length (trace w)) (trace w'))) with (a := 1%nat).
  - vm_compute. reflexivity.
  - vm_compute. reflexivity.
  - exists [mk_pollfd 4 POLLIN POLLIN; mk_pollfd 3 POLLIN POLLIN], None, (-1), EINTR.
    split; [vm_compute; left; reflexivity|reflexivity].
  - exact Hin.
Defined.

(** C5, as stated, does not hold: the first-created item has no
    after-hook; the first cycle leaves [POLLIN] in its slot; the second
    cycle's wait is interrupted, which is classified as "no events", and
    after that cycle the slot still reports [POLLIN], although the
    after-hook of the other item was called in that cycle. *)
Lemma stale_revents_stay_without_after_hook :
  exists w w' i,
    after_first_cycle interrupted_env = Ok w
    /\ pa_rtpoll_run interrupted_env 0 w = Ok (w', 0)
    /\ In (ev_wait [mk_pollfd 4 POLLIN POLLIN; mk_pollfd 3 POLLIN POLLIN] None (-1) EINTR)
          (skipn (length (trace w)) (trace w'))
    /\ is_no_events (-1) EINTR = true
    /\ In (ev_after 1 [mk_pollfd 4 POLLIN 0]) (skipn (length (trace w)) (trace w'))
    /\ In i (items (rtpoll w'))
    /\ after_cb i = None
    /\ item_slice (rtpoll w') i = [mk_pollfd 3 POLLIN POLLIN]
    /\ ~ Forall (fun j => all_revents_zero (item_slice (rtpoll w') j) = true)
                (items (rtpoll w')).
Proof.
  eexists _, _, (mk_item 0 false (Some 1) 1 None None 0).
  split; [vm_compute; reflexivity|].
  split; [vm_compute; reflexivity|].
  split; [vm_compute; left; reflexivity|].
  split; [reflexivity|].
  split; [vm_compute; right; left; reflexivity|].
  split; [vm_compute; right; left; reflexivity|].
  split; [reflexivity|]. split; [vm_compute; reflexivity|].
  intros H. rewrite Forall_forall in H.
  specialize (H (mk_item 0 false (Some 1) 1 None None 0)).
  vm_compute in H. discriminate H. right. left. reflexivity.
Qed.

(** ** The rewind after a refusal (C1) *)

Lemma skel_view l l' : map skel l' = map skel l -> map view_of l' = map view_of l.
Proof.
  intros H.
  assert (Hx : forall l0, map view_of l0
             = map (fun s => match s with (a, d, _, b, c, _) => (a, d, b, c) end) (map skel l0))
    by (intros; rewrite map_map; reflexivity).
  rewrite (Hx l), (Hx l'), H. reflexivity.
Qed.

Lemma view_get_pollfd E a w w' ptr :
  pa_rtpoll_item_get_pollfd E a w = Ok (w', ptr) -> view w' = view w.
Proof.
  intros H. unfold pa_rtpoll_item_get_pollfd in H.
  destruct (find_item a (items (rtpoll w))); [|discriminate].
  inv_bind_as H w1. destruct (find_item a (items (rtpoll w1))); [|discriminate].
  injection H as <- _.
  destruct (rebuild_needed (rtpoll w)).
  - inv_bind_as Hm p1. injection Hm as <-. apply rtpoll_rebuild_keeps in Hm0.
    destruct Hm0 as (Hsk & _). unfold view. apply skel_view. exact Hsk.
  - injection Hm as <-. reflexivity.
Qed.

Lemma view_store_through ptr j f w w' : store_through ptr j f w = Ok w' -> view w' = view w.
Proof.
  intros H. unfold store_through in H. destruct ptr; [|discriminate].
  inv_bind_as H old. inv_bind_as H buf. injection H as <-. reflexivity.
Qed.

Lemma view_update_timer E w : view (update_timer E w) = view w.
Proof.
  unfold update_timer.
  destruct (HAVE_PPOLL E && negb (linux E && dont_use_ppoll (rtpoll w))); reflexivity.
Qed.

Lemma view_exec_call E c w w' :
  quiet_call c = true -> exec_call E c w = Ok w' -> view w' = view w.
Proof.
  intros Hq H. destruct c; try discriminate Hq; cbn [exec_call] in H.
  - inv_bind_as H [w1 p1]. injection H as <-. eapply view_get_pollfd; eauto.
  - inv_bind_as H [w1 p1]. apply view_store_through in H.
    apply view_get_pollfd in Hm. congruence.
  - unfold pa_rtpoll_item_set_userdata, update_item_checked in H.
    destruct (find_item a (items (rtpoll w))); [|discriminate]. injection H as <-.
    unfold view. fields. unfold update_item. rewrite map_map. apply map_ext.
    intros i. destruct (Nat.eqb (addr i) a); reflexivity.
  - injection H as <-. unfold pa_rtpoll_set_timer_absolute.
    rewrite view_update_timer. reflexivity.
  - injection H as <-. unfold pa_rtpoll_set_timer_periodic.
    rewrite view_update_timer. reflexivity.
  - injection H as <-. unfold pa_rtpoll_set_timer_relative.
    rewrite view_update_timer. reflexivity.
  - injection H as <-. unfold pa_rtpoll_set_timer_disabled.
    rewrite view_update_timer. reflexivity.
Qed.

Lemma view_exec_script E s w w' :
  forallb quiet_call s = true -> exec_script E s w = Ok w' -> view w' = view w.
Proof.
  revert w. induction s as [|c s IH]; intros w Hq H; cbn in H, Hq.
  - injection H as <-. reflexivity.
  - apply andb_true_iff in Hq. destruct Hq as [Hc Hs]. inv_bind_as H w1.
    rewrite (IH _ Hs H). eapply view_exec_call; eauto.
Qed.

Lemma view_invoke_before E cb i w w' ret :
  quiet_hooks E -> invoke_before E cb i w = Ok (w', ret) -> view w' = view w.
Proof.
  intros Hq H. unfold invoke_before in H. inv_bind_as H [w1 r1]. injection H as <- _.
  destruct cb; cbn in Hm.
  - injection Hm as <- _. reflexivity.
  - injection Hm as <- _. reflexivity.
  - specialize (Hq k (addr i) w). destruct Hq as [Hq _].
    destruct (client_before_hook E k (addr i) w) as [script r2]. cbn in Hq.
    inv_bind_as Hm w2. injection Hm as <- _.
    change (view (log (ev_before (addr i) r1) w2)) with (view w2).
    eapply view_exec_script; eauto.
Qed.

Lemma view_invoke_after E cb i w w' :
  quiet_hooks E -> invoke_after E cb i w = Ok w' -> view w' = view w.
Proof.
  intros Hq H. unfold invoke_after in H. destruct cb.
  - unfold fdsem_after in H. inv_bind_as H u. injection H as <-. reflexivity.
  - unfold asyncmsgq_after in H. inv_bind_as H u. injection H as <-. reflexivity.
  - specialize (Hq k (addr i) w). destruct Hq as [_ Hq].
    apply view_exec_script in H; [|exact Hq]. exact H.
Qed.

Lemma find_item_view (l0 l : list pa_rtpoll_item) i0 :
  map view_of l = map view_of l0 -> NoDup (map addr l0) -> In i0 l0 ->
  exists i, find_item (addr i0) l = Some i /\ view_of i = view_of i0.
Proof.
  revert l. induction l0 as [|j0 l0 IH]; intros l Hv Hnd Hin; [destruct Hin|].
  destruct l as [|j l]; [discriminate|]. cbn [map] in Hv.
  assert (Hj : view_of j = view_of j0)
    by (change (hd (view_of j0) (view_of j :: map view_of l) = view_of j0); rewrite Hv; reflexivity).
  assert (Hl : map view_of l = map view_of l0)
    by (change (tl (view_of j :: map view_of l) = map view_of l0); rewrite Hv; reflexivity).
  assert (Haj : addr j = addr j0)
    by (change (fst (fst (fst (view_of j))) = addr j0); rewrite Hj; reflexivity).
  inversion Hnd as [|x xs Hx Hnd']; subst. cbn [find_item]. rewrite Haj.
  destruct Hin as [->|Hin].
  - rewrite Nat.eqb_refl. eauto.
  - destruct (Nat.eqb (addr j0) (addr i0)) eqn:He.
    + apply Nat.eqb_eq in He. destruct Hx. rewrite He. apply in_map. exact Hin.
    + apply IH; auto.
Qed.

Lemma dispatches_app d1 d2 : dispatches (d1 ++ d2) = dispatches d1 ++ dispatches d2.
Proof. unfold dispatches. apply flat_map_app. Qed.

Lemma dispatches_no_dispatch d :
  Forall (fun e => no_dispatch e = true) d -> dispatches d = [].
Proof.
  induction 1 as [|e d He _ IH]; [reflexivity|]. cbn. unfold dispatches in IH.
  rewrite IH. destruct e; try reflexivity; discriminate He.
Qed.

Lemma in_no_dispatch_before d a r :
  Forall (fun e => no_dispatch e = true) d -> ~ In (ev_before a r) d.
Proof.
  intros H Hin. rewrite Forall_forall in H. specialize (H _ Hin). discriminate H.
Qed.

Lemma before_loop_dispatch E l0 :
  quiet_hooks E -> NoDup (map addr l0) ->
  forall l pre w w' refused,
    l0 = pre ++ l -> view w = map view_of l0 ->
    before_loop E (map addr l) w = Ok (w', refused) ->
    view w' = map view_of l0
    /\ exists d, trace w' = trace w ++ d
       /\ match refused with
          | None =>
              dispatches d = map d_before (hooked_before l)
              /\ (forall a r, In (ev_before a r) d -> 0 <= r)
          | Some b =>
              exists l1 ib l2,
                l = l1 ++ ib :: l2 /\ addr ib = b
                /\ dispatches d = map d_before (hooked_before (l1 ++ [ib]))
                /\ (forall a r, In (ev_before a r) d -> r < 0 -> a = b)
          end.
Proof.
  intros Hq Hnd. induction l as [|i0 l IH]; intros pre w w' refused Hl Hv H.
  - cbn in H. injection H as <- <-. split; [exact Hv|].
    exists []. rewrite app_nil_r. split; [reflexivity|]. split; [reflexivity|].
    intros a r [].
  - cbn [map before_loop] in H.
    destruct (find_item_view l0 (items (rtpoll w)) i0 Hv Hnd) as (i & Hf & Hvi).
    { rewrite Hl. apply in_or_app. right. left. reflexivity. }
    rewrite Hf in H.
    assert (Hai : addr i = addr i0)
      by (change (fst (fst (fst (view_of i))) = addr i0); rewrite Hvi; reflexivity).
    assert (Hdi : dead i = dead i0)
      by (change (snd (fst (fst (view_of i))) = dead i0); rewrite Hvi; reflexivity).
    assert (Hbi : before_cb i = before_cb i0)
      by (change (snd (fst (view_of i)) = before_cb i0); rewrite Hvi; reflexivity).
    assert (Hpre : l0 = (pre ++ [i0]) ++ l) by (rewrite <- app_assoc; exact Hl).
    assert (Hskip : negb (dead i0) && is_some (before_cb i0) = false ->
              before_loop E (map addr l) w = Ok (w', refused) ->
              view w' = map view_of l0
              /\ exists d, trace w' = trace w ++ d
                 /\ match refused with
                    | None =>
                        dispatches d = map d_before (hooked_before (i0 :: l))
                        /\ (forall a r, In (ev_before a r) d -> 0 <= r)
                    | Some b =>
                        exists l1 ib l2,
                          i0 :: l = l1 ++ ib :: l2 /\ addr ib = b
                          /\ dispatches d = map d_before (hooked_before (l1 ++ [ib]))
                          /\ (forall a r, In (ev_before a r) d -> r < 0 -> a = b)
                    end).
    { intros Hno H'. destruct (IH _ _ _ _ Hpre Hv H') as (Hv' & d & Ht & Hd).
      split; [exact Hv'|]. exists d. split; [exact Ht|].
      unfold hooked_before in *. cbn [filter]. rewrite Hno.
      destruct refused as [b|]; [|exact Hd].
      destruct Hd as (l1 & ib & l2 & -> & Hb & Hdis & Hneg).
      exists (i0 :: l1), ib, l2. split; [reflexivity|]. split; [exact Hb|].
      split; [|exact Hneg]. cbn [app filter]. rewrite Hno. exact Hdis. }
    rewrite Hdi, Hbi in H.
    destruct (dead i0) eqn:Hd0; [apply Hskip; [reflexivity|exact H]|].
    destruct (before_cb i0) as [cb|] eqn:Hb0; [|apply Hskip; [reflexivity|exact H]].
    clear Hskip. inv_bind_as H [w1 ret].
    pose proof (view_invoke_before _ _ _ _ _ _ Hq Hm) as Hv1.
    destruct (invoke_before_trace _ _ _ _ _ _ Hm) as (din & Ht1 & Hdin & _).
    rewrite Hai in Ht1.
    assert (Hdis1 : dispatches (din ++ [ev_before (addr i0) ret]) = [d_before (addr i0)]).
    { rewrite dispatches_app, dispatches_no_dispatch by exact Hdin. reflexivity. }
    assert (Hhb : forall l', hooked_before (i0 :: l') = addr i0 :: hooked_before l').
    { intros l'. unfold hooked_before. cbn [filter]. rewrite Hd0, Hb0. reflexivity. }
    destruct (ret <? 0) eqn:Hret.
    + injection H as <- <-. split; [congruence|].
      exists (din ++ [ev_before (addr i0) ret]). split; [exact Ht1|].
      exists [], i0, l. split; [reflexivity|]. split; [reflexivity|].
      split; [rewrite Hdis1; cbn [app]; rewrite Hhb; reflexivity|].
      intros a r Hin _. apply in_app_or in Hin. destruct Hin as [Hin|[Hin|[]]].
      * destruct (in_no_dispatch_before _ _ _ Hdin Hin).
      * injection Hin as <- _. reflexivity.
    + apply Z.ltb_ge in Hret.
      destruct (IH _ _ _ _ Hpre (eq_trans Hv1 Hv) H) as (Hv' & d & Ht & Hd).
      split; [exact Hv'|].
      exists ((din ++ [ev_before (addr i0) ret]) ++ d).
      split; [rewrite Ht, Ht1, <- !app_assoc; reflexivity|].
      rewrite dispatches_app, Hdis1.
      assert (Hev : forall a r, In (ev_before a r) (din ++ [ev_before (addr i0) ret]) ->
                0 <= r).
      { intros a r Hin. apply in_app_or in Hin. destruct Hin as [Hin|[Hin|[]]].
        - destruct (in_no_dispatch_before _ _ _ Hdin Hin).
        - injection Hin as _ <-. exact Hret. }
      destruct refused as [b|].
      * destruct Hd as (l1 & ib & l2 & -> & Hb & Hdis & Hneg).
        exists (i0 :: l1), ib, l2. split; [reflexivity|]. split; [exact Hb|].
        split; [cbn [app]; rewrite Hhb, Hdis; reflexivity|].
        intros a r Hin Hr. apply in_app_or in Hin. destruct Hin as [Hin|Hin].
        -- specialize (Hev _ _ Hin). lia.
        -- eauto.
      * destruct Hd as [Hdis Hpos]. split; [rewrite Hhb, Hdis; reflexivity|].
        intros a r Hin. apply in_app_or in Hin. destruct Hin as [Hin|Hin]; eauto.
Qed.

Lemma prev_from_addr before a l : prev_from before a l = prev_addr before a (map addr l).
Proof.
  revert before. induction l as [|i l IH]; intros before; cbn; [reflexivity|].
  destruct (Nat.eqb (addr i) a); auto.
Qed.

Lemma prev_addr_spec before a A1 A2 :
  ~ In a A1 ->
  prev_addr before a (A1 ++ a :: A2)
  = match rev A1 with [] => before | x :: _ => Some x end.
Proof.
  revert before. induction A1 as [|x A1 IH]; intros before Hni; cbn.
  - rewrite Nat.eqb_refl. reflexivity.
  - destruct (Nat.eqb x a) eqn:Hx.
    + apply Nat.eqb_eq in Hx. destruct Hni. left. exact Hx.
    + rewrite IH by (intros Hin; apply Hni; right; exact Hin).
      destruct (rev A1); reflexivity.
Qed.

Lemma view_addrs l l0 : map view_of l = map view_of l0 -> map addr l = map addr l0.
Proof.
  intros H.
  assert (Hx : forall l1, map addr l1 = map (fun v => fst (fst (fst v))) (map view_of l1))
    by (intros; rewrite map_map; reflexivity).
  rewrite (Hx l), (Hx l0), H. reflexivity.
Qed.


Lemma after_loop_events E ne todo w w' :
  after_loop E ne todo w = Ok w' -> extends_by rewind_phase_event w w'.
Proof.
  revert w. induction todo as [|a todo IH]; intros w H; cbn in H.
  - injection H as <-. apply extends_by_refl.
  - destruct (find_item a (items (rtpoll w))) as [i|]; [|discriminate].
    destruct (dead i); [eauto|].
    destruct (after_cb i) as [cb|]; [|eauto].
    inv_bind_as H w1. inv_bind_as H w2.
    destruct (invoke_after_trace _ _ _ _ _ Hm0) as (d & Ht & Hd & _).
    assert (Ht1 : trace w1 = trace w).
    { destruct ne; [apply clear_item_revents_slice in Hm; tauto|injection Hm as <-; reflexivity]. }
    eapply extends_by_trans; [|eauto].
    exists (ev_after (addr i) (item_slice (rtpoll w1) i) :: d).
    split; [rewrite Ht, Ht1; reflexivity|]. constructor; [reflexivity|].
    eapply Forall_impl; [|exact Hd]. intros e. destruct e; cbn; congruence.
Qed.

Lemma sleep_waits E w w' r se : sleep E w = (w', r, se) -> extends_by is_wait w w'.
Proof.
  assert (Hw : forall b w1 r1, wait_syscall E b w = (w1, r1) -> extends_by is_wait w w1).
  { intros b w1 r1 H. unfold wait_syscall in H. injection H as <- _.
    eexists [_]. split; [reflexivity|]. repeat constructor. }
  intros H. unfold sleep in H.
  destruct (HAVE_PPOLL E); [destruct (linux E);
    [destruct (negb (dont_use_ppoll (rtpoll w)))|]|].
  - destruct (wait_syscall E true w) as [w1 r1] eqn:Hs. injection H as <- _ _. eauto.
  - injection H as <- _ _. apply extends_by_refl.
  - destruct (wait_syscall E true w) as [w1 r1] eqn:Hs. injection H as <- _ _. eauto.
  - destruct (wait_syscall E false w) as [w1 r1] eqn:Hs. injection H as <- _ _. eauto.
Qed.




(** The scenario of the specification: items A, B, C (addresses 2, 1,
    0) are visited in this order and B refuses; A's after-hook runs
    once, B's and C's do not, C's before-hook does not, and there is no
    system call. *)
Example refusal_of_the_second_item :
  exists w w',
    three_hooked_items refusing_env = Ok w
    /\ map addr (items (rtpoll w)) = [2; 1; 0]%nat
    /\ pa_rtpoll_run refusing_env 3 w = Ok (w', 0)
    /\ dispatches (skipn (length (trace w)) (trace w'))
       = [d_before 2; d_before 1; d_after 2].
Proof.
  eexists _, _. split; [vm_compute; reflexivity|]. split; [reflexivity|].
  split; vm_compute; reflexivity.
Qed.


(** A hook that frees an item already visited: the rewind passes over
    the item at address 2, which is dead by then, and calls the
    after-hook of the item at address 1 only. *)
Example rewind_skips_item_freed_by_hook :
  exists w w',
    three_hooked_items freeing_env = Ok w
    /\ pa_rtpoll_run freeing_env 3 w = Ok (w', 0)
    /\ dispatches (skipn (length (trace w)) (trace w'))
       = [d_before 2; d_before 1; d_before 0; d_after 1].
Proof.
  eexists _, _. split; [vm_compute; reflexivity|]. split; vm_compute; reflexivity.
Qed.

Lemma layout_ok_initial E : layout_ok (initial_world E).
Proof.
  unfold layout_ok. splits.
  - reflexivity.
  - constructor.
  - cbn. unfold pa_xnew_pollfd. rewrite repeat_length. reflexivity.
  - cbn. unfold pa_xnew_pollfd. rewrite repeat_length. reflexivity.
  - reflexivity.
Qed.



(** ** The bound on the rewind is never met by quiet hooks *)

Lemma bind_fuel_ok {A B : Type} (m : outcome A) (k : A -> outcome B) :
  fuel_ok m -> (forall a, m = Ok a -> fuel_ok (k a)) -> fuel_ok (bind m k).
Proof.
  intros Hm Hk. destruct m as [a|f]; cbn; [apply Hk; reflexivity|].
  unfold fuel_ok in *. intros H. apply Hm. injection H as ->. reflexivity.
Qed.

Ltac fuel_base :=
  lazymatch goal with
  | |- fuel_ok (Ok _) => unfold fuel_ok; discriminate
  | |- fuel_ok (Fault assertion_failed) => unfold fuel_ok; discriminate
  | |- fuel_ok (Fault invalid_pointer) => unfold fuel_ok; discriminate
  end.

Lemma pa_assert_fuel_ok b : fuel_ok (pa_assert b).
Proof. destruct b; cbn; fuel_base. Qed.

Lemma read_slots_fuel_ok buf off n : fuel_ok (read_slots buf off n).
Proof.
  unfold read_slots.
  destruct ((0 <=? off) && (0 <=? n) && (off + n <=? Z.of_nat (length buf))); fuel_base.
Qed.

Lemma write_slots_fuel_ok buf off data : fuel_ok (write_slots buf off data).
Proof.
  unfold write_slots.
  destruct ((0 <=? off) && (off + Z.of_nat (length data) <=? Z.of_nat (length buf)));
    fuel_base.
Qed.

Lemma rebuild_items_fuel_ok active l : forall e scratch,
  fuel_ok (rebuild_items active l e scratch).
Proof.
  induction l as [|i l IH]; intros e scratch; cbn [rebuild_items]; [fuel_base|].
  apply bind_fuel_ok.
  - destruct (0 <? n_pollfd i); [|fuel_base].
    apply bind_fuel_ok.
    + destruct (item_pollfd i); [apply read_slots_fuel_ok|fuel_base].
    + intros src _. apply bind_fuel_ok; [apply write_slots_fuel_ok|].
      intros s _. fuel_base.
  - intros [i' s'] _. apply bind_fuel_ok; [apply IH|].
    intros [[l' e'] s''] _. fuel_base.
Qed.

Lemma rtpoll_rebuild_fuel_ok E p : fuel_ok (rtpoll_rebuild E p).
Proof.
  unfold rtpoll_rebuild. apply bind_fuel_ok; [apply rebuild_items_fuel_ok|].
  intros [[l e] s] _. apply bind_fuel_ok; [apply pa_assert_fuel_ok|].
  intros u _. fuel_base.
Qed.

Lemma rtpoll_item_destroy_fuel_ok E a w : fuel_ok (rtpoll_item_destroy E a w).
Proof.
  unfold rtpoll_item_destroy. destruct (find_item a (items (rtpoll w))); fuel_base.
Qed.

Lemma pa_rtpoll_item_new_fuel_ok n w : fuel_ok (pa_rtpoll_item_new n w).
Proof.
  unfold pa_rtpoll_item_new. apply bind_fuel_ok; [apply pa_assert_fuel_ok|].
  intros u _. destruct (flist w); fuel_base.
Qed.

Lemma pa_rtpoll_item_free_fuel_ok E a w : fuel_ok (pa_rtpoll_item_free E a w).
Proof.
  unfold pa_rtpoll_item_free.
  destruct (find_item a (items (rtpoll (log (ev_item_free a) w)))); [|fuel_base].
  destruct (running (rtpoll (log (ev_item_free a) w)));
    [fuel_base|apply rtpoll_item_destroy_fuel_ok].
Qed.

Lemma pa_rtpoll_item_get_pollfd_fuel_ok E a w : fuel_ok (pa_rtpoll_item_get_pollfd E a w).
Proof.
  unfold pa_rtpoll_item_get_pollfd.
  destruct (find_item a (items (rtpoll w))); [|fuel_base].
  apply bind_fuel_ok.
  - destruct (rebuild_needed (rtpoll w)); [|fuel_base].
    apply bind_fuel_ok; [apply rtpoll_rebuild_fuel_ok|]. intros p1 _. fuel_base.
  - intros w1 _. destruct (find_item a (items (rtpoll w1))); fuel_base.
Qed.

Lemma store_through_fuel_ok ptr j f w : fuel_ok (store_through ptr j f w).
Proof.
  unfold store_through. destruct ptr; [|fuel_base].
  apply bind_fuel_ok; [apply read_slots_fuel_ok|]. intros old _.
  apply bind_fuel_ok; [apply write_slots_fuel_ok|]. intros buf _. fuel_base.
Qed.

Lemma update_item_checked_fuel_ok a f w : fuel_ok (update_item_checked a f w).
Proof.
  unfold update_item_checked. destruct (find_item a (items (rtpoll w))); fuel_base.
Qed.

Lemma new_adapter_item_fuel_ok E d b a h w : fuel_ok (new_adapter_item E d b a h w).
Proof.
  unfold new_adapter_item. apply bind_fuel_ok; [apply pa_assert_fuel_ok|]. intros u _.
  apply bind_fuel_ok; [apply pa_rtpoll_item_new_fuel_ok|]. intros [w1 i1] _.
  apply bind_fuel_ok; [apply pa_rtpoll_item_get_pollfd_fuel_ok|]. intros [w2 ptr] _.
  apply bind_fuel_ok; [apply store_through_fuel_ok|]. intros w3 _.
  apply bind_fuel_ok; [apply update_item_checked_fuel_ok|]. intros w4 _. fuel_base.
Qed.

Lemma exec_call_fuel_ok E c w : fuel_ok (exec_call E c w).
Proof.
  destruct c; cbn [exec_call]; try fuel_base.
  - apply bind_fuel_ok; [apply pa_rtpoll_item_new_fuel_ok|]. intros [w1 a1] _. fuel_base.
  - apply pa_rtpoll_item_free_fuel_ok.
  - apply bind_fuel_ok; [apply pa_rtpoll_item_get_pollfd_fuel_ok|].
    intros [w1 a1] _. fuel_base.
  - apply bind_fuel_ok; [apply pa_rtpoll_item_get_pollfd_fuel_ok|].
    intros [w1 a1] _. apply store_through_fuel_ok.
  - apply update_item_checked_fuel_ok.
  - apply update_item_checked_fuel_ok.
  - apply update_item_checked_fuel_ok.
  - apply bind_fuel_ok; [apply new_adapter_item_fuel_ok|]. intros [w1 a1] _. fuel_base.
  - apply bind_fuel_ok; [apply new_adapter_item_fuel_ok|]. intros [w1 a1] _. fuel_base.
Qed.

Lemma exec_script_fuel_ok E s : forall w, fuel_ok (exec_script E s w).
Proof.
  induction s as [|c s IH]; intros w; cbn [exec_script]; [fuel_base|].
  apply bind_fuel_ok; [apply exec_call_fuel_ok|]. intros w1 _. apply IH.
Qed.

Lemma assert_only_pollin_fuel_ok i w : fuel_ok (assert_only_pollin i w).
Proof.
  unfold assert_only_pollin. destruct (item_pollfd i); [|fuel_base].
  apply bind_fuel_ok; [apply read_slots_fuel_ok|]. intros s _. apply pa_assert_fuel_ok.
Qed.

Lemma invoke_before_fuel_ok E cb i w : fuel_ok (invoke_before E cb i w).
Proof.
  unfold invoke_before. apply bind_fuel_ok.
  - destruct cb; [unfold fdsem_before; fuel_base|unfold asyncmsgq_before; fuel_base|].
    destruct (client_before_hook E k (addr i) w) as [script ret].
    apply bind_fuel_ok; [apply exec_script_fuel_ok|]. intros w1 _. fuel_base.
  - intros [w1 ret] _. fuel_base.
Qed.

Lemma invoke_after_fuel_ok E cb i w : fuel_ok (invoke_after E cb i w).
Proof.
  unfold invoke_after. destruct cb.
  - unfold fdsem_after. apply bind_fuel_ok; [apply assert_only_pollin_fuel_ok|].
    intros u _. fuel_base.
  - unfold asyncmsgq_after. apply bind_fuel_ok; [apply assert_only_pollin_fuel_ok|].
    intros u _. fuel_base.
  - apply exec_script_fuel_ok.
Qed.

Lemma before_loop_fuel_ok E todo : forall w, fuel_ok (before_loop E todo w).
Proof.
  induction todo as [|a todo IH]; intros w; cbn [before_loop]; [fuel_base|].
  destruct (find_item a (items (rtpoll w))) as [i|]; [|fuel_base].
  destruct (dead i); [apply IH|].
  destruct (before_cb i) as [cb|]; [|apply IH].
  apply bind_fuel_ok; [apply invoke_before_fuel_ok|]. intros [w1 ret] _.
  destruct (ret <? 0); [fuel_base|apply IH].
Qed.

Lemma clear_item_revents_fuel_ok i w : fuel_ok (clear_item_revents i w).
Proof.
  unfold clear_item_revents. destruct (n_pollfd i <=? 0); [fuel_base|].
  destruct (item_pollfd i); [|fuel_base].
  apply bind_fuel_ok; [apply read_slots_fuel_ok|]. intros old _.
  apply bind_fuel_ok; [apply write_slots_fuel_ok|]. intros buf _. fuel_base.
Qed.

Lemma after_loop_fuel_ok E ne todo : forall w, fuel_ok (after_loop E ne todo w).
Proof.
  induction todo as [|a todo IH]; intros w; cbn [after_loop]; [fuel_base|].
  destruct (find_item a (items (rtpoll w))) as [i|]; [|fuel_base].
  destruct (dead i); [apply IH|].
  destruct (after_cb i) as [cb|]; [|apply IH].
  apply bind_fuel_ok.
  - destruct ne; [apply clear_item_revents_fuel_ok|fuel_base].
  - intros w1 _. apply bind_fuel_ok; [apply invoke_after_fuel_ok|]. intros w2 _. apply IH.
Qed.

Lemma reap_loop_fuel_ok E todo : forall w, fuel_ok (reap_loop E todo w).
Proof.
  induction todo as [|a todo IH]; intros w; cbn [reap_loop]; [fuel_base|].
  destruct (find_item a (items (rtpoll w))) as [i|]; [|fuel_base].
  destruct (dead i); [|apply IH].
  apply bind_fuel_ok; [apply rtpoll_item_destroy_fuel_ok|]. intros w1 _. apply IH.
Qed.

Lemma finish_fuel_ok E r se w : fuel_ok (finish E r se w).
Proof.
  unfold finish. apply bind_fuel_ok.
  - destruct (scan_for_dead (rtpoll (set_rtpoll (set_running false (rtpoll w)) w)));
      [apply reap_loop_fuel_ok|fuel_base].
  - intros w1 _. fuel_base.
Qed.

Lemma rewind_fuel_ok E l0 :
  quiet_hooks E -> NoDup (map addr l0) ->
  forall rp rest fuel w,
    l0 = rev rp ++ rest -> view w = map view_of l0 ->
    (length rp <= fuel)%nat ->
    fuel_ok (rewind E fuel (match rp with [] => None | j :: _ => Some (addr j) end) w).
Proof.
  intros Hq Hnd. induction rp as [|j rp IH]; intros rest fuel w Hl Hv Hfuel.
  - destruct fuel; cbn; fuel_base.
  - destruct fuel as [|fuel]; [cbn in Hfuel; lia|]. cbn [rewind].
    assert (Hl' : l0 = rev rp ++ j :: rest)
      by (rewrite Hl; cbn [rev]; rewrite <- app_assoc; reflexivity).
    assert (Hprev : forall w1, view w1 = map view_of l0 ->
              prev_of (addr j) (items (rtpoll w1))
              = match rp with [] => None | j' :: _ => Some (addr j') end).
    { intros w1 Hv1. unfold prev_of. rewrite prev_from_addr.
      rewrite (view_addrs _ _ Hv1), Hl', map_app. cbn [map].
      rewrite prev_addr_spec.
      - rewrite <- map_rev, rev_involutive. destruct rp; reflexivity.
      - rewrite Hl', map_app in Hnd. cbn [map] in Hnd.
        eapply NoDup_app_not_in; eauto. }
    assert (Hf : (length rp <= fuel)%nat) by (cbn in Hfuel; lia).
    destruct (find_item (addr j) (items (rtpoll w))) as [i|]; [|fuel_base].
    destruct (dead i); [rewrite (Hprev w Hv); eapply IH; eauto|].
    destruct (after_cb i) as [cb|]; [|rewrite (Hprev w Hv); eapply IH; eauto].
    apply bind_fuel_ok; [apply invoke_after_fuel_ok|]. intros w1 Hw1.
    pose proof (view_invoke_after _ _ _ _ _ Hq Hw1) as Hv1.
    rewrite (Hprev w1 (eq_trans Hv1 Hv)). eapply IH; eauto. congruence.
Qed.

(** With hooks that make quiet calls only, a cycle given as much fuel as
    there are linked items is never cut off: the rewind visits each item
    before the refusing one once. *)
Lemma pa_rtpoll_run_fuel_ok E fuel w :
  quiet_hooks E -> NoDup (addrs w) ->
  (length (items (rtpoll w)) <= fuel)%nat ->
  fuel_ok (pa_rtpoll_run E fuel w).
Proof.
  intros Hq Hnd Hfuel. unfold pa_rtpoll_run.
  apply bind_fuel_ok; [apply pa_assert_fuel_ok|]. intros u1 _.
  apply bind_fuel_ok; [apply pa_assert_fuel_ok|]. intros u2 _.
  apply bind_fuel_ok; [apply before_loop_fuel_ok|]. intros [w2 refused] Hb.
  fields in Hb.
  destruct (before_loop_dispatch E (items (rtpoll w)) Hq Hnd (items (rtpoll w)) []
              (set_rtpoll (set_running true (rtpoll w)) w) w2 refused
              eq_refl eq_refl Hb) as (Hv2 & d1 & Ht1 & Hcase).
  destruct refused as [b|].
  - destruct Hcase as (l1 & ib & l2 & Hit & Hb' & _).
    apply bind_fuel_ok; [|intros w3 _; apply finish_fuel_ok].
    assert (Hni : ~ In (addr ib) (map addr l1)).
    { unfold addrs in Hnd. rewrite Hit, map_app in Hnd. cbn [map] in Hnd.
      eapply NoDup_app_not_in; eauto. }
    assert (Hcur : prev_of b (items (rtpoll w2))
                   = match rev l1 with [] => None | j :: _ => Some (addr j) end).
    { unfold prev_of. rewrite prev_from_addr, (view_addrs _ _ Hv2), Hit, map_app.
      cbn [map]. rewrite <- Hb', prev_addr_spec by exact Hni.
      rewrite <- map_rev. destruct (rev l1); reflexivity. }
    rewrite Hcur.
    apply (rewind_fuel_ok E (items (rtpoll w)) Hq Hnd (rev l1) (ib :: l2)); auto.
    + rewrite rev_involutive. exact Hit.
    + rewrite length_rev. rewrite Hit, length_app in Hfuel. lia.
  - apply bind_fuel_ok.
    + destruct (rebuild_needed (rtpoll w2)); [|fuel_base].
      apply bind_fuel_ok; [apply rtpoll_rebuild_fuel_ok|]. intros p1 _. fuel_base.
    + intros w3 _. destruct (sleep E w3) as [[w4 r4] se].
      apply bind_fuel_ok; [apply after_loop_fuel_ok|]. intros w5 _. apply finish_fuel_ok.
Qed.

(** ** The chain of [next] pointers inside a cycle *)

Lemma new_adapter_item_chain E d b a h w w' i :
  new_adapter_item E d b a h w = Ok (w', i) -> addrs w' = i :: addrs w.
Proof.
  intros H. unfold new_adapter_item in H.
  inv_bind_as H u. inv_bind_as H [w1 i1].
  inv_bind_as H [w2 ptr]. inv_bind_as H w3. inv_bind_as H w4.
  injection H as <- <-.
  assert (H1 : addrs w1 = i1 :: addrs w).
  { unfold pa_rtpoll_item_new in Hm0. inv_bind_as Hm0 u0.
    destruct (flist w); injection Hm0 as <- <-; reflexivity. }
  assert (H2 : addrs w2 = addrs w1).
  { unfold pa_rtpoll_item_get_pollfd in Hm1.
    destruct (find_item i1 (items (rtpoll w1))); [|discriminate].
    inv_bind_as Hm1 w5. destruct (find_item i1 (items (rtpoll w5))); [|discriminate].
    injection Hm1 as <- _. destruct (rebuild_needed (rtpoll w1)).
    - inv_bind_as Hm4 p5. injection Hm4 as <-. apply rtpoll_rebuild_keeps in Hm1.
      destruct Hm1 as (Hsk & _). unfold addrs. apply skel_addr. exact Hsk.
    - injection Hm4 as <-. reflexivity. }
  assert (H3 : addrs w3 = addrs w2).
  { unfold store_through in Hm2. destruct ptr; [|discriminate].
    inv_bind_as Hm2 old. inv_bind_as Hm2 buf. injection Hm2 as <-. reflexivity. }
  assert (H4 : addrs w4 = addrs w3).
  { unfold update_item_checked in Hm3.
    destruct (find_item i1 (items (rtpoll w3))); [|discriminate]. injection Hm3 as <-.
    unfold addrs. fields. apply update_item_addr. reflexivity. }
  congruence.
Qed.

Lemma exec_call_keeps_chain E c w w' :
  running (rtpoll w) = true -> exec_call E c w = Ok w' ->
  exists fresh, addrs w' = fresh ++ addrs w.
Proof.
  intros Hrun H.
  assert (Hv : quiet_call c = true -> exists fresh, addrs w' = fresh ++ addrs w).
  { intros Hq. exists []. unfold addrs. apply view_addrs.
    apply (view_exec_call E c w w' Hq H). }
  destruct c; try (apply Hv; reflexivity); clear Hv; cbn [exec_call] in H.
  - inv_bind_as H [w1 a1]. injection H as <-.
    unfold pa_rtpoll_item_new in Hm. inv_bind_as Hm u0.
    destruct (flist w); injection Hm as <- <-; eexists [_]; reflexivity.
  - unfold pa_rtpoll_item_free in H. fields in H.
    destruct (find_item a (items (rtpoll w))); [|discriminate].
    rewrite Hrun in H. injection H as <-. exists []. unfold addrs. fields.
    apply update_item_addr. reflexivity.
  - unfold pa_rtpoll_item_set_before_callback, update_item_checked in H.
    destruct (find_item a (items (rtpoll w))); [|discriminate]. injection H as <-.
    exists []. unfold addrs. fields. apply update_item_addr. reflexivity.
  - unfold pa_rtpoll_item_set_after_callback, update_item_checked in H.
    destruct (find_item a (items (rtpoll w))); [|discriminate]. injection H as <-.
    exists []. unfold addrs. fields. apply update_item_addr. reflexivity.
  - inv_bind_as H [w1 a1]. injection H as <-.
    apply new_adapter_item_chain in Hm. eexists [_]. exact Hm.
  - inv_bind_as H [w1 a1]. injection H as <-.
    apply new_adapter_item_chain in Hm. eexists [_]. exact Hm.
Qed.

(** While a cycle runs, the calls of a hook leave every linked record
    linked and link new records in front of the head only: the chain of
    [next] pointers that a loop has ahead of its cursor stays as it
    was. *)
Lemma exec_script_keeps_chain E s : forall w w',
  running (rtpoll w) = true -> exec_script E s w = Ok w' ->
  exists fresh, addrs w' = fresh ++ addrs w.
Proof.
  induction s as [|c s IH]; intros w w' Hrun H; cbn in H.
  - injection H as <-. exists []. reflexivity.
  - inv_bind_as H w1.
    destruct (exec_call_keeps_chain _ _ _ _ Hrun Hm) as (f1 & H1).
    apply keeps_exec_call in Hm. destruct Hm as (_ & Hr & _).
    destruct (IH _ _ (eq_trans Hr Hrun) H) as (f2 & H2).
    exists (f2 ++ f1). rewrite H2, H1, app_assoc. reflexivity.
Qed.

(** ** The return value outside the Linux build with [ppoll] *)

(** On a build where [saved_errno = errno] follows the system call (no
    [ppoll], or [ppoll] outside Linux), the cycle returns what the system
    call returned, 0 when that is classified as "no events", and [errno]
    at return is the one the system call left. *)
Lemma run_returns_wait_result E fuel w w' r d :
  HAVE_PPOLL E && linux E = false ->
  pa_rtpoll_run E fuel w = Ok (w', r) ->
  trace w' = trace w ++ d ->
  forall fds t ret err,
    In (ev_wait fds t ret err) d ->
    r = (if is_no_events ret err then 0 else ret) /\ errno w' = err.
Proof.
  intros Hbuild H Ht fds t ret err Hin. unfold pa_rtpoll_run in H.
  inv_bind_as H u1. inv_bind_as H u2. inv_bind_as H [w2 refused].
  apply before_loop_events in Hm1. destruct Hm1 as [(d1 & Ht1 & Hd1) _]. fields in Ht1.
  destruct refused as [a|].
  - exfalso. inv_bind_as H w3. apply rewind_events in Hm1.
    destruct Hm1 as [(d2 & Ht2 & Hd2) _].
    apply finish_events in H. destruct H as ((d3 & Ht3 & Hd3) & _).
    rewrite Ht3, Ht2, Ht1, <- !app_assoc in Ht. apply app_inv_head in Ht. subst d.
    rewrite Forall_forall in Hd1, Hd2, Hd3.
    apply in_app_or in Hin. destruct Hin as [Hin|Hin]; [specialize (Hd1 _ Hin); discriminate|].
    apply in_app_or in Hin. destruct Hin as [Hin|Hin]; [specialize (Hd2 _ Hin); discriminate|].
    specialize (Hd3 _ Hin); discriminate.
  - inv_bind_as H w3.
    assert (Ht3 : trace w3 = trace w2).
    { destruct (rebuild_needed (rtpoll w2)).
      - inv_bind_as Hm1 p3. injection Hm1 as <-. reflexivity.
      - injection Hm1 as <-. reflexivity. }
    destruct (sleep E w3) as [[w4 r4] se] eqn:Hsl.
    apply sleep_events in Hsl. destruct Hsl as [_ Hs].
    destruct (Hs Hbuild) as (Hse & fds4 & t4 & Ht4). clear Hs.
    inv_bind_as H w5.
    destruct (advance_timer_keeps E w4) as [Hta Hea].
    apply after_loop_events in Hm2. destruct Hm2 as (d5 & Ht5 & Hd5).
    apply finish_events in H. destruct H as ((d6 & Ht6 & Hd6) & He & Hr).
    rewrite Ht6, Ht5, Hta, Ht4, Ht3, Ht1, <- !app_assoc in Ht.
    apply app_inv_head in Ht. subst d.
    rewrite Forall_forall in Hd1, Hd5, Hd6.
    apply in_app_or in Hin. destruct Hin as [Hin|Hin]; [specialize (Hd1 _ Hin); discriminate|].
    cbn [app] in Hin. destruct Hin as [Hin|Hin].
    + injection Hin as _ _ <- <-. rewrite Hea in Hr. split; [exact Hr|congruence].
    + apply in_app_or in Hin.
      destruct Hin as [Hin|Hin]; [specialize (Hd5 _ Hin); discriminate|].
      specialize (Hd6 _ Hin); discriminate.
Qed.

(** ** [layout_ok] is kept by creation and by the rebuild *)

Lemma layout_ok_item_new w n w' a :
  layout_ok w -> slot_sum (items (rtpoll w)) + n < 2 ^ 30 ->
  pa_rtpoll_item_new n w = Ok (w', a) -> layout_ok w'.
Proof.
  intros (Hcnt & Hall & Hl1 & Hl2 & Hsum) Hn H.
  assert (Hpos : 0 < n).
  { unfold pa_rtpoll_item_new in H. inv_bind_as H u. apply pa_assert_ok in Hm.
    apply Z.ltb_lt. exact Hm. }
  destruct (pa_rtpoll_item_new_fields n w Hpos) as (w1 & a1 & Hnew & Hp & _).
  rewrite Hnew in H. injection H as <- <-.
  unfold layout_ok, count_ok. rewrite Hp. fields.
  change (slot_sum (mk_item a1 false None n None None 0 :: items (rtpoll w)))
    with (n + slot_sum (items (rtpoll w))).
  splits; auto; try lia.
  - unfold count_ok in Hcnt. rewrite Hcnt, u32_add_l. f_equal. lia.
  - constructor; [split; [exact Hpos|exact I]|exact Hall].
Qed.

Lemma layout_ptr_ok (L : list struct_pollfd) : forall l l' e,
  map item_pollfd l' = layout e l -> map skel l' = map skel l ->
  Forall (fun i => 0 < n_pollfd i) l ->
  0 <= e -> e + slot_sum l <= Z.of_nat (length L) ->
  Forall (fun i => 0 < n_pollfd i /\ ptr_ok L i) l'.
Proof.
  induction l as [|i l IH]; intros l' e Hlay Hsk Hall He Hfit.
  - destruct l'; [constructor|discriminate].
  - destruct l' as [|i' l']; [discriminate|].
    cbn [map layout] in Hlay, Hsk.
    inversion Hall as [|x xs Hi Hall']; subst.
    assert (Hsi : skel i' = skel i)
      by (change (hd (skel i) (skel i' :: map skel l') = skel i); rewrite Hsk; reflexivity).
    assert (Hsl : map skel l' = map skel l)
      by (change (tl (skel i' :: map skel l') = map skel l); rewrite Hsk; reflexivity).
    assert (Hpi : item_pollfd i' = (if 0 <? n_pollfd i then Some e else None))
      by (injection Hlay; auto).
    assert (Hpl : map item_pollfd l' = layout (e + n_pollfd i) l)
      by (injection Hlay; auto).
    assert (Hni : n_pollfd i' = n_pollfd i)
      by (change (snd (fst (fst (fst (skel i')))) = n_pollfd i); rewrite Hsi; reflexivity).
    assert (Hs : 0 <= slot_sum l).
    { apply slot_sum_nonneg. eapply Forall_impl; [|exact Hall']. cbn. intros; lia. }
    change (slot_sum (i :: l)) with (n_pollfd i + slot_sum l) in Hfit.
    constructor.
    + split; [lia|]. unfold ptr_ok. rewrite Hpi, Hni.
      destruct (0 <? n_pollfd i); [lia|exact I].
    + apply (IH l' (e + n_pollfd i)); auto; lia.
Qed.

Lemma layout_ok_rebuild E w :
  layout_ok w ->
  exists p, rtpoll_rebuild E (rtpoll w) = Ok p /\ layout_ok (set_rtpoll p w)
            /\ rebuild_needed p = false.
Proof.
  intros (Hcnt & Hall & Hl1 & Hl2 & Hsum).
  assert (Hs0 : 0 <= slot_sum (items (rtpoll w))).
  { apply slot_sum_nonneg. eapply Forall_impl; [|exact Hall]. cbn. intros; lia. }
  assert (Hu : n_pollfd_used (rtpoll w) = slot_sum (items (rtpoll w))).
  { unfold count_ok, u32 in Hcnt. rewrite Z.mod_small in Hcnt by lia. exact Hcnt. }
  destruct (rtpoll_rebuild_ok E (rtpoll w)) as (p & Hre & Hlay & Hla & Hlb & Hle & _); auto.
  { eapply Forall_impl; [|exact Hall]. cbn. intros i [H1 H2]. split; [lia|exact H2]. }
  { lia. }
  exists p. split; [exact Hre|].
  destruct (rtpoll_rebuild_keeps E _ _ Hre) as (Hsk & _ & _ & Hused & _ & _ & _ & _ & _ & Hrn).
  split; [|exact Hrn].
  unfold layout_ok, count_ok. fields.
  rewrite (skel_slot_sum _ _ Hsk), Hused. splits; auto.
  apply (layout_ptr_ok (pollfd p) (items (rtpoll w)) (items p) 0); auto; try lia.
  eapply Forall_impl; [|exact Hall]. cbn. tauto.
Qed.

(** ** Deferred reclamation (C7) *)


















(** * Further properties *)

(** ** What the rebuild copies *)

Lemma slot_sum_cons i l : slot_sum (i :: l) = n_pollfd i + slot_sum l.
Proof. reflexivity. Qed.

Lemma copied_length active i :
  0 <= n_pollfd i -> ptr_ok active i -> length (copied active i) = Z.to_nat (n_pollfd i).
Proof.
  unfold copied, ptr_ok. intros Hn Hp. destruct (item_pollfd i) as [off|].
  - rewrite length_firstn, length_skipn. lia.
  - apply repeat_length.
Qed.

(** One turn of the loop of [rtpoll_rebuild]. *)
Lemma rebuild_item_step active i e scratch i1 s1 :
  0 <= e -> 0 <= n_pollfd i ->
  (if 0 <? n_pollfd i then
     src <- match item_pollfd i with
            | Some off => read_slots active off (n_pollfd i)
            | None => Ok (repeat pollfd_zero (Z.to_nat (n_pollfd i)))
            end ;;
     s <- write_slots scratch e src ;;
     Ok (set_item_pollfd (Some e) i, s)
   else Ok (set_item_pollfd None i, scratch)) = Ok (i1, s1) ->
  length s1 = length scratch
  /\ firstn (Z.to_nat (e + n_pollfd i)) s1 = firstn (Z.to_nat e) scratch ++ copied active i.
Proof.
  intros He Hn H. destruct (0 <? n_pollfd i) eqn:Hpos.
  - inv_bind_as H src. inv_bind_as H s. injection H as _ <-.
    assert (Hsrc : src = copied active i /\ length src = Z.to_nat (n_pollfd i)).
    { unfold copied. destruct (item_pollfd i) as [off|].
      - apply read_slots_inv in Hm. destruct Hm as (H1 & H2 & H3 & ->).
        split; [reflexivity|]. rewrite length_firstn, length_skipn. lia.
      - injection Hm as <-. split; [reflexivity|apply repeat_length]. }
    destruct Hsrc as [Hsrc Hlen]. rewrite <- Hsrc.
    assert (Hfit : e + Z.of_nat (length src) <= Z.of_nat (length scratch)).
    { unfold write_slots in Hm0.
      destruct ((0 <=? e) && (e + Z.of_nat (length src) <=? Z.of_nat (length scratch))) eqn:Hb;
        [|discriminate].
      apply andb_true_iff in Hb. destruct Hb as [_ Hb2]. apply Z.leb_le in Hb2. exact Hb2. }
    destruct (write_slots_ok scratch e src He Hfit) as (b & Hw & Hlb & Hpre & Hdat).
    rewrite Hw in Hm0. injection Hm0 as <-. split; [exact Hlb|].
    replace (Z.to_nat (e + n_pollfd i)) with (Z.to_nat e + length src)%nat by lia.
    rewrite <- (firstn_skipn (Z.to_nat e) (firstn (Z.to_nat e + length src) b)).
    rewrite firstn_firstn, Nat.min_l by lia.
    rewrite Hpre by lia. f_equal.
    rewrite skipn_firstn_comm.
    replace (Z.to_nat e + length src - Z.to_nat e)%nat with (length src) by lia.
    exact Hdat.
  - injection H as _ <-. split; [reflexivity|]. apply Z.ltb_ge in Hpos.
    assert (Hz : n_pollfd i = 0) by lia. rewrite Hz, Z.add_0_r.
    unfold copied. rewrite Hz. change (Z.to_nat 0) with 0%nat.
    destruct (item_pollfd i); cbn; rewrite app_nil_r; reflexivity.
Qed.

Lemma rebuild_items_contents active : forall l e scratch l' e' scratch',
  0 <= e ->
  Forall (fun i => 0 <= n_pollfd i /\ ptr_ok active i) l ->
  e + slot_sum l <= Z.of_nat (length scratch) ->
  rebuild_items active l e scratch = Ok (l', e', scratch') ->
  firstn (Z.to_nat (e + slot_sum l)) scratch'
  = firstn (Z.to_nat e) scratch ++ flat_map (copied active) l.
Proof.
  induction l as [|i l IH]; intros e scratch l' e' scratch' He Hall Hfit H.
  - cbn in H. injection H as _ _ <-. cbn [flat_map]. rewrite app_nil_r.
    unfold slot_sum. cbn. rewrite Z.add_0_r. reflexivity.
  - inversion Hall as [|x xs [Hn Hp] Hall']; subst.
    assert (Hs : 0 <= slot_sum l).
    { apply slot_sum_nonneg. eapply Forall_impl; [|exact Hall']. cbn. tauto. }
    rewrite slot_sum_cons in *.
    cbn [rebuild_items] in H.
    inv_bind_as H [i1 s1]. inv_bind_as H [[l1 e1] s2]. injection H as _ _ <-.
    destruct (rebuild_item_step _ _ _ _ _ _ He Hn Hm) as [Hl1 Hc1].
    destruct (rebuild_items_ok active l (e + n_pollfd i) s1)
      as (lx & sx & Hre & _ & Hpre2 & _); [lia|exact Hall'|lia|].
    rewrite Hre in Hm0. injection Hm0 as <- <- <-.
    rewrite Z.add_assoc.
    rewrite (IH (e + n_pollfd i) s1 lx (e + n_pollfd i + slot_sum l) sx);
      [|lia|exact Hall'|lia|exact Hre].
    cbn [flat_map]. rewrite app_assoc, Hc1. reflexivity.
Qed.

(** The slices of the items laid out at [e] over a packed array. *)
Lemma packed_slices (g : pa_rtpoll_item -> list struct_pollfd) : forall l l' e pre buf,
  0 <= e -> length pre = Z.to_nat e ->
  Forall (fun i => 0 < n_pollfd i /\ length (g i) = Z.to_nat (n_pollfd i)) l ->
  map skel l' = map skel l ->
  map item_pollfd l' = layout e l ->
  firstn (Z.to_nat (e + slot_sum l)) buf = pre ++ flat_map g l ->
  Forall2 (fun i i' =>
             skel i' = skel i
             /\ firstn (Z.to_nat (n_pollfd i'))
                  (skipn (Z.to_nat (match item_pollfd i' with Some off => off | None => 0 end)) buf)
                = g i) l l'.
Proof.
  induction l as [|i l IH]; intros l' e pre buf He Hpre Hall Hsk Hlay Hbuf.
  - destruct l'; [constructor|discriminate].
  - destruct l' as [|i' l']; [discriminate|].
    inversion Hall as [|x xs [Hn Hg] Hall']; subst.
    cbn [map layout] in Hsk, Hlay.
    assert (Hsi : skel i' = skel i)
      by (change (hd (skel i) (skel i' :: map skel l') = skel i); rewrite Hsk; reflexivity).
    assert (Hsl : map skel l' = map skel l)
      by (change (tl (skel i' :: map skel l') = map skel l); rewrite Hsk; reflexivity).
    assert (Hpi : item_pollfd i' = Some e).
    { assert (Hx : item_pollfd i' = (if 0 <? n_pollfd i then Some e else None))
        by (injection Hlay; auto).
      rewrite Hx. replace (0 <? n_pollfd i) with true; [reflexivity|].
      symmetry. apply Z.ltb_lt. exact Hn. }
    assert (Hpl : map item_pollfd l' = layout (e + n_pollfd i) l)
      by (injection Hlay; auto).
    assert (Hni : n_pollfd i' = n_pollfd i)
      by (change (snd (fst (fst (fst (skel i')))) = n_pollfd i); rewrite Hsi; reflexivity).
    assert (Hs : 0 <= slot_sum l).
    { apply slot_sum_nonneg. eapply Forall_impl; [|exact Hall']. cbn. intros; lia. }
    rewrite slot_sum_cons in Hbuf. cbn [flat_map] in Hbuf.
    constructor.
    + split; [exact Hsi|]. rewrite Hpi, Hni.
      assert (Hx : firstn (Z.to_nat e + Z.to_nat (n_pollfd i)) buf = pre ++ g i).
      { assert (Hy : firstn (Z.to_nat e + Z.to_nat (n_pollfd i))
                       (firstn (Z.to_nat (e + (n_pollfd i + slot_sum l))) buf)
                     = firstn (Z.to_nat e + Z.to_nat (n_pollfd i)) buf)
          by (rewrite firstn_firstn; f_equal; lia).
        rewrite <- Hy, Hbuf, app_assoc, firstn_app.
        rewrite length_app, Hpre, Hg.
        replace (Z.to_nat e + Z.to_nat (n_pollfd i) - (Z.to_nat e + Z.to_nat (n_pollfd i)))%nat
          with 0%nat by lia.
        cbn [firstn]. rewrite app_nil_r. apply firstn_all2.
        rewrite length_app, Hpre, Hg. lia. }
      rewrite firstn_skipn_comm, Hx, skipn_app, Hpre, Nat.sub_diag.
      cbn [skipn]. rewrite skipn_all2 by lia. reflexivity.
    + apply (IH l' (e + n_pollfd i) (pre ++ g i) buf); auto.
      * lia.
      * rewrite length_app, Hpre, Hg. lia.
      * rewrite Z.add_assoc in Hbuf. rewrite Hbuf, app_assoc. reflexivity.
Qed.

Lemma rtpoll_rebuild_inv E p p' :
  rtpoll_rebuild E p = Ok p' ->
  exists e,
    rebuild_items (pollfd p) (items p) 0
      (if n_pollfd_alloc p <? n_pollfd_used p
       then pa_xrealloc_pollfd (xnew_junk E) (pollfd2 p) (u32 (n_pollfd_used p * 2))
       else pollfd2 p)
    = Ok (items p', e, pollfd p')
    /\ n_pollfd_alloc p'
       = (if n_pollfd_alloc p <? n_pollfd_used p
          then u32 (n_pollfd_used p * 2) else n_pollfd_alloc p).
Proof.
  unfold rtpoll_rebuild. fields. intros H.
  destruct (n_pollfd_alloc p <? n_pollfd_used p); fields in H.
  - inv_bind_as H [[l e] sc]. inv_bind_as H u. injection H as <-. fields.
    exists e. split; reflexivity.
  - inv_bind_as H [[l e] sc]. inv_bind_as H u. injection H as <-. fields.
    exists e. split; reflexivity.
Qed.

Lemma layout_ok_used w :
  layout_ok w ->
  0 <= slot_sum (items (rtpoll w))
  /\ n_pollfd_used (rtpoll w) = slot_sum (items (rtpoll w))
  /\ Forall (fun i => 0 <= n_pollfd i /\ ptr_ok (pollfd (rtpoll w)) i) (items (rtpoll w)).
Proof.
  intros (Hcnt & Hall & Hl1 & Hl2 & Hsum).
  assert (Hs0 : 0 <= slot_sum (items (rtpoll w))).
  { apply slot_sum_nonneg. eapply Forall_impl; [|exact Hall]. cbn. intros; lia. }
  split; [exact Hs0|]. split.
  - unfold count_ok, u32 in Hcnt. rewrite Z.mod_small in Hcnt by lia. exact Hcnt.
  - eapply Forall_impl; [|exact Hall]. cbn. intros i [H1 H2]. split; [lia|exact H2].
Qed.

(** The used part of the array that a rebuild makes active. *)
Lemma rebuild_prefix E w p :
  layout_ok w -> rtpoll_rebuild E (rtpoll w) = Ok p ->
  firstn (Z.to_nat (slot_sum (items (rtpoll w)))) (pollfd p)
  = flat_map (copied (pollfd (rtpoll w))) (items (rtpoll w)).
Proof.
  intros Hlo Hre. destruct (layout_ok_used w Hlo) as (Hs0 & Hu & Hall0).
  destruct Hlo as (_ & _ & Hl1 & Hl2 & Hsum).
  destruct (rtpoll_rebuild_inv E _ _ Hre) as (e & Hri & Hal).
  change (firstn (Z.to_nat (0 + slot_sum (items (rtpoll w)))) (pollfd p)
          = [] ++ flat_map (copied (pollfd (rtpoll w))) (items (rtpoll w))).
  eapply (rebuild_items_contents (pollfd (rtpoll w)) (items (rtpoll w)) 0);
    [lia|exact Hall0| |exact Hri].
  destruct (n_pollfd_alloc (rtpoll w) <? n_pollfd_used (rtpoll w)) eqn:Hra.
  - assert (Ha : u32 (n_pollfd_used (rtpoll w) * 2) = n_pollfd_used (rtpoll w) * 2)
      by (unfold u32; apply Z.mod_small; lia).
    rewrite Ha, pa_xrealloc_pollfd_length; lia.
  - apply Z.ltb_ge in Hra. lia.
Qed.

(** The pointers a rebuild hands out, and what they designate. *)
Lemma rebuild_keeps_slots (E : Env) (w : world) :
  layout_ok w ->
  exists p',
    rtpoll_rebuild E (rtpoll w) = Ok p'
    /\ map item_pollfd (items p') = layout 0 (items (rtpoll w))
    /\ Forall2 (fun i i' =>
                  skel i' = skel i
                  /\ item_slice p' i' = copied (pollfd (rtpoll w)) i)
         (items (rtpoll w)) (items p').
Proof.
  intros Hlo. destruct (layout_ok_used w Hlo) as (Hs0 & Hu & Hall0).
  pose proof Hlo as (Hcnt & Hall & Hl1 & Hl2 & Hsum).
  destruct (rtpoll_rebuild_ok E (rtpoll w)) as (p & Hre & Hlay & Hla & Hlb & Hle & _); auto.
  { lia. }
  exists p. split; [exact Hre|]. split; [exact Hlay|].
  destruct (rtpoll_rebuild_keeps E _ _ Hre) as (Hsk & _).
  pose proof (rebuild_prefix E w p Hlo Hre) as Hbuf.
  assert (Hf : Forall2 (fun i i' =>
             skel i' = skel i
             /\ firstn (Z.to_nat (n_pollfd i'))
                  (skipn (Z.to_nat (match item_pollfd i' with Some off => off | None => 0 end))
                     (pollfd p))
                = copied (pollfd (rtpoll w)) i) (items (rtpoll w)) (items p)).
  { apply (packed_slices (copied (pollfd (rtpoll w))) (items (rtpoll w)) (items p) 0 []
             (pollfd p)); auto; try lia.
    eapply Forall_impl; [|exact Hall]. cbn beta. intros i [H1 H2].
    split; [exact H1|]. apply copied_length; [lia|exact H2]. }
  assert (Hp : Forall (fun i' => item_pollfd i' <> None) (items p)).
  { apply Forall_forall. intros i' Hin Hnone.
    assert (Hx : In (item_pollfd i') (layout 0 (items (rtpoll w))))
      by (rewrite <- Hlay; apply in_map; exact Hin).
    rewrite Hnone in Hx. clear - Hx Hall.
    revert Hx. generalize 0. induction Hall as [|i l [Hi _] _ IH]; intros e Hx; [destruct Hx|].
    cbn in Hx. destruct Hx as [Hx|Hx]; [|eauto].
    apply Z.ltb_lt in Hi. rewrite Hi in Hx. discriminate. }
  clear - Hf Hp. induction Hf as [|i i' l l' [H1 H2] _ IH]; [constructor|].
  inversion Hp as [|x xs Hx Hp']; subst. constructor; [|auto].
  split; [exact H1|]. unfold item_slice.
  destruct (item_pollfd i'); [exact H2|congruence].
Qed.


(** ** Slots across a rebuild and a store *)

Lemma Forall2_find_item (R : pa_rtpoll_item -> pa_rtpoll_item -> Prop) l l' a :
  Forall2 (fun i i' => skel i' = skel i /\ R i i') l l' ->
  match find_item a l, find_item a l' with
  | Some i, Some i' => skel i' = skel i /\ R i i'
  | None, None => True
  | _, _ => False
  end.
Proof.
  induction 1 as [|i i' l l' [Hs Hr] _ IH]; cbn; [exact I|].
  assert (Ha : addr i' = addr i)
    by (change (fst (fst (fst (fst (fst (skel i'))))) = addr i); rewrite Hs; reflexivity).
  rewrite Ha. destruct (Nat.eqb (addr i) a); [auto|exact IH].
Qed.

Lemma layout_range : forall l e a i,
  map item_pollfd l = layout e l ->
  Forall (fun i => 0 < n_pollfd i) l ->
  find_item a l = Some i ->
  item_pollfd i <> None
  /\ forall off, item_pollfd i = Some off -> e <= off /\ off + n_pollfd i <= e + slot_sum l.
Proof.
  induction l as [|x l IH]; intros e a i Hlay Hall Hf; [discriminate|].
  inversion Hall as [|y ys Hx Hall']; subst.
  assert (Hs : 0 <= slot_sum l).
  { apply slot_sum_nonneg. eapply Forall_impl; [|exact Hall']. cbn. intros; lia. }
  cbn [map layout] in Hlay. rewrite slot_sum_cons.
  assert (Hpx : item_pollfd x = Some e).
  { assert (Hy : item_pollfd x = (if 0 <? n_pollfd x then Some e else None))
      by (injection Hlay; auto).
    rewrite Hy. replace (0 <? n_pollfd x) with true; [reflexivity|].
    symmetry. apply Z.ltb_lt. exact Hx. }
  assert (Hpl : map item_pollfd l = layout (e + n_pollfd x) l) by (injection Hlay; auto).
  cbn [find_item] in Hf. destruct (Nat.eqb (addr x) a).
  - injection Hf as <-. split; [congruence|]. intros off Ho.
    rewrite Hpx in Ho. injection Ho as <-. lia.
  - destruct (IH _ _ _ Hpl Hall' Hf) as [H1 H2]. split; [exact H1|].
    intros off Ho. specialize (H2 off Ho). lia.
Qed.






Lemma layout_skel l l' : map skel l' = map skel l -> forall e, layout e l' = layout e l.
Proof.
  revert l'. induction l as [|i l IH]; intros [|i' l'] H e; try discriminate; [reflexivity|].
  cbn [map] in H.
  assert (Hsi : skel i' = skel i)
    by (change (hd (skel i) (skel i' :: map skel l') = skel i); rewrite H; reflexivity).
  assert (Hsl : map skel l' = map skel l)
    by (change (tl (skel i' :: map skel l') = map skel l); rewrite H; reflexivity).
  assert (Hni : n_pollfd i' = n_pollfd i)
    by (change (snd (fst (fst (fst (skel i')))) = n_pollfd i); rewrite Hsi; reflexivity).
  cbn [layout]. rewrite Hni, (IH _ Hsl). reflexivity.
Qed.

Lemma layout_ok_positive w :
  layout_ok w -> Forall (fun i => 0 < n_pollfd i) (items (rtpoll w)).
Proof.
  intros (_ & Hall & _). eapply Forall_impl; [|exact Hall]. cbn. tauto.
Qed.

Lemma copied_slice p i : item_pollfd i <> None -> copied (pollfd p) i = item_slice p i.
Proof. unfold copied, item_slice. destruct (item_pollfd i); [reflexivity|congruence]. Qed.

(** What [pa_rtpoll_item_get_pollfd] does, with or without a rebuild. *)
Lemma get_pollfd_spec E w a i :
  layout_ok w -> packed w -> find_item a (items (rtpoll w)) = Some i ->
  exists p1 i1 off,
    pa_rtpoll_item_get_pollfd E a w = Ok (set_rtpoll p1 w, Some off)
    /\ find_item a (items p1) = Some i1
    /\ item_pollfd i1 = Some off
    /\ skel i1 = skel i
    /\ layout_ok (set_rtpoll p1 w)
    /\ rebuild_needed p1 = false
    /\ map item_pollfd (items p1) = layout 0 (items p1)
    /\ map skel (items p1) = map skel (items (rtpoll w))
    /\ (forall b, slots_of (set_rtpoll p1 w) b = slots_of w b)
    /\ (rebuild_needed (rtpoll w) = false -> p1 = rtpoll w).
Proof.
  intros Hlo Hpk Hf. unfold pa_rtpoll_item_get_pollfd. rewrite Hf.
  destruct (rebuild_needed (rtpoll w)) eqn:Hrn.
  - destruct (rebuild_keeps_slots E w Hlo) as (p & Hre & Hlay & Hf2).
    destruct (layout_ok_rebuild E w Hlo) as (p' & Hre' & Hlo' & Hrn').
    rewrite Hre in Hre'. injection Hre' as <-.
    destruct (rtpoll_rebuild_keeps E _ _ Hre) as (Hsk & _).
    rewrite Hre. cbn [bind]. fields.
    assert (Hlay' : map item_pollfd (items p) = layout 0 (items p))
      by (rewrite (layout_skel _ _ Hsk); exact Hlay).
    pose proof (Forall2_find_item _ _ _ a Hf2) as Ha. rewrite Hf in Ha.
    destruct (find_item a (items p)) as [i1|] eqn:Hf1; [|destruct Ha].
    destruct Ha as [Hs1 _].
    destruct (layout_range _ _ _ _ Hlay' (layout_ok_positive _ Hlo') Hf1) as [Hne _].
    destruct (item_pollfd i1) as [off|] eqn:Hoff; [|congruence].
    exists p, i1, off. splits; auto; try discriminate.
    intros b. unfold slots_of. fields.
    pose proof (Forall2_find_item _ _ _ b Hf2) as Hb.
    destruct (find_item b (items (rtpoll w))) as [ib|];
      destruct (find_item b (items p)) as [ib1|] eqn:Hfb; try destruct Hb; [|reflexivity].
    f_equal. rewrite copied_slice; [assumption|].
    apply (layout_range _ _ _ _ Hlay' (layout_ok_positive _ Hlo') Hfb).
  - cbn [bind]. rewrite Hf.
    destruct (layout_range _ _ _ _ (Hpk Hrn) (layout_ok_positive _ Hlo) Hf) as [Hne _].
    destruct (item_pollfd i) as [off|] eqn:Hoff; [|congruence].
    exists (rtpoll w), i, off.
    replace (set_rtpoll (rtpoll w) w) with w by (destruct w; reflexivity).
    splits; auto.
Qed.


Lemma layout_ok_set_pollfd buf w :
  length buf = length (pollfd (rtpoll w)) ->
  layout_ok w -> layout_ok (set_rtpoll (set_pollfd buf (rtpoll w)) w).
Proof.
  intros Hl (Hcnt & Hall & Hl1 & Hl2 & Hsum). unfold layout_ok, count_ok. fields.
  splits; auto; [|congruence].
  eapply Forall_impl; [|exact Hall]. cbn beta. intros i [H1 H2]. split; [exact H1|].
  unfold ptr_ok in *. destruct (item_pollfd i); [|exact I]. rewrite Hl. exact H2.
Qed.

Lemma find_item_In a l i : find_item a l = Some i -> In i l /\ addr i = a.
Proof.
  induction l as [|x l IH]; [discriminate|]. cbn.
  destruct (Nat.eqb (addr x) a) eqn:Hx.
  - intros H. injection H as <-. split; [left; reflexivity|apply Nat.eqb_eq; exact Hx].
  - intros H. destruct (IH H). split; [right|]; assumption.
Qed.




(** ** The capacity of the arrays *)

(** X2: on a poll set whose bookkeeping is sound [rtpoll_rebuild]
    returns (its assertion holds); it leaves no rebuild pending and
    keeps the bookkeeping sound; the capacity is doubled to twice the
    slots in use when they exceed it and is otherwise kept, so that the
    slots in use fit; and both arrays have exactly the capacity
    recorded. *)
Theorem rebuild_grows_capacity (E : Env) (w : world) :
  layout_ok w ->
  exists p',
    rtpoll_rebuild E (rtpoll w) = Ok p'
    /\ rebuild_needed p' = false
    /\ n_pollfd_used p' = n_pollfd_used (rtpoll w)
    /\ n_pollfd_alloc p'
       = (if n_pollfd_alloc (rtpoll w) <? n_pollfd_used (rtpoll w)
          then 2 * n_pollfd_used (rtpoll w) else n_pollfd_alloc (rtpoll w))
    /\ n_pollfd_used p' <= n_pollfd_alloc p'
    /\ Z.of_nat (length (pollfd p')) = n_pollfd_alloc p'
    /\ Z.of_nat (length (pollfd2 p')) = n_pollfd_alloc p'
    /\ layout_ok (set_rtpoll p' w).
Proof.
  intros Hlo. pose proof Hlo as (Hcnt & Hall & Hl1 & Hl2 & Hsum).
  assert (Hs0 : 0 <= slot_sum (items (rtpoll w))).
  { apply slot_sum_nonneg. eapply Forall_impl; [|exact Hall]. cbn. intros; lia. }
  assert (Hu : n_pollfd_used (rtpoll w) = slot_sum (items (rtpoll w))).
  { unfold count_ok, u32 in Hcnt. rewrite Z.mod_small in Hcnt by lia. exact Hcnt. }
  destruct (layout_ok_rebuild E w Hlo) as (p & Hre & Hlo' & Hrn).
  exists p. split; [exact Hre|]. split; [exact Hrn|].
  destruct (rtpoll_rebuild_keeps E _ _ Hre) as (_ & _ & _ & Hused & _).
  destruct (rtpoll_rebuild_inv E _ _ Hre) as (e & _ & Hal).
  pose proof Hlo' as (_ & _ & Hl1' & Hl2' & _). fields in Hl1'. fields in Hl2'.
  assert (Ha : n_pollfd_alloc p
               = (if n_pollfd_alloc (rtpoll w) <? n_pollfd_used (rtpoll w)
                  then 2 * n_pollfd_used (rtpoll w) else n_pollfd_alloc (rtpoll w))).
  { rewrite Hal. destruct (n_pollfd_alloc (rtpoll w) <? n_pollfd_used (rtpoll w)); [|reflexivity].
    unfold u32. rewrite Z.mod_small by lia. lia. }
  splits; auto.
  rewrite Ha, Hused.
  destruct (n_pollfd_alloc (rtpoll w) <? n_pollfd_used (rtpoll w)) eqn:Hra; [lia|].
  apply Z.ltb_ge in Hra. exact Hra.
Qed.

(** ** Destruction outside a cycle *)

Lemma destroy_head E w i l :
  items (rtpoll w) = i :: l ->
  rtpoll_item_destroy E (addr i) w
  = Ok (log (ev_reclaim (addr i))
          (set_flist (if (length (flist w) <? flist_size E)%nat
                      then addr i :: flist w else flist w)
             (set_rtpoll
                (set_rebuild_needed true
                   (set_n_pollfd_used (u32 (n_pollfd_used (rtpoll w) - n_pollfd i))
                      (set_items l (rtpoll w)))) w))).
Proof.
  intros Hit. unfold rtpoll_item_destroy. rewrite Hit. cbn [find_item llist_remove].
  rewrite Nat.eqb_refl. reflexivity.
Qed.

Lemma destroy_all_spec E : forall n w,
  (length (items (rtpoll w)) <= n)%nat ->
  exists w',
    destroy_all E n w = Ok w'
    /\ items (rtpoll w') = []
    /\ trace w' = trace w ++ map ev_reclaim (addrs w)
    /\ (count_ok w -> count_ok w')
    /\ pollfd (rtpoll w') = pollfd (rtpoll w)
    /\ errno w' = errno w.
Proof.
  induction n as [|n IH]; intros w Hn.
  - destruct (items (rtpoll w)) as [|i l] eqn:Hit; [|cbn in Hn; lia].
    exists w. cbn. unfold addrs. rewrite Hit. cbn. rewrite app_nil_r.
    splits; auto.
  - cbn [destroy_all]. destruct (items (rtpoll w)) as [|i l] eqn:Hit.
    + exists w. unfold addrs. rewrite Hit. cbn. rewrite app_nil_r. splits; auto.
    + rewrite (destroy_head E w i l Hit). cbn [bind].
      match goal with |- context [destroy_all E n ?x] => set (w1 := x) end.
      destruct (IH w1) as (w' & Hd & Hi & Ht & Hc & Hb & He).
      { subst w1. fields. cbn in Hn. lia. }
      exists w'. split; [exact Hd|]. split; [exact Hi|].
      split; [|split; [|split]].
      * rewrite Ht. subst w1. unfold addrs. fields. rewrite Hit. cbn [map].
        rewrite <- app_assoc. reflexivity.
      * intros Hcnt. apply Hc. subst w1. unfold count_ok in *. fields.
        rewrite Hcnt, Hit, slot_sum_cons, u32_sub_l. f_equal. lia.
      * rewrite Hb. reflexivity.
      * rewrite He. reflexivity.
Qed.

(** X7: [pa_rtpoll_free] always returns; it unlinks every item and
    hands each record back exactly once, in list order, whether or not
    the item was marked dead; with sound bookkeeping no slot is in use
    afterwards. *)
Theorem free_reclaims_every_item (E : Env) (w : world) :
  exists w',
    pa_rtpoll_free E w = Ok w'
    /\ items (rtpoll w') = []
    /\ trace w' = trace w ++ map ev_reclaim (addrs w)
    /\ (count_ok w -> n_pollfd_used (rtpoll w') = 0).
Proof.
  unfold pa_rtpoll_free.
  destruct (destroy_all_spec E (length (items (rtpoll w))) w (le_n _))
    as (w' & Hd & Hi & Ht & Hc & _).
  exists w'. splits; auto.
  intros Hcnt. specialize (Hc Hcnt). unfold count_ok in Hc. rewrite Hi in Hc. exact Hc.
Qed.

Lemma find_item_remove_mid b l1 i l2 :
  b <> addr i -> find_item b (l1 ++ l2) = find_item b (l1 ++ i :: l2).
Proof.
  intros Hb. induction l1 as [|j l1 IH]; cbn.
  - replace (Nat.eqb (addr i) b) with false; [reflexivity|].
    symmetry. apply Nat.eqb_neq. congruence.
  - destruct (Nat.eqb (addr j) b); [reflexivity|exact IH].
Qed.

Lemma find_item_not_in a l : ~ In a (map addr l) -> find_item a l = None.
Proof.
  induction l as [|j l IH]; cbn; [reflexivity|]. intros H.
  destruct (Nat.eqb (addr j) a) eqn:Hj.
  - apply Nat.eqb_eq in Hj. destruct H. left. exact Hj.
  - apply IH. intros Hin. apply H. right. exact Hin.
Qed.

(** X8: outside a cycle [pa_rtpoll_item_free] destroys the item at
    once: the record is unlinked and handed back, the other items stay
    linked in their order and keep their slots, the count of slots in
    use goes down by the item's slot count, and a rebuild is pending. *)
Theorem item_free_outside_a_cycle
  (E : Env) (w : world) (a : nat) (l1 l2 : list pa_rtpoll_item) (i : pa_rtpoll_item) :
  running (rtpoll w) = false ->
  NoDup (addrs w) ->
  items (rtpoll w) = l1 ++ i :: l2 -> addr i = a ->
  exists w',
    pa_rtpoll_item_free E a w = Ok w'
    /\ items (rtpoll w') = l1 ++ l2
    /\ find_item a (items (rtpoll w')) = None
    /\ n_pollfd_used (rtpoll w') = u32 (n_pollfd_used (rtpoll w) - n_pollfd i)
    /\ rebuild_needed (rtpoll w') = true
    /\ scan_for_dead (rtpoll w') = scan_for_dead (rtpoll w)
    /\ trace w' = trace w ++ [ev_item_free a; ev_reclaim a]
    /\ (forall b, b <> a -> slots_of w' b = slots_of w b).
Proof.
  intros Hrun Hnd Hit Ha. unfold addrs in Hnd. rewrite Hit, map_app in Hnd.
  cbn [map] in Hnd.
  assert (Hni1 : ~ In (addr i) (map addr l1)) by (eapply NoDup_app_not_in; eauto).
  assert (Hni : ~ In (addr i) (map addr (l1 ++ l2))).
  { rewrite map_app. apply NoDup_remove_2 in Hnd. exact Hnd. }
  subst a. unfold pa_rtpoll_item_free. fields.
  rewrite Hit, find_item_mid by exact Hni1. rewrite Hrun.
  unfold rtpoll_item_destroy. fields.
  rewrite Hit, find_item_mid, llist_remove_mid by exact Hni1.
  eexists. split; [reflexivity|]. fields.
  split; [reflexivity|]. split; [apply find_item_not_in; exact Hni|].
  split; [reflexivity|]. split; [reflexivity|]. split; [reflexivity|].
  split; [rewrite <- app_assoc; reflexivity|].
  intros b Hb. unfold slots_of. fields.
  rewrite Hit, (find_item_remove_mid b l1 i l2 Hb). reflexivity.
Qed.

Lemma u32_idem x : u32 (u32 x) = u32 x.
Proof. unfold u32. apply Z.mod_mod. lia. Qed.

(** X9: outside a cycle, creating an item and freeing it again leaves
    the list of items, the arrays and, with sound bookkeeping, the count
    of slots in use as they were; only a rebuild is left pending. *)
Theorem item_new_then_free (E : Env) (w w1 : world) (n : Z) (a : nat) :
  running (rtpoll w) = false ->
  pa_rtpoll_item_new n w = Ok (w1, a) ->
  exists w2,
    pa_rtpoll_item_free E a w1 = Ok w2
    /\ items (rtpoll w2) = items (rtpoll w)
    /\ pollfd (rtpoll w2) = pollfd (rtpoll w)
    /\ (count_ok w -> n_pollfd_used (rtpoll w2) = n_pollfd_used (rtpoll w))
    /\ rebuild_needed (rtpoll w2) = true
    /\ trace w2 = trace w ++ [ev_item_free a; ev_reclaim a].
Proof.
  intros Hrun Hnew.
  assert (Hpos : 0 < n).
  { unfold pa_rtpoll_item_new in Hnew. inv_bind_as Hnew u. apply pa_assert_ok in Hm.
    apply Z.ltb_lt. exact Hm. }
  destruct (pa_rtpoll_item_new_fields n w Hpos) as (w1' & a' & Hnew' & Hp1 & Ht1 & _).
  rewrite Hnew in Hnew'. injection Hnew' as <- <-.
  unfold pa_rtpoll_item_free. fields. rewrite Hp1. fields. cbn [find_item addr].
  rewrite Nat.eqb_refl, Hrun.
  unfold rtpoll_item_destroy. fields. rewrite Hp1. fields. cbn [find_item llist_remove addr].
  rewrite Nat.eqb_refl. eexists. split; [reflexivity|]. fields.
  split; [reflexivity|]. split; [reflexivity|]. split; [|split; [reflexivity|]].
  - intros Hcnt. unfold count_ok in Hcnt. rewrite u32_sub_l.
    replace (n_pollfd_used (rtpoll w) + n - n) with (n_pollfd_used (rtpoll w)) by lia.
    rewrite Hcnt. apply u32_idem.
  - rewrite Ht1, <- app_assoc. reflexivity.
Qed.

(** ** The user data of an item *)

Lemma find_item_update a f l :
  (forall i, addr (f i) = addr i) ->
  forall b, find_item b (update_item a f l)
            = match find_item b l with
              | Some i => Some (if Nat.eqb b a then f i else i)
              | None => None
              end.
Proof.
  intros Hf b. induction l as [|x l IH]; cbn; [reflexivity|].
  destruct (Nat.eqb (addr x) a) eqn:Hxa.
  - rewrite Hf. destruct (Nat.eqb (addr x) b) eqn:Hxb; [|exact IH].
    apply Nat.eqb_eq in Hxa, Hxb. subst. rewrite Nat.eqb_refl. reflexivity.
  - destruct (Nat.eqb (addr x) b) eqn:Hxb; [|exact IH].
    apply Nat.eqb_eq in Hxb. subst b. rewrite Hxa. reflexivity.
Qed.

(** X10: [pa_rtpoll_item_set_userdata] followed by
    [pa_rtpoll_item_get_userdata] on the same item returns the value
    stored; the user data of every other item, and the hooks, the
    [dead] flags and the slots of all items, are as before. *)
Theorem userdata_round_trip (w : world) (a : nat) (u : Z) (i : pa_rtpoll_item) :
  find_item a (items (rtpoll w)) = Some i ->
  exists w',
    pa_rtpoll_item_set_userdata a u w = Ok w'
    /\ pa_rtpoll_item_get_userdata a w' = Ok u
    /\ (forall b, b <> a ->
          pa_rtpoll_item_get_userdata b w' = pa_rtpoll_item_get_userdata b w)
    /\ view w' = view w
    /\ (forall b, slots_of w' b = slots_of w b).
Proof.
  intros Hf. unfold pa_rtpoll_item_set_userdata, update_item_checked. rewrite Hf.
  eexists. split; [reflexivity|].
  assert (Hfu : forall b,
            find_item b (update_item a (set_userdata u) (items (rtpoll w)))
            = match find_item b (items (rtpoll w)) with
              | Some i => Some (if Nat.eqb b a then set_userdata u i else i)
              | None => None
              end)
    by (apply find_item_update; reflexivity).
  splits.
  - unfold pa_rtpoll_item_get_userdata. fields. rewrite Hfu, Hf, Nat.eqb_refl. reflexivity.
  - intros b Hb. unfold pa_rtpoll_item_get_userdata. fields. rewrite Hfu.
    destruct (find_item b (items (rtpoll w))); [|reflexivity].
    replace (Nat.eqb b a) with false; [reflexivity|].
    symmetry. apply Nat.eqb_neq. exact Hb.
  - unfold view. fields. unfold update_item. rewrite map_map. apply map_ext.
    intros x. destruct (Nat.eqb (addr x) a); reflexivity.
  - intros b. unfold slots_of. fields. rewrite Hfu.
    destruct (find_item b (items (rtpoll w))); [|reflexivity].
    destruct (Nat.eqb b a); reflexivity.
Qed.

(** ** The kernel version that [pa_rtpoll_new] asks for *)

(** X1: a fresh poll set avoids [ppoll] exactly on a Linux build with
    [ppoll] whose kernel release does not read as three numbers or is
    older than 2.6.16. *)
Theorem ppoll_needs_linux_2_6_16 (E : Env) :
  dont_use_ppoll (pa_rtpoll_new E) = true
  <-> HAVE_PPOLL E = true /\ linux E = true
      /\ match uname_release E with
         | Some v => version_lt v (2, 6, 16)
         | None => True
         end.
Proof.
  unfold pa_rtpoll_new. fields.
  destruct (HAVE_PPOLL E), (linux E); cbn [andb];
    try (split; [discriminate|intros (H1 & H2 & _); discriminate]).
  destruct (uname_release E) as [[[a b] c]|]; [|tauto].
  unfold version_lt.
  rewrite !orb_true_iff, !andb_true_iff, !Z.ltb_lt, !Z.eqb_eq.
  split.
  - intros H. split; [reflexivity|]. split; [reflexivity|]. lia.
  - intros (_ & _ & H). lia.
Qed.

(** ** The adapters *)

Lemma only_pollin x : (Z.land x (Z.lnot POLLIN) =? 0) = ((x =? 0) || (x =? POLLIN)).
Proof.
  unfold POLLIN. rewrite <- Z.ldiff_land. change 1 with (Z.ones 1) at 1.
  rewrite Z.ldiff_ones_r by lia.
  rewrite Z.shiftr_div_pow2, Z.shiftl_mul_pow2 by lia.
  change (2 ^ 1) with 2.
  destruct (Z.eqb_spec (x / 2 * 2) 0) as [H|H];
    destruct (Z.eqb_spec x 0) as [H0|H0]; destruct (Z.eqb_spec x 1) as [H1|H1];
    cbn; try reflexivity; exfalso.
  - assert (x / 2 = 0) by lia. apply Z.div_small_iff in H2; lia.
  - subst x. apply H. reflexivity.
  - subst x. apply H. reflexivity.
  - subst x. apply H. reflexivity.
Qed.

(** X12: the after-hooks of the two adapters expect the first slot of
    their item to report nothing or [POLLIN]: then they call
    [pa_fdsem_after_poll], respectively [pa_asyncmsgq_after_poll], on the
    user data; on any other report ([POLLERR], [POLLHUP], ...) they stop at
    their assertion. *)
Theorem adapter_after_hooks_expect_pollin
  (i : pa_rtpoll_item) (w : world) (off : Z) (s : struct_pollfd) :
  item_pollfd i = Some off ->
  read_slots (pollfd (rtpoll w)) off 1 = Ok [s] ->
  fdsem_after i w
  = (if (revents s =? 0) || (revents s =? POLLIN)
     then Ok (log (ev_fdsem_after_poll (userdata i)) w)
     else Fault assertion_failed)
  /\ asyncmsgq_after i w
     = (if (revents s =? 0) || (revents s =? POLLIN)
        then Ok (log (ev_asyncmsgq_after_poll (userdata i)) w)
        else Fault assertion_failed).
Proof.
  intros Hoff Hr. unfold fdsem_after, asyncmsgq_after, assert_only_pollin.
  rewrite Hoff, Hr. cbn [bind forallb]. rewrite only_pollin, andb_true_r.
  destruct ((revents s =? 0) || (revents s =? POLLIN)); split; reflexivity.
Qed.



(** ** Invariants of the dispatch loops under restricted hooks *)

Lemma write_slots_length buf off data buf' :
  write_slots buf off data = Ok buf' -> length buf' = length buf.
Proof.
  unfold write_slots. intros H.
  destruct ((0 <=? off) && (off + Z.of_nat (length data) <=? Z.of_nat (length buf))) eqn:Hb;
    [|discriminate].
  apply andb_true_iff in Hb. destruct Hb as [H1 H2]. apply Z.leb_le in H1, H2.
  injection H as <-. rewrite !length_app, length_firstn, length_skipn. lia.
Qed.

Section HookFrame.

Variable E : Env.
Variable allowed : api_call -> bool.
Variable I : world -> Prop.

Hypothesis hooks_ok : hooks_within allowed E.
Hypothesis I_call : forall c w w', allowed c = true -> I w -> exec_call E c w = Ok w' -> I w'.
Hypothesis I_log : forall e w, I w -> I (log e w).
Hypothesis I_buf : forall buf w,
  length buf = length (pollfd (rtpoll w)) ->
  I w -> I (set_rtpoll (set_pollfd buf (rtpoll w)) w).

Lemma exec_script_frame s w w' :
  forallb allowed s = true -> I w -> exec_script E s w = Ok w' -> I w'.
Proof.
  revert w. induction s as [|c s IH]; intros w Hs Hw H; cbn in H, Hs.
  - injection H as <-. exact Hw.
  - apply andb_true_iff in Hs. destruct Hs as [Hc Hs]. inv_bind_as H w1. eauto.
Qed.

Lemma invoke_before_frame cb i w w' ret :
  I w -> invoke_before E cb i w = Ok (w', ret) -> I w'.
Proof.
  intros Hw H. unfold invoke_before in H. inv_bind_as H [w1 r1].
  injection H as <- _. apply I_log.
  destruct cb; cbn in Hm.
  - injection Hm as <- _. apply I_log. exact Hw.
  - injection Hm as <- _. apply I_log. exact Hw.
  - destruct (hooks_ok k (addr i) w) as [Hk _].
    destruct (client_before_hook E k (addr i) w) as [script r2]. cbn [fst] in Hk.
    inv_bind_as Hm w2. injection Hm as <- _. eapply exec_script_frame; eauto.
Qed.

Lemma invoke_after_frame cb i w w' :
  I w -> invoke_after E cb i w = Ok w' -> I w'.
Proof.
  intros Hw H. unfold invoke_after in H.
  assert (Hw0 : I (log (ev_after (addr i) (item_slice (rtpoll w) i)) w))
    by (apply I_log; exact Hw).
  destruct cb.
  - unfold fdsem_after in H. inv_bind_as H u. injection H as <-. apply I_log. exact Hw0.
  - unfold asyncmsgq_after in H. inv_bind_as H u. injection H as <-. apply I_log. exact Hw0.
  - destruct (hooks_ok k (addr i) w) as [_ Hk]. eapply exec_script_frame; eauto.
Qed.

Lemma before_loop_frame todo w w' refused :
  I w -> before_loop E todo w = Ok (w', refused) -> I w'.
Proof.
  revert w. induction todo as [|a todo IH]; intros w Hw H; cbn in H.
  - injection H as <- _. exact Hw.
  - destruct (find_item a (items (rtpoll w))) as [i|]; [|discriminate].
    destruct (dead i); [eauto|].
    destruct (before_cb i) as [cb|]; [|eauto].
    inv_bind_as H [w1 ret].
    apply invoke_before_frame in Hm; [|exact Hw].
    destruct (ret <? 0); [injection H as <- _; exact Hm|eauto].
Qed.

Lemma rewind_frame fuel cur w w' :
  I w -> rewind E fuel cur w = Ok w' -> I w'.
Proof.
  revert cur w. induction fuel as [|fuel IH]; intros cur w Hw H;
    destruct cur as [a|]; cbn in H; try discriminate;
    try (injection H as <-; exact Hw).
  destruct (find_item a (items (rtpoll w))) as [i|]; [|discriminate].
  destruct (dead i); [eauto|].
  destruct (after_cb i) as [cb|]; [|eauto].
  inv_bind_as H w1. apply invoke_after_frame in Hm; eauto.
Qed.

Lemma clear_item_revents_frame i w w' :
  I w -> clear_item_revents i w = Ok w' -> I w'.
Proof.
  intros Hw H. unfold clear_item_revents in H.
  destruct (n_pollfd i <=? 0); [injection H as <-; exact Hw|].
  destruct (item_pollfd i); [|discriminate].
  inv_bind_as H old. inv_bind_as H buf. injection H as <-. apply I_buf; [|exact Hw].
  eapply write_slots_length; eauto.
Qed.

Lemma after_loop_frame ne todo w w' :
  I w -> after_loop E ne todo w = Ok w' -> I w'.
Proof.
  revert w. induction todo as [|a todo IH]; intros w Hw H; cbn in H.
  - injection H as <-. exact Hw.
  - destruct (find_item a (items (rtpoll w))) as [i|]; [|discriminate].
    destruct (dead i); [eauto|].
    destruct (after_cb i) as [cb|]; [|eauto].
    inv_bind_as H w1. inv_bind_as H w2.
    assert (Ha : I w1).
    { destruct ne; [eapply clear_item_revents_frame; eauto|injection Hm as <-; exact Hw]. }
    apply invoke_after_frame in Hm0; eauto.
Qed.

End HookFrame.

(** ** Refusals in the trace *)

Lemma before_loop_refusal E todo : forall w w' refused,
  before_loop E todo w = Ok (w', refused) ->
  exists d, trace w' = trace w ++ d
            /\ Forall (fun e => before_phase_event e = true) d
            /\ match refused with
               | None => forall a r, In (ev_before a r) d -> 0 <= r
               | Some b => exists r, In (ev_before b r) d /\ r < 0
               end.
Proof.
  induction todo as [|a todo IH]; intros w w' refused H; cbn in H.
  - injection H as <- <-. exists []. rewrite app_nil_r. split; [reflexivity|].
    split; [constructor|]. intros a r [].
  - destruct (find_item a (items (rtpoll w))) as [i|] eqn:Hf; [|discriminate].
    destruct (dead i); [eauto|].
    destruct (before_cb i) as [cb|]; [|eauto].
    inv_bind_as H [w1 ret].
    destruct (invoke_before_trace _ _ _ _ _ _ Hm) as (din & Ht1 & Hdin & _).
    assert (Hph : Forall (fun e => before_phase_event e = true)
                    (din ++ [ev_before (addr i) ret])).
    { apply Forall_app. split; [|repeat constructor].
      eapply Forall_impl; [|exact Hdin]. intros e. destruct e; cbn; congruence. }
    destruct (ret <? 0) eqn:Hret.
    + injection H as <- <-. exists (din ++ [ev_before (addr i) ret]).
      split; [exact Ht1|]. split; [exact Hph|].
      destruct (find_item_In _ _ _ Hf) as [_ Ha]. rewrite Ha.
      exists ret. split; [|apply Z.ltb_lt; exact Hret].
      apply in_or_app. right. left. reflexivity.
    + apply Z.ltb_ge in Hret.
      destruct (IH _ _ _ H) as (d & Ht & Hd & Hcase).
      exists ((din ++ [ev_before (addr i) ret]) ++ d).
      split; [rewrite Ht, Ht1, <- !app_assoc; reflexivity|].
      split; [apply Forall_app; auto|].
      destruct refused as [b|].
      * destruct Hcase as (r & Hin & Hr). exists r. split; [|exact Hr].
        apply in_or_app. right. exact Hin.
      * intros a0 r Hin. apply in_app_or in Hin. destruct Hin as [Hin|Hin]; [|eauto].
        apply in_app_or in Hin. destruct Hin as [Hin|[Hin|[]]].
        -- destruct (in_no_dispatch_before _ _ _ Hdin Hin).
        -- injection Hin as _ <-. exact Hret.
Qed.

(** ** What leaves the timer alone *)

Lemma timer_item_new n w w' a :
  pa_rtpoll_item_new n w = Ok (w', a) -> timer_of w' = timer_of w.
Proof.
  unfold pa_rtpoll_item_new. intros H. inv_bind_as H u.
  destruct (flist w); injection H as <- _; reflexivity.
Qed.

Lemma timer_destroy E a w w' :
  rtpoll_item_destroy E a w = Ok w' -> timer_of w' = timer_of w.
Proof.
  unfold rtpoll_item_destroy. intros H.
  destruct (find_item a (items (rtpoll w))); [|discriminate]. injection H as <-. reflexivity.
Qed.

Lemma timer_item_free E a w w' :
  pa_rtpoll_item_free E a w = Ok w' -> timer_of w' = timer_of w.
Proof.
  unfold pa_rtpoll_item_free. fields. intros H.
  destruct (find_item a (items (rtpoll w))); [|discriminate].
  destruct (running (rtpoll w)).
  - injection H as <-. reflexivity.
  - apply timer_destroy in H. exact H.
Qed.

Lemma timer_rebuild E w p :
  rtpoll_rebuild E (rtpoll w) = Ok p -> timer_of (set_rtpoll p w) = timer_of w.
Proof.
  intros H. apply rtpoll_rebuild_keeps in H.
  destruct H as (_ & _ & _ & _ & _ & H1 & H2 & H3 & _).
  unfold timer_of. fields. congruence.
Qed.

Lemma timer_get_pollfd E a w w' ptr :
  pa_rtpoll_item_get_pollfd E a w = Ok (w', ptr) -> timer_of w' = timer_of w.
Proof.
  intros H. unfold pa_rtpoll_item_get_pollfd in H.
  destruct (find_item a (items (rtpoll w))); [|discriminate].
  inv_bind_as H w1. destruct (find_item a (items (rtpoll w1))); [|discriminate].
  injection H as <- _.
  destruct (rebuild_needed (rtpoll w)).
  - inv_bind_as Hm p1. injection Hm as <-. eapply timer_rebuild; eauto.
  - injection Hm as <-. reflexivity.
Qed.

Lemma timer_store_through ptr j f w w' :
  store_through ptr j f w = Ok w' -> timer_of w' = timer_of w.
Proof.
  intros H. unfold store_through in H. destruct ptr; [|discriminate].
  inv_bind_as H old. inv_bind_as H buf. injection H as <-. reflexivity.
Qed.

Lemma timer_update_item a f w w' :
  update_item_checked a f w = Ok w' -> timer_of w' = timer_of w.
Proof.
  unfold update_item_checked. intros H.
  destruct (find_item a (items (rtpoll w))); [|discriminate]. injection H as <-. reflexivity.
Qed.

Lemma timer_new_adapter_item E d b c h w w' i :
  new_adapter_item E d b c h w = Ok (w', i) -> timer_of w' = timer_of w.
Proof.
  intros H. unfold new_adapter_item in H.
  inv_bind_as H u. inv_bind_as H [w1 i1].
  inv_bind_as H [w2 ptr]. inv_bind_as H w3. inv_bind_as H w4.
  injection H as <- _.
  apply timer_item_new in Hm0. apply timer_get_pollfd in Hm1.
  apply timer_store_through in Hm2. apply timer_update_item in Hm3. congruence.
Qed.

Lemma timer_exec_call E c w w' :
  no_timer_call c = true -> exec_call E c w = Ok w' -> timer_of w' = timer_of w.
Proof.
  intros Hc H. destruct c; try discriminate Hc; cbn [exec_call] in H.
  - inv_bind_as H [w1 a1]. injection H as <-. eapply timer_item_new; eauto.
  - eapply timer_item_free; eauto.
  - inv_bind_as H [w1 p1]. injection H as <-. eapply timer_get_pollfd; eauto.
  - inv_bind_as H [w1 p1]. apply timer_store_through in H.
    apply timer_get_pollfd in Hm. congruence.
  - eapply timer_update_item; eauto.
  - eapply timer_update_item; eauto.
  - eapply timer_update_item; eauto.
  - inv_bind_as H [w1 a1]. injection H as <-. eapply timer_new_adapter_item; eauto.
  - inv_bind_as H [w1 a1]. injection H as <-. eapply timer_new_adapter_item; eauto.
Qed.

Lemma timer_reap_loop E todo : forall w w',
  reap_loop E todo w = Ok w' -> timer_of w' = timer_of w.
Proof.
  induction todo as [|a todo IH]; intros w w' H; cbn in H.
  - injection H as <-. reflexivity.
  - destruct (find_item a (items (rtpoll w))) as [i|]; [|discriminate].
    destruct (dead i); [|eauto].
    inv_bind_as H w1. apply timer_destroy in Hm. rewrite (IH _ _ H). exact Hm.
Qed.

Lemma timer_finish E r se w w' r' :
  finish E r se w = Ok (w', r') -> timer_of w' = timer_of w.
Proof.
  unfold finish. intros H. inv_bind_as H w1. injection H as <- _.
  change (timer_of (set_errno se w1)) with (timer_of w1).
  destruct (scan_for_dead (rtpoll (set_rtpoll (set_running false (rtpoll w)) w))).
  - apply timer_reap_loop in Hm. exact Hm.
  - injection Hm as <-. reflexivity.
Qed.

Lemma timer_sleep E w w' r se : sleep E w = (w', r, se) -> timer_of w' = timer_of w.
Proof.
  unfold sleep, wait_syscall. intros H.
  destruct (HAVE_PPOLL E); [destruct (linux E);
    [destruct (negb (dont_use_ppoll (rtpoll w)))|]|];
    injection H as <- _ _; reflexivity.
Qed.

(** The phases of a cycle whose hooks leave the timer alone. *)
Lemma run_timer_spec E fuel w w' r :
  hooks_within no_timer_call E ->
  pa_rtpoll_run E fuel w = Ok (w', r) ->
  exists d1 dw d2,
    trace w' = trace w ++ d1 ++ dw ++ d2
    /\ Forall (fun e => before_phase_event e = true) d1
    /\ Forall (fun e => rewind_phase_event e = true) d2
    /\ ((exists b ret, In (ev_before b ret) d1 /\ ret < 0)
        /\ dw = [] /\ timer_of w' = timer_of w /\ r = 0
        \/ (forall a ret, In (ev_before a ret) d1 -> 0 <= ret)
           /\ exists w3 w4 r4 se,
                sleep E w3 = (w4, r4, se)
                /\ timer_of w3 = timer_of w
                /\ dont_use_ppoll (rtpoll w3) = dont_use_ppoll (rtpoll w)
                /\ trace w3 = trace w ++ d1
                /\ trace w4 = trace w3 ++ dw
                /\ timer_of w' = timer_of (advance_timer E w4)).
Proof.
  intros Hh H. unfold pa_rtpoll_run in H.
  inv_bind_as H u1. inv_bind_as H u2. inv_bind_as H [w2 refused].
  set (w1 := set_rtpoll (set_running true (rtpoll w)) w) in *.
  assert (Hfr : forall (P : world -> Prop),
            (forall c x x', no_timer_call c = true -> P x -> exec_call E c x = Ok x' -> P x') ->
            (forall e x, P x -> P (log e x)) ->
            (forall buf x, length buf = length (pollfd (rtpoll x)) ->
                           P x -> P (set_rtpoll (set_pollfd buf (rtpoll x)) x)) ->
            forall fl cur ne todo x x' rf,
              P x ->
              (before_loop E todo x = Ok (x', rf) -> P x')
              /\ (rewind E fl cur x = Ok x' -> P x')
              /\ (after_loop E ne todo x = Ok x' -> P x')).
  { intros P H1 H2 H3 fl cur ne todo x x' rf Hx. splits; intros Hrun.
    - eapply (before_loop_frame E no_timer_call P); eauto.
    - eapply (rewind_frame E no_timer_call P); eauto.
    - eapply (after_loop_frame E no_timer_call P); eauto. }
  assert (Htm : forall fl cur ne todo x x' rf,
            (before_loop E todo x = Ok (x', rf) -> timer_of x' = timer_of x)
            /\ (rewind E fl cur x = Ok x' -> timer_of x' = timer_of x)
            /\ (after_loop E ne todo x = Ok x' -> timer_of x' = timer_of x)).
  { intros fl cur ne todo x x' rf.
    apply (Hfr (fun y => timer_of y = timer_of x)); auto.
    intros c y y' Hc Hy Hcall. rewrite <- Hy. eapply timer_exec_call; eauto. }
  assert (Hdp : forall todo x x' rf,
            before_loop E todo x = Ok (x', rf) ->
            dont_use_ppoll (rtpoll x') = dont_use_ppoll (rtpoll x)).
  { intros todo x x' rf.
    apply (Hfr (fun y => dont_use_ppoll (rtpoll y) = dont_use_ppoll (rtpoll x))
             ltac:(intros c y y' _ Hy Hcall; rewrite <- Hy;
                   apply keeps_exec_call in Hcall; apply Hcall)
             ltac:(auto) ltac:(auto) O None false todo x x' rf eq_refl). }
  pose proof (proj1 (Htm O None false _ _ _ _) Hm1) as Ht2.
  pose proof (Hdp _ _ _ _ Hm1) as Hd2.
  destruct (before_loop_refusal _ _ _ _ _ Hm1) as (d1 & Htr1 & Hph1 & Hcase).
  change (trace w1) with (trace w) in Htr1.
  change (timer_of w1) with (timer_of w) in Ht2.
  change (dont_use_ppoll (rtpoll w1)) with (dont_use_ppoll (rtpoll w)) in Hd2.
  destruct refused as [b|].
  - inv_bind_as H w3.
    pose proof (proj1 (proj2 (Htm fuel _ false [] _ _ None)) Hm2) as Ht3.
    apply rewind_events in Hm2. destruct Hm2 as [(d2 & Htr2 & Hph2) _].
    pose proof (timer_finish _ _ _ _ _ _ H) as Ht4.
    apply finish_events in H. destruct H as ((d3 & Htr3 & Hph3) & _ & Hr).
    exists d1, [], (d2 ++ d3).
    split; [rewrite Htr3, Htr2, Htr1, <- !app_assoc; reflexivity|].
    split; [exact Hph1|]. split.
    { apply Forall_app. split; [exact Hph2|].
      eapply Forall_impl; [|exact Hph3]. intros e. destruct e; cbn; congruence. }
    left. destruct Hcase as (ret & Hin & Hret).
    split; [exists b, ret; auto|]. split; [reflexivity|]. split; [congruence|exact Hr].
  - inv_bind_as H w3.
    assert (H3 : trace w3 = trace w2 /\ timer_of w3 = timer_of w2
                 /\ dont_use_ppoll (rtpoll w3) = dont_use_ppoll (rtpoll w2)).
    { destruct (rebuild_needed (rtpoll w2)).
      - inv_bind_as Hm2 p3. injection Hm2 as <-.
        split; [reflexivity|]. split; [eapply timer_rebuild; eauto|].
        apply rtpoll_rebuild_keeps in Hm3. fields. apply Hm3.
      - injection Hm2 as <-. auto. }
    destruct H3 as (Htr3 & Ht3 & Hd3).
    destruct (sleep E w3) as [[w4 r4] se] eqn:Hsl.
    pose proof (sleep_waits _ _ _ _ _ Hsl) as (dw & Htr4 & _).
    inv_bind_as H w5.
    pose proof (proj2 (proj2 (Htm O None _ _ _ _ None)) Hm3) as Ht5.
    apply after_loop_events in Hm3. destruct Hm3 as (d5 & Htr5 & Hph5).
    pose proof (timer_finish _ _ _ _ _ _ H) as Ht6.
    apply finish_events in H. destruct H as ((d6 & Htr6 & Hph6) & _).
    destruct (advance_timer_keeps E w4) as [Hta _].
    exists d1, dw, (d5 ++ d6).
    split; [rewrite Htr6, Htr5, Hta, Htr4, Htr3, Htr1, <- !app_assoc; reflexivity|].
    split; [exact Hph1|]. split.
    { apply Forall_app. split; [exact Hph5|].
      eapply Forall_impl; [|exact Hph6]. intros e. destruct e; cbn; congruence. }
    right. split; [exact Hcase|].
    exists w3, w4, r4, se. splits; auto; congruence.
Qed.

(** ** The timer across a cycle *)

Lemma sleep_spec E w w' r se :
  sleep E w = (w', r, se) ->
  (skips_wait E w = true /\ w' = w /\ r = 0 /\ se = errno w)
  \/ (skips_wait E w = false
      /\ trace w' = trace w
           ++ [ev_wait (firstn (Z.to_nat (n_pollfd_used (rtpoll w))) (pollfd (rtpoll w)))
                 (if timer_enabled (rtpoll w)
                  then Some (if HAVE_PPOLL E then calc_timeout E w
                             else c_int (tv_sec (calc_timeout E w) * 1000
                                         + tv_nsec (calc_timeout E w) / 1000000))
                  else None)
                 r (errno w')]).
Proof.
  unfold sleep, skips_wait, wait_syscall. intros H.
  destruct (HAVE_PPOLL E); [destruct (linux E);
    [destruct (dont_use_ppoll (rtpoll w))|]|]; cbn [negb andb] in *;
    injection H as <- <- <-; auto; right; split; reflexivity.
Qed.

Lemma calc_timeout_max E w :
  calc_timeout E w = Z.max 0 (next_elapse (rtpoll w) - pa_rtclock_get E (trace w)).
Proof.
  unfold calc_timeout, pa_timespec_cmp, pa_timespec_diff.
  destruct (Z.compare_spec (next_elapse (rtpoll w)) (pa_rtclock_get E (trace w)));
    cbn; lia.
Qed.

Lemma c_int_small x : 0 <= x < 2 ^ 31 -> c_int x = x.
Proof. intros H. unfold c_int. rewrite Z.mod_small by lia. lia. Qed.

Lemma milliseconds_of t : 0 <= t -> tv_sec t * 1000 + tv_nsec t / 1000000 = t / 1000.
Proof.
  intros Ht. unfold tv_sec, tv_nsec.
  pose proof (Z.div_mod t 1000000 ltac:(lia)) as Hdm.
  pose proof (Z.mod_pos_bound t 1000000 ltac:(lia)) as Hb.
  set (q := t / 1000000) in *. set (m := t mod 1000000) in *.
  replace (m * 1000 / 1000000) with (m / 1000)
    by (change 1000000 with (1000 * 1000); rewrite Z.div_mul_cancel_r by lia; reflexivity).
  rewrite Hdm. replace (1000000 * q + m) with (m + q * 1000 * 1000) by lia.
  rewrite Z.div_add by lia. lia.
Qed.

Lemma wait_split (l1 l1' : list event) x y l2 l2' :
  l1 ++ x :: l2 = l1' ++ y :: l2' ->
  is_wait x = true ->
  Forall (fun e => is_wait e = false) l1' ->
  Forall (fun e => is_wait e = false) l2' ->
  l1 = l1' /\ x = y /\ l2 = l2'.
Proof.
  revert l1'. induction l1 as [|e l1 IH]; intros [|e' l1'] H Hx H1 H2; cbn in H.
  - injection H as -> ->. auto.
  - injection H as -> _. inversion H1; subst. congruence.
  - injection H as -> H. subst l2'. rewrite Forall_forall in H2.
    assert (Hin : In x (l1 ++ x :: l2)) by (apply in_or_app; right; left; reflexivity).
    specialize (H2 _ Hin). congruence.
  - injection H as -> H. inversion H1; subst.
    destruct (IH l1' H Hx) as (-> & -> & ->); auto.
Qed.

(** The system call of a cycle is made with the timer as it was when
    the cycle began, and with the clock read just before the call. *)
Lemma wait_event_spec E fuel w w' r d1 d2 fds t ret err :
  hooks_within no_timer_call E ->
  pa_rtpoll_run E fuel w = Ok (w', r) ->
  trace w' = trace w ++ d1 ++ ev_wait fds t ret err :: d2 ->
  exists w3,
    trace w3 = trace w ++ d1
    /\ timer_of w3 = timer_of w
    /\ t = if timer_enabled (rtpoll w3)
           then Some (if HAVE_PPOLL E then calc_timeout E w3
                      else c_int (tv_sec (calc_timeout E w3) * 1000
                                  + tv_nsec (calc_timeout E w3) / 1000000))
           else None.
Proof.
  intros Hh H Ht.
  destruct (run_timer_spec E fuel w w' r Hh H) as (e1 & dw & e2 & Htr & Hp1 & Hp2 & Hcase).
  assert (Hn1 : Forall (fun e => is_wait e = false) e1).
  { eapply Forall_impl; [|exact Hp1]. intros e. destruct e; cbn; congruence. }
  assert (Hn2 : Forall (fun e => is_wait e = false) e2).
  { eapply Forall_impl; [|exact Hp2]. intros e. destruct e; cbn; congruence. }
  assert (Hno : ~ In (ev_wait fds t ret err) (e1 ++ e2)).
  { intros Hin. apply in_app_or in Hin. rewrite Forall_forall in Hn1, Hn2.
    destruct Hin as [Hin|Hin]; [specialize (Hn1 _ Hin)|specialize (Hn2 _ Hin)]; discriminate. }
  rewrite Ht in Htr. apply app_inv_head in Htr.
  destruct Hcase as [(_ & -> & _)|(_ & w3 & w4 & r4 & se & Hsl & Htm & _ & Ht3 & Ht4 & _)].
  - exfalso. apply Hno. cbn [app] in Htr. rewrite <- Htr.
    apply in_or_app. right. left. reflexivity.
  - destruct (sleep_spec _ _ _ _ _ Hsl) as [(_ & -> & _)|(_ & Hw)].
    + exfalso. assert (dw = []).
      { rewrite <- (app_nil_r (trace w3)) in Ht4 at 1. apply app_inv_head in Ht4. auto. }
      subst dw. apply Hno. cbn [app] in Htr. rewrite <- Htr.
      apply in_or_app. right. left. reflexivity.
    + rewrite Hw in Ht4. apply app_inv_head in Ht4. subst dw. cbn [app] in Htr.
      destruct (wait_split _ _ _ _ _ _ Htr eq_refl Hn1 Hn2) as (-> & Hev & _).
      injection Hev as _ -> _ _. exists w3. auto.
Qed.

(** X16: the timeout handed to the system call of a cycle.  With the
    timer disabled the call waits without limit.  With the timer enabled
    the timeout is the time from the clock reading taken just before
    the call to the deadline, and zero when the deadline has passed;
    [ppoll] gets it in microsecond precision, [poll] in whole
    milliseconds, rounded down, so that a deadline less than a
    millisecond away makes [poll] return at once.  The milliseconds
    reach [poll] through its [int] parameter: they arrive as they are
    when the deadline is less than 2^31 milliseconds away, and reduced
    modulo 2^32 into the range of [int] otherwise. *)
Theorem wait_timeout_is_time_to_deadline
  (E : Env) (fuel : nat) (w w' : world) (r : Z)
  (d1 d2 : list event) (fds : list struct_pollfd) (t : option Z) (ret err : Z) :
  hooks_within no_timer_call E ->
  pa_rtpoll_run E fuel w = Ok (w', r) ->
  trace w' = trace w ++ d1 ++ ev_wait fds t ret err :: d2 ->
  let us := Z.max 0 (next_elapse (rtpoll w) - pa_rtclock_get E (trace w ++ d1)) in
  t = (if timer_enabled (rtpoll w)
       then Some (if HAVE_PPOLL E then us else c_int (us / 1000))
       else None)
  /\ (us < 2 ^ 31 * 1000 -> c_int (us / 1000) = us / 1000).
Proof.
  intros Hh H Ht us. split.
  - destruct (wait_event_spec E fuel w w' r d1 d2 fds t ret err Hh H Ht)
      as (w3 & Ht3 & Htm & ->).
    unfold timer_of in Htm. injection Htm as He1 He2 _. rewrite He1.
    destruct (timer_enabled (rtpoll w)); [|reflexivity].
    rewrite calc_timeout_max, He2, Ht3. fold us. f_equal.
    destruct (HAVE_PPOLL E); [reflexivity|]. f_equal. apply milliseconds_of. lia.
  - intros Hb. apply c_int_small. split.
    + apply Z.div_pos; lia.
    + apply Z.div_lt_upper_bound; lia.
Qed.

(** X17: a cycle that is not refused turns off a timer that has no
    period: after it the timer is disabled, with the deadline and the
    period as they were.  The client's hooks are taken not to set the
    timer. *)
Theorem one_shot_timer_disarms
  (E : Env) (fuel : nat) (w w' : world) (r : Z) (d : list event) :
  hooks_within no_timer_call E ->
  pa_rtpoll_run E fuel w = Ok (w', r) ->
  trace w' = trace w ++ d ->
  (forall a ret, In (ev_before a ret) d -> 0 <= ret) ->
  period (rtpoll w) <= 0 ->
  timer_of w' = (false, next_elapse (rtpoll w), period (rtpoll w)).
Proof.
  intros Hh H Ht Hpos Hper.
  destruct (run_timer_spec E fuel w w' r Hh H) as (e1 & dw & e2 & Htr & Hp1 & Hp2 & Hcase).
  rewrite Ht in Htr. apply app_inv_head in Htr. subst d.
  destruct Hcase as [((b & ret & Hin & Hret) & _)
                    |(_ & w3 & w4 & r4 & se & Hsl & Htm & _ & _ & _ & Hfin)].
  - exfalso. specialize (Hpos b ret). rewrite in_app_iff in Hpos.
    specialize (Hpos (or_introl Hin)). lia.
  - rewrite Hfin. apply timer_sleep in Hsl.
    unfold timer_of in Htm, Hsl. injection Htm as H1 H2 H3. injection Hsl as H4 H5 H6.
    assert (Hp4 : (0 <? period (rtpoll w4)) = false) by (apply Z.ltb_ge; lia).
    unfold advance_timer, timer_of. rewrite Hp4.
    destruct (timer_enabled (rtpoll w4)) eqn:He; fields; rewrite ?He; congruence.
Qed.

(** X18: a cycle that a before-hook refuses makes no system call,
    returns 0 and leaves the timer as it was: a periodic deadline is not
    advanced and a timer without a period stays enabled.  The client's
    hooks are taken not to set the timer. *)
Theorem refused_cycle_keeps_timer
  (E : Env) (fuel : nat) (w w' : world) (r : Z) (d : list event) (b : nat) (ret : Z) :
  hooks_within no_timer_call E ->
  pa_rtpoll_run E fuel w = Ok (w', r) ->
  trace w' = trace w ++ d ->
  In (ev_before b ret) d -> ret < 0 ->
  timer_of w' = timer_of w /\ r = 0 /\ Forall (fun e => is_wait e = false) d.
Proof.
  intros Hh H Ht Hin Hret.
  destruct (run_timer_spec E fuel w w' r Hh H) as (e1 & dw & e2 & Htr & Hp1 & Hp2 & Hcase).
  rewrite Ht in Htr. apply app_inv_head in Htr. subst d.
  assert (Hn1 : Forall (fun e => is_wait e = false) e1).
  { eapply Forall_impl; [|exact Hp1]. intros e. destruct e; cbn; congruence. }
  assert (Hn2 : Forall (fun e => is_wait e = false) e2).
  { eapply Forall_impl; [|exact Hp2]. intros e. destruct e; cbn; congruence. }
  destruct Hcase as [(_ & -> & Htm & Hr)
                    |(Hpos & w3 & w4 & r4 & se & Hsl & _ & _ & _ & Ht4 & _)].
  - split; [exact Htm|]. split; [exact Hr|]. apply Forall_app. auto.
  - exfalso. apply in_app_or in Hin. destruct Hin as [Hin|Hin].
    + specialize (Hpos _ _ Hin). lia.
    + apply in_app_or in Hin. destruct Hin as [Hin|Hin].
      * apply sleep_waits in Hsl. destruct Hsl as (dw' & Ht4' & Hdw).
        rewrite Ht4' in Ht4. apply app_inv_head in Ht4. subst dw'.
        rewrite Forall_forall in Hdw. specialize (Hdw _ Hin). discriminate.
      * rewrite Forall_forall in Hp2. specialize (Hp2 _ Hin). discriminate.
Qed.

(** ** The order of dispatch in a cycle that is not refused *)

Lemma view_clear_item_revents i w w' :
  clear_item_revents i w = Ok w' -> view w' = view w /\ trace w' = trace w.
Proof.
  unfold clear_item_revents. intros H.
  destruct (n_pollfd i <=? 0); [injection H as <-; auto|].
  destruct (item_pollfd i); [|discriminate].
  inv_bind_as H old. inv_bind_as H buf. injection H as <-. auto.
Qed.

Lemma after_loop_dispatch E l0 :
  quiet_hooks E -> NoDup (map addr l0) ->
  forall l pre ne w w',
    l0 = pre ++ l -> view w = map view_of l0 ->
    after_loop E ne (map addr l) w = Ok w' ->
    view w' = map view_of l0
    /\ exists d, trace w' = trace w ++ d
                 /\ dispatches d = map d_after (hooked_after l).
Proof.
  intros Hq Hnd. induction l as [|i0 l IH]; intros pre ne w w' Hl Hv H.
  - cbn in H. injection H as <-. split; [exact Hv|].
    exists []. rewrite app_nil_r. split; reflexivity.
  - cbn [map after_loop] in H.
    destruct (find_item_view l0 (items (rtpoll w)) i0 Hv Hnd) as (i & Hf & Hvi).
    { rewrite Hl. apply in_or_app. right. left. reflexivity. }
    rewrite Hf in H.
    assert (Hai : addr i = addr i0)
      by (change (fst (fst (fst (view_of i))) = addr i0); rewrite Hvi; reflexivity).
    assert (Hdi : dead i = dead i0)
      by (change (snd (fst (fst (view_of i))) = dead i0); rewrite Hvi; reflexivity).
    assert (Hci : after_cb i = after_cb i0)
      by (change (snd (view_of i) = after_cb i0); rewrite Hvi; reflexivity).
    assert (Hpre : l0 = (pre ++ [i0]) ++ l) by (rewrite <- app_assoc; exact Hl).
    assert (Hskip : negb (dead i0) && is_some (after_cb i0) = false ->
              after_loop E ne (map addr l) w = Ok w' ->
              view w' = map view_of l0
              /\ exists d, trace w' = trace w ++ d
                           /\ dispatches d = map d_after (hooked_after (i0 :: l))).
    { intros Hno H'. destruct (IH _ _ _ _ Hpre Hv H') as (Hv' & d & Ht & Hd).
      split; [exact Hv'|]. exists d. split; [exact Ht|].
      unfold hooked_after in *. cbn [filter]. rewrite Hno. exact Hd. }
    rewrite Hdi, Hci in H.
    destruct (dead i0) eqn:Hd0; [apply Hskip; [reflexivity|exact H]|].
    destruct (after_cb i0) as [cb|] eqn:Hc0; [|apply Hskip; [reflexivity|exact H]].
    clear Hskip. inv_bind_as H w1. inv_bind_as H w2.
    assert (H1 : view w1 = view w /\ trace w1 = trace w).
    { destruct ne; [eapply view_clear_item_revents; eauto|injection Hm as <-; auto]. }
    destruct H1 as [Hv1 Ht1].
    pose proof (view_invoke_after _ _ _ _ _ Hq Hm0) as Hv2.
    destruct (invoke_after_trace _ _ _ _ _ Hm0) as (din & Ht2 & Hdin & _).
    destruct (IH _ _ _ _ Hpre (eq_trans Hv2 (eq_trans Hv1 Hv)) H) as (Hv' & d & Ht & Hd).
    split; [exact Hv'|].
    exists ((ev_after (addr i) (item_slice (rtpoll w1) i) :: din) ++ d).
    split; [rewrite Ht, Ht2, Ht1, <- app_assoc; reflexivity|].
    rewrite dispatches_app. cbn [dispatches flat_map dispatch_of app].
    fold (dispatches din). rewrite dispatches_no_dispatch by exact Hdin.
    cbn [app]. rewrite Hd, Hai. unfold hooked_after. cbn [filter]. rewrite Hd0, Hc0.
    reflexivity.
Qed.

Lemma before_loop_keeps_build E todo w w' refused :
  before_loop E todo w = Ok (w', refused) ->
  dont_use_ppoll (rtpoll w') = dont_use_ppoll (rtpoll w).
Proof.
  apply (before_loop_inv E
           (fun y => dont_use_ppoll (rtpoll y) = dont_use_ppoll (rtpoll w))); auto.
  intros c y y' Hy Hcall. rewrite <- Hy. apply keeps_exec_call in Hcall. apply Hcall.
Qed.

(** X13: in a cycle that no before-hook refuses, the hook calls and the
    system call come in this order: the before-hooks of the live items
    that have one, in list order; the system call, once (none on a build
    that avoids [ppoll] on Linux); the after-hooks of the live items
    that have one, in list order.  The client's hooks are taken to leave
    the list, the [dead] flags and the hooks as they are. *)
Theorem cycle_dispatch_order
  (E : Env) (fuel : nat) (w w' : world) (r : Z) (d : list event) :
  quiet_hooks E ->
  NoDup (addrs w) ->
  pa_rtpoll_run E fuel w = Ok (w', r) ->
  trace w' = trace w ++ d ->
  (forall a ret, In (ev_before a ret) d -> 0 <= ret) ->
  dispatches d
  = map d_before (hooked_before (items (rtpoll w)))
    ++ (if skips_wait E w then [] else [d_wait])
    ++ map d_after (hooked_after (items (rtpoll w))).
Proof.
  intros Hq Hnd H Ht Hpos. unfold pa_rtpoll_run in H.
  inv_bind_as H u1. inv_bind_as H u2. inv_bind_as H [w2 refused].
  fields in Hm1.
  pose proof (before_loop_keeps_build _ _ _ _ _ Hm1) as Hd2. fields in Hd2.
  destruct (before_loop_refusal _ _ _ _ _ Hm1) as (d1' & Ht1' & _ & Href).
  destruct (before_loop_dispatch E (items (rtpoll w)) Hq Hnd (items (rtpoll w)) []
              (set_rtpoll (set_running true (rtpoll w)) w) w2 refused
              eq_refl eq_refl Hm1) as (Hv2 & d1 & Ht1 & Hcase).
  rewrite Ht1 in Ht1'. apply app_inv_head in Ht1'. subst d1'.
  fields in Ht1. destruct refused as [b|].
  - exfalso. destruct Href as (ret & Hin & Hret).
    inv_bind_as H w3. apply rewind_events in Hm2. destruct Hm2 as [(d2 & Ht2 & _) _].
    apply finish_events in H. destruct H as ((d3 & Ht3 & _) & _).
    rewrite Ht3, Ht2, Ht1, <- !app_assoc in Ht. apply app_inv_head in Ht. subst d.
    specialize (Hpos b ret). rewrite in_app_iff in Hpos.
    specialize (Hpos (or_introl Hin)). lia.
  - destruct Hcase as [Hdis1 _]. inv_bind_as H w3.
    assert (H3 : trace w3 = trace w2 /\ view w3 = view w2
                 /\ dont_use_ppoll (rtpoll w3) = dont_use_ppoll (rtpoll w2)).
    { destruct (rebuild_needed (rtpoll w2)).
      - inv_bind_as Hm2 p3. injection Hm2 as <-. apply rtpoll_rebuild_keeps in Hm3.
        split; [reflexivity|]. split; [apply skel_view; apply Hm3|]. fields. apply Hm3.
      - injection Hm2 as <-. auto. }
    destruct H3 as (Ht3 & Hv3 & Hd3).
    destruct (sleep E w3) as [[w4 r4] se] eqn:Hsl.
    assert (H4 : view w4 = view w3
                 /\ exists dw, trace w4 = trace w3 ++ dw
                               /\ dispatches dw = if skips_wait E w then [] else [d_wait]).
    { assert (Hsk : skips_wait E w3 = skips_wait E w)
        by (unfold skips_wait; rewrite Hd3, Hd2; reflexivity).
      destruct (sleep_spec _ _ _ _ _ Hsl) as [(Hs & -> & _)|(Hs & Hw)];
        rewrite <- Hsk, Hs.
      - split; [reflexivity|]. exists []. rewrite app_nil_r. split; reflexivity.
      - split.
        + unfold sleep, wait_syscall in Hsl.
          destruct (HAVE_PPOLL E); [destruct (linux E);
            [destruct (negb (dont_use_ppoll (rtpoll w3)))|]|];
            injection Hsl as <- _ _; reflexivity.
        + eexists. split; [exact Hw|reflexivity]. }
    destruct H4 as (Hv4 & dw & Ht4 & Hdw).
    inv_bind_as H w5.
    assert (Hva : view (advance_timer E w4) = view w4).
    { unfold advance_timer. destruct (timer_enabled (rtpoll w4)); [|reflexivity].
      destruct (0 <? period (rtpoll w4)); reflexivity. }
    destruct (advance_timer_keeps E w4) as [Hta _].
    destruct (after_loop_dispatch E (items (rtpoll w)) Hq Hnd (items (rtpoll w)) []
                (is_no_events r4 (errno (advance_timer E w4)))
                (advance_timer E w4) w5 eq_refl) as (_ & d5 & Ht5 & Hdis5).
    { rewrite Hva, Hv4, Hv3. exact Hv2. }
    { replace (map addr (items (rtpoll w)))
        with (map addr (items (rtpoll (advance_timer E w4)))); [exact Hm3|].
      apply view_addrs. fold (view (advance_timer E w4)).
      rewrite Hva, Hv4, Hv3. exact Hv2. }
    apply finish_events in H. destruct H as ((d6 & Ht6 & Hd6) & _).
    rewrite Ht6, Ht5, Hta, Ht4, Ht3, Ht1, <- !app_assoc in Ht.
    apply app_inv_head in Ht. subst d.
    rewrite !dispatches_app, Hdis1, Hdw, Hdis5.
    rewrite (dispatches_no_dispatch d6), app_nil_r; [reflexivity|].
    eapply Forall_impl; [|exact Hd6]. exact api_no_dispatch.
Qed.

(** X14: on a Linux build with [ppoll], a poll set that avoids [ppoll]
    (kernel older than 2.6.16) never issues the system call: every
    cycle returns 0 without waiting, whatever the hooks do. *)
Theorem old_kernel_cycle_never_waits
  (E : Env) (fuel : nat) (w w' : world) (r : Z) (d : list event) :
  skips_wait E w = true ->
  pa_rtpoll_run E fuel w = Ok (w', r) ->
  trace w' = trace w ++ d ->
  r = 0 /\ Forall (fun e => is_wait e = false) d.
Proof.
  intros Hs H Ht. unfold pa_rtpoll_run in H.
  inv_bind_as H u1. inv_bind_as H u2. inv_bind_as H [w2 refused].
  pose proof (before_loop_keeps_build _ _ _ _ _ Hm1) as Hd2. fields in Hd2.
  apply before_loop_events in Hm1. destruct Hm1 as [(d1 & Ht1 & Hp1) _]. fields in Ht1.
  assert (Hn1 : Forall (fun e => is_wait e = false) d1).
  { eapply Forall_impl; [|exact Hp1]. intros e. destruct e; cbn; congruence. }
  destruct refused as [b|].
  - inv_bind_as H w3. apply rewind_events in Hm1. destruct Hm1 as [(d2 & Ht2 & Hp2) _].
    apply finish_events in H. destruct H as ((d3 & Ht3 & Hp3) & _ & Hr).
    rewrite Ht3, Ht2, Ht1, <- !app_assoc in Ht. apply app_inv_head in Ht. subst d.
    split; [exact Hr|]. apply Forall_app. split; [exact Hn1|]. apply Forall_app. split.
    + eapply Forall_impl; [|exact Hp2]. intros e. destruct e; cbn; congruence.
    + eapply Forall_impl; [|exact Hp3]. intros e. destruct e; cbn; congruence.
  - inv_bind_as H w3.
    assert (H3 : trace w3 = trace w2
                 /\ dont_use_ppoll (rtpoll w3) = dont_use_ppoll (rtpoll w2)).
    { destruct (rebuild_needed (rtpoll w2)).
      - inv_bind_as Hm1 p3. injection Hm1 as <-. apply rtpoll_rebuild_keeps in Hm2.
        split; [reflexivity|]. fields. apply Hm2.
      - injection Hm1 as <-. auto. }
    destruct H3 as (Ht3 & Hd3).
    destruct (sleep E w3) as [[w4 r4] se] eqn:Hsl.
    assert (Hsk : skips_wait E w3 = true)
      by (unfold skips_wait in *; rewrite Hd3, Hd2; exact Hs).
    destruct (sleep_spec _ _ _ _ _ Hsl) as [(_ & -> & -> & _)|(Hs' & _)]; [|congruence].
    inv_bind_as H w5.
    destruct (advance_timer_keeps E w3) as [Hta _].
    apply after_loop_events in Hm2. destruct Hm2 as (d5 & Ht5 & Hp5).
    apply finish_events in H. destruct H as ((d6 & Ht6 & Hp6) & _ & Hr).
    rewrite Ht6, Ht5, Hta, Ht3, Ht1, <- !app_assoc in Ht. apply app_inv_head in Ht. subst d.
    split; [rewrite Hr; reflexivity|].
    apply Forall_app. split; [exact Hn1|]. apply Forall_app. split.
    + eapply Forall_impl; [|exact Hp5]. intros e. destruct e; cbn; congruence.
    + eapply Forall_impl; [|exact Hp6]. intros e. destruct e; cbn; congruence.
Qed.

(** ** A cycle returns *)

Lemma shape_fields w x :
  shape x = shape w ->
  items (rtpoll x) = items (rtpoll w)
  /\ length (pollfd (rtpoll x)) = length (pollfd (rtpoll w))
  /\ pollfd2 (rtpoll x) = pollfd2 (rtpoll w)
  /\ n_pollfd_alloc (rtpoll x) = n_pollfd_alloc (rtpoll w)
  /\ n_pollfd_used (rtpoll x) = n_pollfd_used (rtpoll w)
  /\ scan_for_dead (rtpoll x) = scan_for_dead (rtpoll w)
  /\ running (rtpoll x) = running (rtpoll w)
  /\ installed (rtpoll x) = installed (rtpoll w)
  /\ rebuild_needed (rtpoll x) = rebuild_needed (rtpoll w)
  /\ flist x = flist w /\ heap_next x = heap_next w.
Proof. unfold shape. intros H. injection H as H1 H2 H3 H4 H5 H6 H7 H8 H9 H10 H11. splits; auto. Qed.

Lemma shape_layout_ok w x : shape x = shape w -> layout_ok w -> layout_ok x.
Proof.
  intros H (Hcnt & Hall & Hl1 & Hl2 & Hsum).
  destruct (shape_fields _ _ H) as (Hi & Hl & Hp2 & Ha & Hu & _).
  unfold layout_ok, count_ok in *. rewrite Hi, Hu, Hl, Hp2, Ha. splits; auto.
  eapply Forall_impl; [|exact Hall]. cbn beta. intros i [H1 H2]. split; [exact H1|].
  unfold ptr_ok in *. destruct (item_pollfd i); [|exact I]. rewrite Hl. exact H2.
Qed.

Lemma shape_idle w x : shape x = shape w -> idle w -> idle x.
Proof.
  intros H (Hr & (Hnd & Hlt) & Hcnt & Hs & Hd).
  destruct (shape_fields _ _ H) as (Hi & _ & _ & _ & Hu & Hsc & Hrn & _ & _ & Hf & Hh).
  unfold idle, wf_addr, count_ok, addrs, dead_addrs in *.
  rewrite Hi, Hu, Hsc, Hrn, Hf, Hh. splits; auto.
Qed.

Lemma shape_packed w x : shape x = shape w -> packed w -> packed x.
Proof.
  intros H Hp. destruct (shape_fields _ _ H) as (Hi & _ & _ & _ & _ & _ & _ & _ & Hrb & _).
  unfold packed in *. rewrite Hi, Hrb. exact Hp.
Qed.

Lemma silent_script E k a w :
  silent_hooks E ->
  fst (client_before_hook E k a w) = [] /\ client_after_hook E k a w = [].
Proof.
  intros Hs. destruct (Hs k a w) as [H1 H2]. split.
  - destruct (fst (client_before_hook E k a w)); [reflexivity|discriminate H1].
  - destruct (client_after_hook E k a w); [reflexivity|discriminate H2].
Qed.

Lemma silent_invoke_before E cb i w :
  silent_hooks E ->
  exists w' ret,
    invoke_before E cb i w = Ok (w', ret)
    /\ shape w' = shape w /\ pollfd (rtpoll w') = pollfd (rtpoll w).
Proof.
  intros Hs. unfold invoke_before. destruct cb; cbn.
  - eexists _, _. split; [reflexivity|]. split; reflexivity.
  - eexists _, _. split; [reflexivity|]. split; reflexivity.
  - destruct (silent_script E k (addr i) w Hs) as [H1 _].
    destruct (client_before_hook E k (addr i) w) as [script ret]. cbn [fst] in H1.
    subst script. cbn. eexists _, _. split; [reflexivity|]. split; reflexivity.
Qed.

Lemma silent_invoke_after E cb i w :
  silent_hooks E -> after_cb i = Some cb -> client_after i = true ->
  exists w',
    invoke_after E cb i w = Ok w'
    /\ shape w' = shape w /\ pollfd (rtpoll w') = pollfd (rtpoll w).
Proof.
  intros Hs Hcb Hc. unfold client_after in Hc. rewrite Hcb in Hc.
  unfold invoke_after. destruct cb; try discriminate Hc.
  destruct (silent_script E k (addr i) w Hs) as [_ H2]. rewrite H2. cbn.
  eexists. split; [reflexivity|]. split; reflexivity.
Qed.

Lemma silent_before_loop E : silent_hooks E -> forall todo w,
  incl todo (map addr (items (rtpoll w))) ->
  exists w' refused,
    before_loop E todo w = Ok (w', refused)
    /\ shape w' = shape w /\ pollfd (rtpoll w') = pollfd (rtpoll w)
    /\ match refused with Some b => In b todo | None => True end.
Proof.
  intros Hs. induction todo as [|a todo IH]; intros w Hin.
  - exists w, None. cbn. auto.
  - assert (Hin' : forall x, shape x = shape w -> incl todo (map addr (items (rtpoll x)))).
    { intros x Hx. destruct (shape_fields _ _ Hx) as (Hi & _). rewrite Hi.
      intros b Hb. apply Hin. right. exact Hb. }
    assert (Hskip : exists w' refused,
               before_loop E todo w = Ok (w', refused)
               /\ shape w' = shape w /\ pollfd (rtpoll w') = pollfd (rtpoll w)
               /\ match refused with Some b => In b (a :: todo) | None => True end).
    { destruct (IH w (Hin' w eq_refl)) as (w' & rf & H1 & H2 & H3 & H4).
      exists w', rf. splits; auto. destruct rf; [right; exact H4|exact I]. }
    cbn [before_loop].
    destruct (find_item a (items (rtpoll w))) as [i|] eqn:Hf.
    + destruct (dead i); [exact Hskip|].
      destruct (before_cb i) as [cb|]; [|exact Hskip].
      destruct (silent_invoke_before E cb i w Hs) as (w1 & ret & Hinv & Hsh1 & Hb1).
      rewrite Hinv. cbn [bind]. destruct (ret <? 0).
      * exists w1, (Some a). splits; auto. left. reflexivity.
      * destruct (IH w1 (Hin' w1 Hsh1)) as (w' & rf & H1 & H2 & H3 & H4).
        exists w', rf. splits; auto; try congruence.
        destruct rf; [right; exact H4|exact I].
    + exfalso. assert (Ha : In a (map addr (items (rtpoll w)))) by (apply Hin; left; reflexivity).
      apply in_map_iff in Ha. destruct Ha as (j & Hj & Hjin).
      clear - Hf Hj Hjin. induction (items (rtpoll w)) as [|x l IHl]; [destruct Hjin|].
      cbn in Hf. destruct (Nat.eqb (addr x) a) eqn:Hx; [discriminate|].
      destruct Hjin as [->|Hjin]; [|auto].
      apply Nat.eqb_neq in Hx. congruence.
Qed.

Lemma silent_rewind E l0 :
  silent_hooks E -> NoDup (map addr l0) -> Forall (fun i => client_after i = true) l0 ->
  forall rp rest fuel w,
    l0 = rev rp ++ rest -> items (rtpoll w) = l0 -> (length rp <= fuel)%nat ->
    exists w',
      rewind E fuel (match rp with [] => None | j :: _ => Some (addr j) end) w = Ok w'
      /\ shape w' = shape w /\ pollfd (rtpoll w') = pollfd (rtpoll w).
Proof.
  intros Hs Hnd Hca. induction rp as [|j rp IH]; intros rest fuel w Hl Hit Hfuel.
  - exists w. destruct fuel; cbn; auto.
  - destruct fuel as [|fuel]; [cbn in Hfuel; lia|]. cbn [rewind].
    assert (Hl' : l0 = rev rp ++ j :: rest)
      by (rewrite Hl; cbn [rev]; rewrite <- app_assoc; reflexivity).
    assert (Hni : ~ In (addr j) (map addr (rev rp))).
    { rewrite Hl', map_app in Hnd. cbn [map] in Hnd. eapply NoDup_app_not_in; eauto. }
    assert (Hprev : forall x, items (rtpoll x) = l0 ->
              prev_of (addr j) (items (rtpoll x))
              = match rp with [] => None | j' :: _ => Some (addr j') end).
    { intros x Hx. unfold prev_of. rewrite prev_from_addr, Hx, Hl', map_app. cbn [map].
      rewrite prev_addr_spec by exact Hni.
      rewrite <- map_rev, rev_involutive. destruct rp; reflexivity. }
    rewrite Hit, Hl', find_item_mid by exact Hni. rewrite <- Hl', <- Hit.
    assert (Hskip : exists w',
               rewind E fuel (prev_of (addr j) (items (rtpoll w))) w = Ok w'
               /\ shape w' = shape w /\ pollfd (rtpoll w') = pollfd (rtpoll w)).
    { rewrite (Hprev w Hit). apply (IH (j :: rest)); auto. cbn in Hfuel. lia. }
    destruct (dead j); [exact Hskip|].
    destruct (after_cb j) as [cb|] eqn:Hcb; [|exact Hskip].
    assert (Hcj : client_after j = true).
    { rewrite Forall_forall in Hca. apply Hca. rewrite Hl'.
      apply in_or_app. right. left. reflexivity. }
    destruct (silent_invoke_after E cb j w Hs Hcb Hcj) as (w1 & Hinv & Hsh1 & Hb1).
    rewrite Hinv. cbn [bind].
    assert (Hit1 : items (rtpoll w1) = l0)
      by (destruct (shape_fields _ _ Hsh1) as (Hi & _); congruence).
    rewrite (Hprev w1 Hit1).
    destruct (IH (j :: rest) fuel w1) as (w' & H1 & H2 & H3); auto.
    { cbn in Hfuel. lia. }
    exists w'. splits; auto; congruence.
Qed.

Lemma store_revents_length rs : forall buf, length (store_revents rs buf) = length buf.
Proof.
  induction rs as [|r rs IH]; intros [|s buf]; cbn; auto.
Qed.

Lemma silent_clear_item_revents i w :
  0 < n_pollfd i -> item_pollfd i <> None -> ptr_ok (pollfd (rtpoll w)) i ->
  exists w', clear_item_revents i w = Ok w' /\ shape w' = shape w.
Proof.
  intros Hn Hne Hp. unfold clear_item_revents.
  replace (n_pollfd i <=? 0) with false by (symmetry; apply Z.leb_gt; exact Hn).
  unfold ptr_ok in Hp. destruct (item_pollfd i) as [off|]; [|congruence].
  destruct Hp as [H1 H2].
  destruct (read_slots_ok (pollfd (rtpoll w)) off (n_pollfd i)) as [Hr Hlen]; try lia.
  rewrite Hr. cbn [bind].
  destruct (write_slots_ok (pollfd (rtpoll w)) off
              (map clear_revents
                 (firstn (Z.to_nat (n_pollfd i)) (skipn (Z.to_nat off) (pollfd (rtpoll w))))))
    as (buf & Hw & Hlb & _); [lia|rewrite length_map, Hlen; lia|].
  rewrite Hw. cbn [bind]. eexists. split; [reflexivity|].
  unfold shape. fields. rewrite Hlb. reflexivity.
Qed.

Lemma silent_after_loop E : silent_hooks E -> forall ne todo w,
  incl todo (map addr (items (rtpoll w))) ->
  Forall (fun i => client_after i = true /\ 0 < n_pollfd i /\ item_pollfd i <> None
                   /\ ptr_ok (pollfd (rtpoll w)) i) (items (rtpoll w)) ->
  exists w', after_loop E ne todo w = Ok w' /\ shape w' = shape w.
Proof.
  intros Hs ne. induction todo as [|a todo IH]; intros w Hin Hall.
  - exists w. cbn. auto.
  - assert (Hnext : forall x, shape x = shape w ->
              exists w', after_loop E ne todo x = Ok w' /\ shape w' = shape w).
    { intros x Hx. destruct (shape_fields _ _ Hx) as (Hi & Hlen & _).
      destruct (IH x) as (w' & H1 & H2).
      - rewrite Hi. intros b Hb. apply Hin. right. exact Hb.
      - rewrite Hi. eapply Forall_impl; [|exact Hall]. cbn beta.
        intros i (H1 & H2 & H3 & H4). splits; auto.
        unfold ptr_ok in *. destruct (item_pollfd i); [|exact I]. rewrite Hlen. exact H4.
      - exists w'. split; [exact H1|congruence]. }
    cbn [after_loop].
    destruct (find_item a (items (rtpoll w))) as [i|] eqn:Hf.
    + destruct (find_item_In _ _ _ Hf) as [Hini _].
      rewrite Forall_forall in Hall. destruct (Hall _ Hini) as (Hc & Hn & Hne & Hp).
      destruct (dead i); [apply Hnext; reflexivity|].
      destruct (after_cb i) as [cb|] eqn:Hcb; [|apply Hnext; reflexivity].
      assert (H1 : exists w1, (if ne then clear_item_revents i w else Ok w) = Ok w1
                              /\ shape w1 = shape w).
      { destruct ne; [apply silent_clear_item_revents; auto|exists w; auto]. }
      destruct H1 as (w1 & Hcl & Hsh1). rewrite Hcl. cbn [bind].
      destruct (silent_invoke_after E cb i w1 Hs Hcb Hc) as (w2 & Hinv & Hsh2 & _).
      rewrite Hinv. cbn [bind]. apply Hnext. congruence.
    + exfalso. assert (Ha : In a (map addr (items (rtpoll w)))) by (apply Hin; left; reflexivity).
      apply in_map_iff in Ha. destruct Ha as (j & Hj & Hjin).
      clear - Hf Hj Hjin. induction (items (rtpoll w)) as [|x l IHl]; [destruct Hjin|].
      cbn in Hf. destruct (Nat.eqb (addr x) a) eqn:Hx; [discriminate|].
      destruct Hjin as [->|Hjin]; [|auto].
      apply Nat.eqb_neq in Hx. congruence.
Qed.

Lemma layout_ok_congr w x :
  items (rtpoll x) = items (rtpoll w) ->
  length (pollfd (rtpoll x)) = length (pollfd (rtpoll w)) ->
  length (pollfd2 (rtpoll x)) = length (pollfd2 (rtpoll w)) ->
  n_pollfd_alloc (rtpoll x) = n_pollfd_alloc (rtpoll w) ->
  n_pollfd_used (rtpoll x) = n_pollfd_used (rtpoll w) ->
  layout_ok w -> layout_ok x.
Proof.
  intros Hi Hl Hl' Ha Hu (Hcnt & Hall & Hl1 & Hl2 & Hsum).
  unfold layout_ok, count_ok in *. rewrite Hi, Hu, Hl, Hl', Ha. splits; auto.
  eapply Forall_impl; [|exact Hall]. cbn beta. intros i [H1 H2]. split; [exact H1|].
  unfold ptr_ok in *. destruct (item_pollfd i); [|exact I]. rewrite Hl. exact H2.
Qed.

Lemma idle_of_skel w x :
  map skel (items (rtpoll x)) = map skel (items (rtpoll w)) ->
  flist x = flist w -> heap_next x = heap_next w ->
  running (rtpoll x) = false -> scan_for_dead (rtpoll x) = false ->
  n_pollfd_used (rtpoll x) = n_pollfd_used (rtpoll w) ->
  idle w -> idle x.
Proof.
  intros Hsk Hf Hh Hr Hs Hu (_ & (Hnd & Hlt) & Hcnt & _ & Hd).
  unfold idle, wf_addr, count_ok, addrs, dead_addrs in *.
  rewrite (skel_addr _ _ Hsk), (skel_slot_sum _ _ Hsk), (skel_dead_addrs _ _ Hsk), Hf, Hh, Hu.
  splits; auto.
Qed.

Lemma skel_client_after l l' :
  map skel l' = map skel l ->
  Forall (fun i => client_after i = true) l -> Forall (fun i => client_after i = true) l'.
Proof.
  revert l'. induction l as [|i l IH]; intros [|i' l'] H Hall; try discriminate;
    [constructor|].
  cbn [map] in H. inversion Hall as [|x xs Hx Hall']; subst.
  assert (Hsi : skel i' = skel i)
    by (change (hd (skel i) (skel i' :: map skel l') = skel i); rewrite H; reflexivity).
  assert (Hsl : map skel l' = map skel l)
    by (change (tl (skel i' :: map skel l') = map skel l); rewrite H; reflexivity).
  constructor; [|auto].
  unfold client_after in *.
  replace (after_cb i') with (after_cb i); [exact Hx|].
  change (after_cb i = snd (fst (skel i'))). rewrite Hsi. reflexivity.
Qed.

Lemma layout_pointers l : forall e,
  map item_pollfd l = layout e l -> Forall (fun i => 0 < n_pollfd i) l ->
  Forall (fun i => item_pollfd i <> None) l.
Proof.
  induction l as [|i l IH]; intros e Hlay Hall; [constructor|].
  inversion Hall as [|x xs Hx Hall']; subst. cbn [map layout] in Hlay.
  injection Hlay as Hi Hl. constructor; [|eauto].
  rewrite Hi. replace (0 <? n_pollfd i) with true; [discriminate|].
  symmetry. apply Z.ltb_lt. exact Hx.
Qed.

Lemma find_first a : forall (l : list pa_rtpoll_item),
  In a (map addr l) ->
  exists l1 i l2, l = l1 ++ i :: l2 /\ addr i = a /\ ~ In a (map addr l1).
Proof.
  induction l as [|x l IH]; [intros []|]. cbn [map]. intros Hin.
  destruct (Nat.eq_dec (addr x) a) as [Hx|Hx].
  - exists [], x, l. splits; auto.
  - destruct Hin as [Hin|Hin]; [congruence|].
    destruct (IH Hin) as (l1 & i & l2 & -> & Ha & Hni).
    exists (x :: l1), i, l2. splits; auto. cbn. intros [H|H]; [congruence|auto].
Qed.

(** X15: on an installed poll set between two cycles, with sound
    bookkeeping, [pa_rtpoll_run] returns: no assertion fails and no
    pointer is used that is not valid; afterwards the poll set is again
    between two cycles with sound bookkeeping, and holds the same items.
    The hooks are taken to be hooks of the client (for the after-hooks)
    that make no call of the interface. *)
Theorem cycle_returns (E : Env) (fuel : nat) (w : world) :
  silent_hooks E ->
  idle w -> layout_ok w -> packed w ->
  Forall (fun i => client_after i = true) (items (rtpoll w)) ->
  installed (rtpoll w) = true ->
  (length (items (rtpoll w)) <= fuel)%nat ->
  exists w' r,
    pa_rtpoll_run E fuel w = Ok (w', r)
    /\ idle w' /\ layout_ok w' /\ packed w'
    /\ map skel (items (rtpoll w')) = map skel (items (rtpoll w)).
Proof.
  intros Hs Hid Hlo Hpk Hca Hinst Hfuel.
  pose proof Hid as (Hrun & (Hnd & _) & Hcnt & Hscan & _).
  apply NoDup_app_remove_r in Hnd. unfold addrs in Hnd.
  unfold pa_rtpoll_run. rewrite Hrun, Hinst. cbn [negb pa_assert bind].
  set (w1 := set_rtpoll (set_running true (rtpoll w)) w).
  destruct (silent_before_loop E Hs (map addr (items (rtpoll w1))) w1)
    as (w2 & refused & Hbl & Hsh2 & Hb2 & Href); [intros x Hx; exact Hx|].
  rewrite Hbl. cbn [bind].
  destruct (shape_fields _ _ Hsh2)
    as (Hi2 & Hl2 & Hp2 & Ha2 & Hu2 & Hsc2 & Hr2 & _ & Hrb2 & Hf2 & Hh2).
  subst w1. fields in Hi2. fields in Hl2. fields in Hp2. fields in Ha2. fields in Hu2.
  fields in Hsc2. fields in Hr2. fields in Hrb2. fields in Hf2. fields in Hh2.
  fields in Href. fields in Hb2.
  assert (Hlo2 : layout_ok w2)
    by (apply (layout_ok_congr w w2); auto; congruence).
  destruct refused as [b|].
  - destruct (find_first b _ Href) as (l1 & ib & l2 & Hit & Hab & Hni).
    assert (Hcur : prev_of b (items (rtpoll w2))
                   = match rev l1 with [] => None | j :: _ => Some (addr j) end).
    { unfold prev_of. rewrite prev_from_addr, Hi2, Hit, map_app. cbn [map].
      rewrite Hab, prev_addr_spec by exact Hni.
      rewrite <- map_rev. destruct (rev l1); reflexivity. }
    rewrite Hcur.
    destruct (silent_rewind E (items (rtpoll w)) Hs Hnd Hca (rev l1) (ib :: l2) fuel w2)
      as (w3 & Hrw & Hsh3 & Hb3); auto.
    { rewrite rev_involutive. exact Hit. }
    { rewrite length_rev. rewrite Hit, length_app in Hfuel. lia. }
    rewrite Hrw. cbn [bind].
    destruct (shape_fields _ _ Hsh3)
      as (Hi3 & Hl3 & Hp3 & Ha3 & Hu3 & Hsc3 & Hr3 & _ & Hrb3 & Hf3 & Hh3).
    unfold finish. fields. rewrite Hsc3, Hsc2, Hscan. cbn [bind].
    eexists _, _. split; [reflexivity|].
    assert (Hshape : shape (set_errno (auto_junk E)
                              (set_rtpoll (set_running false (rtpoll w3)) w3)) = shape w).
    { unfold shape. fields. rewrite Hi3, Hi2, Hl3, Hl2, Hp3, Hp2, Ha3, Ha2, Hu3, Hu2,
        Hsc3, Hsc2, Hrb3, Hrb2, Hf3, Hf2, Hh3, Hh2, Hrun.
      destruct (shape_fields _ _ Hsh3) as (_ & _ & _ & _ & _ & _ & _ & Hin3 & _).
      destruct (shape_fields _ _ Hsh2) as (_ & _ & _ & _ & _ & _ & _ & Hin2 & _).
      fields in Hin2. rewrite Hin3, Hin2. reflexivity. }
    split; [eapply shape_idle; eauto|]. split; [eapply shape_layout_ok; eauto|].
    split; [eapply shape_packed; eauto|].
    fields. rewrite Hi3, Hi2. reflexivity.
  - (* the rebuild *)
    assert (H3 : exists w3,
               (if rebuild_needed (rtpoll w2)
                then p <- rtpoll_rebuild E (rtpoll w2) ;; Ok (set_rtpoll p w2)
                else Ok w2) = Ok w3
               /\ layout_ok w3 /\ rebuild_needed (rtpoll w3) = false
               /\ map item_pollfd (items (rtpoll w3)) = layout 0 (items (rtpoll w3))
               /\ map skel (items (rtpoll w3)) = map skel (items (rtpoll w))
               /\ n_pollfd_used (rtpoll w3) = n_pollfd_used (rtpoll w)
               /\ scan_for_dead (rtpoll w3) = false
               /\ flist w3 = flist w /\ heap_next w3 = heap_next w).
    { destruct (rebuild_needed (rtpoll w2)) eqn:Hrn.
      - destruct (rebuild_keeps_slots E w2 Hlo2) as (p & Hre & Hlay & _).
        destruct (layout_ok_rebuild E w2 Hlo2) as (p' & Hre' & Hlo3 & Hrn3).
        rewrite Hre in Hre'. injection Hre' as <-.
        destruct (rtpoll_rebuild_keeps E _ _ Hre) as (Hsk & _ & Hsc & Hus & _).
        rewrite Hre. cbn [bind]. exists (set_rtpoll p w2). fields.
        splits; auto; try congruence.
        rewrite (layout_skel _ _ Hsk). exact Hlay.
      - exists w2. splits; auto; try congruence.
        rewrite Hi2. apply Hpk. congruence. }
    destruct H3 as (w3 & Hrb & Hlo3 & Hrn3 & Hlay3 & Hsk3 & Hu3 & Hsc3 & Hf3 & Hh3).
    rewrite Hrb. cbn [bind].
    destruct (sleep E w3) as [[w4 r4] se] eqn:Hsl.
    assert (Hsh4 : shape (advance_timer E w4) = shape w3).
    { assert (Hx : shape w4 = shape w3).
      { unfold sleep, wait_syscall in Hsl.
        destruct (HAVE_PPOLL E); [destruct (linux E);
          [destruct (negb (dont_use_ppoll (rtpoll w3)))|]|];
          injection Hsl as <- _ _; unfold shape; fields;
          rewrite ?store_revents_length; reflexivity. }
      rewrite <- Hx. unfold advance_timer.
      destruct (timer_enabled (rtpoll w4)); [|reflexivity].
      destruct (0 <? period (rtpoll w4)); reflexivity. }
    destruct (shape_fields _ _ Hsh4)
      as (Hi4 & Hl4 & Hp4 & Ha4 & Hu4 & Hsc4 & Hr4 & _ & Hrb4 & Hf4 & Hh4).
    pose proof (shape_layout_ok _ _ Hsh4 Hlo3) as Hlo4.
    destruct (silent_after_loop E Hs (is_no_events r4 (errno (advance_timer E w4)))
                (map addr (items (rtpoll (advance_timer E w4)))) (advance_timer E w4))
      as (w5 & Hal & Hsh5); [intros x Hx; exact Hx| |].
    { pose proof Hlo4 as (_ & Hall4 & _).
      pose proof (skel_client_after _ _ Hsk3 Hca) as Hca3.
      pose proof (layout_pointers _ _ Hlay3 (layout_ok_positive _ Hlo3)) as Hne3.
      rewrite Hi4. rewrite Hi4 in Hall4.
      rewrite Forall_forall in *. intros i Hin.
      destruct (Hall4 _ Hin) as [H1 H2]. splits; auto. }
    rewrite Hal. cbn [bind].
    destruct (shape_fields _ _ Hsh5)
      as (Hi5 & Hl5 & Hp5 & Ha5 & Hu5 & Hsc5 & Hr5 & _ & Hrb5 & Hf5 & Hh5).
    unfold finish. fields. rewrite Hsc5, Hsc4, Hsc3. cbn [bind].
    eexists _, _. split; [reflexivity|].
    split; [|split; [|split]].
    + apply (idle_of_skel w); fields; auto; congruence.
    + apply (layout_ok_congr (advance_timer E w4)); fields; auto. congruence.
    + intros _. fields. rewrite Hi5, Hi4. exact Hlay3.
    + fields. rewrite Hi5, Hi4. exact Hsk3.
Qed.

(** ** The further properties at concrete inputs *)

(** Decide a closed statement about a concrete state by evaluation. *)
Ltac crunch :=
  vm_compute;
  repeat match goal with
         | |- _ /\ _ => split
         | |- Forall _ _ => constructor
         | |- NoDup _ => constructor
         | |- le _ _ => constructor
         | |- True => exact I
         | |- _ = _ => reflexivity
         | |- ~ _ => intro
         | |- _ -> _ => intro
         | H : In _ _ |- _ => cbn in H
         | H : _ \/ _ |- _ => destruct H
         | H : False |- _ => destruct H
         | H : _ = _ |- _ => discriminate H
         end.

Lemma rebuild_grows_capacity_witness :
  let w := world_of (two_items_one_stored quiet_env) quiet_env in
  exists p',
    rtpoll_rebuild quiet_env (rtpoll w) = Ok p'
    /\ rebuild_needed p' = false
    /\ n_pollfd_used p' = n_pollfd_used (rtpoll w)
    /\ n_pollfd_alloc p'
       = (if n_pollfd_alloc (rtpoll w) <? n_pollfd_used (rtpoll w)
          then 2 * n_pollfd_used (rtpoll w) else n_pollfd_alloc (rtpoll w))
    /\ n_pollfd_used p' <= n_pollfd_alloc p'
    /\ Z.of_nat (length (pollfd p')) = n_pollfd_alloc p'
    /\ Z.of_nat (length (pollfd2 p')) = n_pollfd_alloc p'
    /\ layout_ok (set_rtpoll p' w).
Proof.
  intros w. apply (rebuild_grows_capacity quiet_env w). unfold layout_ok. crunch.
Defined.


(** The scenario behind the two witnesses above: the rebuild puts the
    new item at slot 0, zeroed, and the older item behind it with the
    descriptor it had stored. *)
Example rebuild_of_two_items :
  exists w p',
    two_items_one_stored quiet_env = Ok w
    /\ rtpoll_rebuild quiet_env (rtpoll w) = Ok p'
    /\ map addr (items p') = [1; 0]%nat
    /\ map item_pollfd (items p') = [Some 0; Some 1]
    /\ firstn 3 (pollfd p') = [pollfd_zero; pollfd_zero; mk_pollfd 5 POLLIN 0].
Proof.
  eexists _, _. split; [vm_compute; reflexivity|]. split; [vm_compute; reflexivity|].
  splits; reflexivity.
Qed.



(** The scenario behind the witness above: the item held (zero, 5) and
    holds (7, 5) after the store. *)
Example store_into_the_first_slot :
  exists w w1,
    two_items_one_stored quiet_env = Ok w
    /\ slots_of w 0 = Some [pollfd_zero; mk_pollfd 5 POLLIN 0]
    /\ exec_call quiet_env (call_store_pollfd 0 0 (mk_pollfd 7 POLLIN 0)) w = Ok w1
    /\ slots_of w1 0 = Some [mk_pollfd 7 POLLIN 0; mk_pollfd 5 POLLIN 0]
    /\ slots_of w1 1 = Some [pollfd_zero].
Proof.
  eexists _, _. split; [vm_compute; reflexivity|]. split; [reflexivity|].
  split; [vm_compute; reflexivity|]. split; reflexivity.
Qed.


Lemma item_free_outside_a_cycle_witness :
  let w := world_of (two_items_one_stored quiet_env) quiet_env in
  let l1 := [mk_item 1 false None 1 None None 0] in
  let i := mk_item 0 false (Some 0) 2 None None 0 in
  exists w',
    pa_rtpoll_item_free quiet_env 0 w = Ok w'
    /\ items (rtpoll w') = l1 ++ []
    /\ find_item 0 (items (rtpoll w')) = None
    /\ n_pollfd_used (rtpoll w') = u32 (n_pollfd_used (rtpoll w) - n_pollfd i)
    /\ rebuild_needed (rtpoll w') = true
    /\ scan_for_dead (rtpoll w') = scan_for_dead (rtpoll w)
    /\ trace w' = trace w ++ [ev_item_free 0; ev_reclaim 0]
    /\ (forall b, b <> 0%nat -> slots_of w' b = slots_of w b).
Proof.
  intros w l1 i. apply (item_free_outside_a_cycle quiet_env w 0 l1 [] i).
  - reflexivity.
  - crunch.
  - reflexivity.
  - reflexivity.
Defined.

Lemma item_new_then_free_witness :
  let w := world_of (one_item_laid_out quiet_env) quiet_env in
  let w1 := world_of (exec_ops quiet_env [op_call (call_item_new 3)] w) quiet_env in
  exists w2,
    pa_rtpoll_item_free quiet_env 1 w1 = Ok w2
    /\ items (rtpoll w2) = items (rtpoll w)
    /\ pollfd (rtpoll w2) = pollfd (rtpoll w)
    /\ (count_ok w -> n_pollfd_used (rtpoll w2) = n_pollfd_used (rtpoll w))
    /\ rebuild_needed (rtpoll w2) = true
    /\ trace w2 = trace w ++ [ev_item_free 1; ev_reclaim 1].
Proof.
  intros w w1. apply (item_new_then_free quiet_env w w1 3 1); reflexivity.
Defined.

Lemma userdata_round_trip_witness :
  let w := world_of (two_items_one_stored quiet_env) quiet_env in
  exists w',
    pa_rtpoll_item_set_userdata 0 42 w = Ok w'
    /\ pa_rtpoll_item_get_userdata 0 w' = Ok 42
    /\ (forall b, b <> 0%nat ->
          pa_rtpoll_item_get_userdata b w' = pa_rtpoll_item_get_userdata b w)
    /\ view w' = view w
    /\ (forall b, slots_of w' b = slots_of w b).
Proof.
  intros w.
  apply (userdata_round_trip w 0 42 (mk_item 0 false (Some 0) 2 None None 0)).
  reflexivity.
Defined.


Lemma adapter_after_hooks_expect_pollin_witness :
  let w := world_of (after_first_cycle interrupted_env) interrupted_env in
  let i := mk_item 0 false (Some 1) 1 None None 0 in
  let s := mk_pollfd 3 POLLIN POLLIN in
  fdsem_after i w
  = (if (revents s =? 0) || (revents s =? POLLIN)
     then Ok (log (ev_fdsem_after_poll (userdata i)) w)
     else Fault assertion_failed)
  /\ asyncmsgq_after i w
     = (if (revents s =? 0) || (revents s =? POLLIN)
        then Ok (log (ev_asyncmsgq_after_poll (userdata i)) w)
        else Fault assertion_failed).
Proof.
  intros w i s. apply (adapter_after_hooks_expect_pollin i w 1 s); reflexivity.
Defined.

Lemma cycle_dispatch_order_witness :
  let w := world_of (three_hooked_items quiet_env) quiet_env in
  let w' := fst (run_result (pa_rtpoll_run quiet_env 3 w) quiet_env) in
  dispatches (skipn (length (trace w)) (trace w'))
  = map d_before (hooked_before (items (rtpoll w)))
    ++ (if skips_wait quiet_env w then [] else [d_wait])
    ++ map d_after (hooked_after (items (rtpoll w))).
Proof.
  intros w w'.
  apply (cycle_dispatch_order quiet_env 3 w w' 0 (skipn (length (trace w)) (trace w'))).
  - intros k a w0. split; reflexivity.
  - crunch.
  - vm_compute. reflexivity.
  - vm_compute. reflexivity.
  - vm_compute. intros a ret H.
    repeat (destruct H as [H|H]; [try discriminate H; injection H as _ <-; discriminate|]).
    destruct H.
Defined.

(** The scenario behind the witness above: items created as 0, 1, 2 are
    called in the order 2, 1, 0, before and after the one system call. *)
Example dispatch_of_three_items :
  exists w w',
    three_hooked_items quiet_env = Ok w
    /\ pa_rtpoll_run quiet_env 3 w = Ok (w', 0)
    /\ dispatches (skipn (length (trace w)) (trace w'))
       = [d_before 2; d_before 1; d_before 0; d_wait; d_after 2; d_after 1; d_after 0].
Proof.
  eexists _, _. split; [vm_compute; reflexivity|]. split; vm_compute; reflexivity.
Qed.

Lemma old_kernel_cycle_never_waits_witness :
  let w := world_of (exec_ops old_linux_env [op_install] (initial_world old_linux_env))
             old_linux_env in
  let w' := fst (run_result (pa_rtpoll_run old_linux_env 0 w) old_linux_env) in
  0 = 0 /\ Forall (fun e => is_wait e = false) (skipn (length (trace w)) (trace w')).
Proof.
  intros w w'.
  apply (old_kernel_cycle_never_waits old_linux_env 0 w w' 0
           (skipn (length (trace w)) (trace w'))).
  - reflexivity.
  - vm_compute. reflexivity.
  - vm_compute. reflexivity.
Defined.

Lemma cycle_returns_witness :
  let w := world_of (three_hooked_items quiet_env) quiet_env in
  exists w' r,
    pa_rtpoll_run quiet_env 3 w = Ok (w', r)
    /\ idle w' /\ layout_ok w' /\ packed w'
    /\ map skel (items (rtpoll w')) = map skel (items (rtpoll w)).
Proof.
  intros w. apply (cycle_returns quiet_env 3 w).
  - intros k a w0. split; reflexivity.
  - unfold idle, wf_addr. crunch.
  - unfold layout_ok. crunch.
  - unfold packed. crunch.
  - crunch.
  - reflexivity.
  - crunch.
Defined.

Lemma wait_timeout_is_time_to_deadline_witness :
  let E := two_reading_clock_env 1000 3000 in
  let w := world_of (armed_absolute E 2500) E in
  let us := Z.max 0 (next_elapse (rtpoll w) - pa_rtclock_get E (trace w ++ [])) in
  Some 1
  = (if timer_enabled (rtpoll w)
     then Some (if HAVE_PPOLL E then us else c_int (us / 1000))
     else None)
  /\ (us < 2 ^ 31 * 1000 -> c_int (us / 1000) = us / 1000).
Proof.
  intros E w.
  apply (wait_timeout_is_time_to_deadline E 0 w
           (fst (run_result (pa_rtpoll_run E 0 w) E)) 0 [] [] [] (Some 1) 0 0).
  - intros k a w0. split; reflexivity.
  - vm_compute. reflexivity.
  - vm_compute. reflexivity.
Defined.

(** A deadline 2^31 milliseconds away: [poll] is handed -2^31. *)
Example far_deadline_wraps :
  let E := quiet_env in
  let w := world_of (armed_absolute E (2 ^ 31 * 1000)) E in
  exists w',
    pa_rtpoll_run E 0 w = Ok (w', 0)
    /\ skipn (length (trace w)) (trace w') = [ev_wait [] (Some (- 2 ^ 31)) 0 0].
Proof. eexists. split; vm_compute; reflexivity. Qed.

Lemma one_shot_timer_disarms_witness :
  let E := two_reading_clock_env 1000 3000 in
  let w := world_of (armed_absolute E 2500) E in
  let w' := fst (run_result (pa_rtpoll_run E 0 w) E) in
  timer_of w' = (false, next_elapse (rtpoll w), period (rtpoll w)).
Proof.
  intros E w w'.
  apply (one_shot_timer_disarms E 0 w w' 0 [ev_wait [] (Some 1) 0 0]).
  - intros k a w0. split; reflexivity.
  - vm_compute. reflexivity.
  - vm_compute. reflexivity.
  - intros a ret [H|[]]. discriminate H.
  - crunch.
Defined.

Lemma refused_cycle_keeps_timer_witness :
  let w := world_of (and_then refusing_env (three_hooked_items refusing_env)
                       [op_call (call_set_timer_absolute 2500)]) refusing_env in
  let w' := fst (run_result (pa_rtpoll_run refusing_env 3 w) refusing_env) in
  timer_of w' = timer_of w /\ 0 = 0
  /\ Forall (fun e => is_wait e = false) [ev_before 2 0; ev_before 1 (-1); ev_after 2 []].
Proof.
  intros w w'.
  apply (refused_cycle_keeps_timer refusing_env 3 w w' 0
           [ev_before 2 0; ev_before 1 (-1); ev_after 2 []] 1 (-1)).
  - intros k a w0. split; reflexivity.
  - vm_compute. reflexivity.
  - vm_compute. reflexivity.
  - right. left. reflexivity.
  - reflexivity.
Defined.

(** ** The bookkeeping stays sound *)

Lemma slot_sum_remove a : forall l i,
  find_item a l = Some i -> slot_sum (llist_remove a l) = slot_sum l - n_pollfd i.
Proof.
  induction l as [|x l IH]; intros i H; [discriminate|].
  cbn [find_item llist_remove] in *.
  destruct (Nat.eqb (addr x) a).
  - injection H as <-. rewrite slot_sum_cons. lia.
  - rewrite !slot_sum_cons, (IH _ H). lia.
Qed.

Lemma Forall_remove (P : pa_rtpoll_item -> Prop) a l :
  Forall P l -> Forall P (llist_remove a l).
Proof.
  induction 1 as [|x l Hx Hl IH]; cbn; [constructor|].
  destruct (Nat.eqb (addr x) a); [exact Hl|constructor; assumption].
Qed.

Lemma layout_ok_destroy E a w w' :
  layout_ok w -> rtpoll_item_destroy E a w = Ok w' ->
  layout_ok w' /\ rebuild_needed (rtpoll w') = true
  /\ slot_sum (items (rtpoll w')) <= slot_sum (items (rtpoll w)).
Proof.
  intros Hlo H. destruct (layout_ok_used w Hlo) as (Hs0 & Hu & _).
  destruct Hlo as (Hcnt & Hall & Hl1 & Hl2 & Hsum).
  unfold rtpoll_item_destroy in H.
  destruct (find_item a (items (rtpoll w))) as [i|] eqn:Hf; [|discriminate].
  injection H as <-.
  pose proof (slot_sum_remove _ _ _ Hf) as Hrm.
  destruct (find_item_In _ _ _ Hf) as [Hin _].
  rewrite Forall_forall in Hall. destruct (Hall _ Hin) as [Hn _].
  rewrite <- Forall_forall in Hall.
  unfold layout_ok, count_ok. fields. rewrite Hrm, Hu.
  splits; auto; try lia.
  apply Forall_remove. exact Hall.
Qed.

Lemma layout_update_item a f l :
  (forall i, n_pollfd (f i) = n_pollfd i) ->
  (forall i, item_pollfd (f i) = item_pollfd i) ->
  (forall e, layout e (update_item a f l) = layout e l)
  /\ map item_pollfd (update_item a f l) = map item_pollfd l.
Proof.
  intros Hn Hp. split.
  - induction l as [|x l IH]; intros e; cbn; [reflexivity|].
    assert (Hx : n_pollfd (if Nat.eqb (addr x) a then f x else x) = n_pollfd x)
      by (destruct (Nat.eqb (addr x) a); auto).
    rewrite Hx. f_equal. apply IH.
  - unfold update_item. rewrite map_map. apply map_ext. intros x.
    destruct (Nat.eqb (addr x) a); auto.
Qed.

Lemma sound_update_item a f w w' :
  (forall i, n_pollfd (f i) = n_pollfd i) ->
  (forall i, item_pollfd (f i) = item_pollfd i) ->
  layout_ok w -> packed w -> update_item_checked a f w = Ok w' ->
  layout_ok w' /\ packed w' /\ slot_sum (items (rtpoll w')) = slot_sum (items (rtpoll w)).
Proof.
  intros Hn Hp (Hcnt & Hall & Hl1 & Hl2 & Hsum) Hpk H. unfold update_item_checked in H.
  destruct (find_item a (items (rtpoll w))); [|discriminate]. injection H as <-.
  destruct (layout_update_item a f (items (rtpoll w)) Hn Hp) as [Hlay Hmap].
  assert (Hss : slot_sum (update_item a f (items (rtpoll w))) = slot_sum (items (rtpoll w)))
    by (apply update_item_slot_sum; exact Hn).
  unfold layout_ok, count_ok, packed. fields. rewrite Hss, Hlay, Hmap.
  splits; auto.
  unfold update_item. apply Forall_map. eapply Forall_impl; [|exact Hall]. cbn beta.
  intros i [H1 H2]. destruct (Nat.eqb (addr i) a); [|auto].
  split; [rewrite Hn; exact H1|]. unfold ptr_ok in *. rewrite Hp, Hn. exact H2.
Qed.

Lemma sound_get_pollfd E a w w' ptr :
  layout_ok w -> packed w -> pa_rtpoll_item_get_pollfd E a w = Ok (w', ptr) ->
  layout_ok w' /\ packed w' /\ slot_sum (items (rtpoll w')) = slot_sum (items (rtpoll w)).
Proof.
  intros Hlo Hpk H.
  destruct (find_item a (items (rtpoll w))) as [i|] eqn:Hf.
  - destruct (get_pollfd_spec E w a i Hlo Hpk Hf)
      as (p1 & i1 & off & Hget & _ & _ & _ & Hlo1 & _ & Hlay & Hsk & _).
    rewrite Hget in H. injection H as <- _.
    split; [exact Hlo1|]. split; [intros _; exact Hlay|]. fields.
    apply skel_slot_sum. exact Hsk.
  - unfold pa_rtpoll_item_get_pollfd in H. rewrite Hf in H. discriminate.
Qed.

Lemma sound_store_through ptr j f w w' :
  layout_ok w -> packed w -> store_through ptr j f w = Ok w' ->
  layout_ok w' /\ packed w' /\ slot_sum (items (rtpoll w')) = slot_sum (items (rtpoll w)).
Proof.
  intros Hlo Hpk H. unfold store_through in H. destruct ptr; [|discriminate].
  inv_bind_as H old. inv_bind_as H buf. injection H as <-.
  apply write_slots_length in Hm0.
  split; [apply layout_ok_set_pollfd; assumption|]. split; [exact Hpk|reflexivity].
Qed.

Lemma sound_item_new_layout n w w' a :
  layout_ok w -> slot_sum (items (rtpoll w)) + Z.max 0 n < 2 ^ 30 ->
  pa_rtpoll_item_new n w = Ok (w', a) ->
  layout_ok w' /\ packed w'
  /\ slot_sum (items (rtpoll w')) = slot_sum (items (rtpoll w)) + Z.max 0 n.
Proof.
  intros Hlo Hb H.
  assert (Hpos : 0 < n).
  { unfold pa_rtpoll_item_new in H. inv_bind_as H u. apply pa_assert_ok in Hm.
    apply Z.ltb_lt. exact Hm. }
  split; [apply (layout_ok_item_new w n w' a Hlo); [lia|exact H]|].
  destruct (pa_rtpoll_item_new_fields n w Hpos) as (w1 & a1 & Hnew & Hp & _).
  rewrite Hnew in H. injection H as <- <-. rewrite Hp. split.
  - intros Hx. rewrite Hp in Hx. discriminate Hx.
  - fields. rewrite slot_sum_cons. cbn [n_pollfd]. lia.
Qed.

Lemma sound_new_adapter_item E d b c h w w' i :
  layout_ok w -> packed w -> slot_sum (items (rtpoll w)) + 1 < 2 ^ 30 ->
  new_adapter_item E d b c h w = Ok (w', i) ->
  layout_ok w' /\ packed w'
  /\ slot_sum (items (rtpoll w')) = slot_sum (items (rtpoll w)) + 1.
Proof.
  intros Hlo Hpk Hb H. unfold new_adapter_item in H.
  inv_bind_as H u. inv_bind_as H [w1 i1].
  inv_bind_as H [w2 ptr]. inv_bind_as H w3. inv_bind_as H w4.
  injection H as <- _.
  destruct (sound_item_new_layout 1 w w1 i1 Hlo) as (Hlo1 & Hpk1 & Hs1); [lia|exact Hm0|].
  destruct (sound_get_pollfd E i1 w1 w2 ptr Hlo1 Hpk1 Hm1) as (Hlo2 & Hpk2 & Hs2).
  destruct (sound_store_through _ _ _ _ _ Hlo2 Hpk2 Hm2) as (Hlo3 & Hpk3 & Hs3).
  destruct (sound_update_item i1
              (fun it => set_userdata h (set_after_cb (Some c) (set_before_cb (Some b) it)))
              w3 w4 (fun _ => eq_refl) (fun _ => eq_refl) Hlo3 Hpk3 Hm3)
    as (Hlo4 & Hpk4 & Hs4).
  splits; auto. lia.
Qed.

Lemma sound_update_timer E w :
  layout_ok w -> packed w -> layout_ok (update_timer E w) /\ packed (update_timer E w).
Proof.
  intros Hlo Hpk. unfold update_timer.
  destruct (HAVE_PPOLL E && negb (linux E && dont_use_ppoll (rtpoll w))); auto.
Qed.

Lemma sound_exec_call E c w w' :
  idle w -> layout_ok w -> packed w ->
  slot_sum (items (rtpoll w)) + slots_asked (op_call c) < 2 ^ 30 ->
  exec_call E c w = Ok w' ->
  layout_ok w' /\ packed w'
  /\ slot_sum (items (rtpoll w')) <= slot_sum (items (rtpoll w)) + slots_asked (op_call c).
Proof.
  intros Hid Hlo Hpk Hb H. destruct c; cbn [exec_call slots_asked] in *.
  - inv_bind_as H [w1 a1]. injection H as <-.
    destruct (sound_item_new_layout _ _ _ _ Hlo Hb Hm) as (H1 & H2 & H3).
    splits; auto. lia.
  - unfold pa_rtpoll_item_free in H. fields in H.
    destruct (find_item a (items (rtpoll w))); [|discriminate].
    destruct Hid as (Hrun & _). rewrite Hrun in H.
    assert (Hlo' : layout_ok (log (ev_item_free a) w)) by exact Hlo.
    destruct (layout_ok_destroy E a _ _ Hlo' H) as (H1 & H2 & H3).
    split; [exact H1|]. split; [intros Hx; congruence|].
    fields in H3. lia.
  - inv_bind_as H [w1 p1]. injection H as <-.
    destruct (sound_get_pollfd _ _ _ _ _ Hlo Hpk Hm) as (H1 & H2 & H3). splits; auto. lia.
  - inv_bind_as H [w1 p1].
    destruct (sound_get_pollfd _ _ _ _ _ Hlo Hpk Hm) as (H1 & H2 & H3).
    destruct (sound_store_through _ _ _ _ _ H1 H2 H) as (H4 & H5 & H6). splits; auto. lia.
  - destruct (sound_update_item a (set_before_cb cb) w w'
                (fun _ => eq_refl) (fun _ => eq_refl) Hlo Hpk H) as (H1 & H2 & H3).
    splits; auto. lia.
  - destruct (sound_update_item a (set_after_cb cb) w w'
                (fun _ => eq_refl) (fun _ => eq_refl) Hlo Hpk H) as (H1 & H2 & H3).
    splits; auto. lia.
  - destruct (sound_update_item a (set_userdata u) w w'
                (fun _ => eq_refl) (fun _ => eq_refl) Hlo Hpk H) as (H1 & H2 & H3).
    splits; auto. lia.
  - inv_bind_as H [w1 a1]. injection H as <-.
    destruct (sound_new_adapter_item _ _ _ _ _ _ _ _ Hlo Hpk Hb Hm) as (H1 & H2 & H3).
    splits; auto. lia.
  - inv_bind_as H [w1 a1]. injection H as <-.
    destruct (sound_new_adapter_item _ _ _ _ _ _ _ _ Hlo Hpk Hb Hm) as (H1 & H2 & H3).
    splits; auto. lia.
  - injection H as <-. unfold pa_rtpoll_set_timer_absolute.
    destruct (sound_update_timer E
                (set_rtpoll (set_timer_enabled true (set_period 0
                               (set_next_elapse ts (rtpoll w)))) w)) as [H1 H2]; auto.
    splits; auto. rewrite Z.add_0_r.
    unfold update_timer. fields.
    destruct (HAVE_PPOLL E && negb (linux E && dont_use_ppoll (rtpoll w))); fields; lia.
  - injection H as <-. unfold pa_rtpoll_set_timer_periodic.
    match goal with |- layout_ok (update_timer E ?x) /\ _ =>
      destruct (sound_update_timer E x) as [H1 H2]; auto end.
    splits; auto. rewrite Z.add_0_r.
    unfold update_timer. fields.
    destruct (HAVE_PPOLL E && negb (linux E && dont_use_ppoll (rtpoll w))); fields; lia.
  - injection H as <-. unfold pa_rtpoll_set_timer_relative.
    match goal with |- layout_ok (update_timer E ?x) /\ _ =>
      destruct (sound_update_timer E x) as [H1 H2]; auto end.
    splits; auto. rewrite Z.add_0_r.
    unfold update_timer. fields.
    destruct (HAVE_PPOLL E && negb (linux E && dont_use_ppoll (rtpoll w))); fields; lia.
  - injection H as <-. unfold pa_rtpoll_set_timer_disabled.
    match goal with |- layout_ok (update_timer E ?x) /\ _ =>
      destruct (sound_update_timer E x) as [H1 H2]; auto end.
    splits; auto. rewrite Z.add_0_r.
    unfold update_timer. fields.
    destruct (HAVE_PPOLL E && negb (linux E && dont_use_ppoll (rtpoll w))); fields; lia.
Qed.

Lemma shape_sleep E w w' r se : sleep E w = (w', r, se) -> shape w' = shape w.
Proof.
  unfold sleep, wait_syscall. intros H.
  destruct (HAVE_PPOLL E); [destruct (linux E);
    [destruct (negb (dont_use_ppoll (rtpoll w)))|]|];
    injection H as <- _ _; unfold shape; fields;
    rewrite ?store_revents_length; reflexivity.
Qed.

Lemma shape_advance_timer E w : shape (advance_timer E w) = shape w.
Proof.
  unfold advance_timer. destruct (timer_enabled (rtpoll w)); [|reflexivity].
  destruct (0 <? period (rtpoll w)); reflexivity.
Qed.

(** A cycle whose hooks make no call keeps the bookkeeping sound. *)
Lemma sound_run E fuel w w' r :
  silent_hooks E ->
  idle w -> layout_ok w -> packed w ->
  pa_rtpoll_run E fuel w = Ok (w', r) ->
  layout_ok w' /\ packed w'
  /\ slot_sum (items (rtpoll w')) = slot_sum (items (rtpoll w)).
Proof.
  intros Hs Hid Hlo Hpk H. pose proof Hid as (_ & _ & _ & Hscan & _).
  set (J := fun x : world =>
              layout_ok x /\ packed x /\ scan_for_dead (rtpoll x) = false
              /\ slot_sum (items (rtpoll x)) = slot_sum (items (rtpoll w))).
  assert (Jcall : forall c x x', (fun _ : api_call => false) c = true ->
            J x -> exec_call E c x = Ok x' -> J x') by (intros; discriminate).
  assert (Jlog : forall e x, J x -> J (log e x)) by (intros e x Hx; exact Hx).
  assert (Jbuf : forall buf x, length buf = length (pollfd (rtpoll x)) ->
            J x -> J (set_rtpoll (set_pollfd buf (rtpoll x)) x)).
  { intros buf x Hl (H1 & H2 & H3 & H4). unfold J. splits; auto.
    apply layout_ok_set_pollfd; assumption. }
  assert (Jshape : forall x y, shape y = shape x -> J x -> J y).
  { intros x y Hsh (H1 & H2 & H3 & H4).
    destruct (shape_fields _ _ Hsh) as (Hi & _ & _ & _ & _ & Hsc & _).
    unfold J. rewrite Hi, Hsc. splits; auto;
      first [eapply shape_layout_ok; eauto | eapply shape_packed; eauto]. }
  assert (Jfinish : forall x rr se, J x -> finish E rr se x = Ok (w', r) ->
            layout_ok w' /\ packed w'
            /\ slot_sum (items (rtpoll w')) = slot_sum (items (rtpoll w))).
  { intros x rr se (H1 & H2 & H3 & H4) Hf. unfold finish in Hf. fields in Hf.
    rewrite H3 in Hf. cbn [bind] in Hf. injection Hf as <- _.
    splits; auto; apply (layout_ok_congr x); auto. }
  unfold pa_rtpoll_run in H.
  inv_bind_as H u1. inv_bind_as H u2. inv_bind_as H [w2 refused].
  assert (J1 : J (set_rtpoll (set_running true (rtpoll w)) w)).
  { unfold J. splits; auto; apply (layout_ok_congr w); auto. }
  apply (before_loop_frame E (fun _ => false) J Hs Jcall Jlog) in Hm1; [|exact J1].
  destruct refused as [b|].
  - inv_bind_as H w3.
    apply (rewind_frame E (fun _ => false) J Hs Jcall Jlog) in Hm2; [|exact Hm1].
    exact (Jfinish _ _ _ Hm2 H).
  - inv_bind_as H w3.
    assert (J3 : J w3).
    { pose proof Hm1 as (H1 & H2 & H3 & H4). destruct (rebuild_needed (rtpoll w2)) eqn:Hrn.
      - inv_bind_as Hm2 p3. injection Hm2 as <-.
        destruct (rebuild_keeps_slots E w2 H1) as (p & Hre & Hlay & _).
        destruct (layout_ok_rebuild E w2 H1) as (p' & Hre' & Hlo3 & Hrn3).
        rewrite Hre in Hre'. injection Hre' as <-.
        rewrite Hre in Hm3. injection Hm3 as <-.
        destruct (rtpoll_rebuild_keeps E _ _ Hre) as (Hsk & _ & Hsc & _).
        unfold J. fields. splits; auto.
        + intros _. fields. rewrite (layout_skel _ _ Hsk). exact Hlay.
        + congruence.
        + rewrite (skel_slot_sum _ _ Hsk). exact H4.
      - injection Hm2 as <-. unfold J. auto. }
    destruct (sleep E w3) as [[w4 r4] se] eqn:Hsl.
    inv_bind_as H w5.
    assert (J4 : J (advance_timer E w4)).
    { apply (Jshape w3); [|exact J3].
      rewrite shape_advance_timer. eapply shape_sleep; eauto. }
    apply (after_loop_frame E (fun _ => false) J Hs Jcall Jlog Jbuf) in Hm3; [|exact J4].
    exact (Jfinish _ _ _ Hm3 H).
Qed.

Lemma sound_exec_op E o w w' :
  silent_hooks E -> sound w ->
  slot_sum (items (rtpoll w)) + slots_asked o < 2 ^ 30 ->
  exec_op E o w = Ok w' ->
  sound w'
  /\ slot_sum (items (rtpoll w')) <= slot_sum (items (rtpoll w)) + slots_asked o.
Proof.
  intros Hs (Hid & Hlo & Hpk) Hb H.
  pose proof (idle_exec_op E o w w' Hid H) as Hid'.
  destruct o as [c| |fuel]; cbn [exec_op] in H.
  - destruct (sound_exec_call E c w w' Hid Hlo Hpk Hb H) as (H1 & H2 & H3).
    unfold sound. auto.
  - unfold pa_rtpoll_install in H. inv_bind_as H u. injection H as <-.
    unfold sound. splits; auto; try (apply (layout_ok_congr w); auto).
    fields. cbn [slots_asked]. lia.
  - inv_bind_as H [w1 r1]. injection H as <-.
    destruct (sound_run E fuel w w1 r1 Hs Hid Hlo Hpk Hm) as (H1 & H2 & H3).
    unfold sound. splits; auto. cbn [slots_asked]. lia.
Qed.

Lemma slots_asked_nonneg o : 0 <= slots_asked o.
Proof. destruct o as [c| |f]; cbn; try lia. destruct c; cbn; lia. Qed.

Lemma total_asked_nonneg ops : 0 <= total_asked ops.
Proof.
  induction ops as [|o ops IH]; unfold total_asked in *; cbn; [lia|].
  pose proof (slots_asked_nonneg o). lia.
Qed.

Lemma sound_exec_ops E : silent_hooks E -> forall ops w w',
  sound w ->
  slot_sum (items (rtpoll w)) + total_asked ops < 2 ^ 30 ->
  exec_ops E ops w = Ok w' -> sound w'.
Proof.
  intros Hs. induction ops as [|o ops IH]; intros w w' Hw Hb H; cbn in H.
  - injection H as <-. exact Hw.
  - inv_bind_as H w1.
    change (total_asked (o :: ops)) with (slots_asked o + total_asked ops) in Hb.
    pose proof (total_asked_nonneg ops) as Hn.
    destruct (sound_exec_op E o w w1 Hs Hw) as [Hw1 Hs1]; [lia|exact Hm|].
    apply (IH w1 w'); auto. lia.
Qed.

Lemma sound_initial E : sound (initial_world E).
Proof.
  split; [apply idle_initial|]. split; [apply layout_ok_initial|].
  intros _. reflexivity.
Qed.

(** X19: the bookkeeping of a poll set stays sound.  Whatever calls of
    the interface and whatever cycles a client makes on a fresh poll
    set, one after the other, as long as each returns: between two
    cycles no item is marked dead, [n_pollfd_used] is the sum of the
    slot counts of the items, both arrays have [n_pollfd_alloc] slots,
    every pointer of an item lies inside the active array, and unless a
    rebuild is pending the items own consecutive ranges of it in list
    order.  The hooks are taken to make no call of the interface, and
    the slots asked for to stay below 2^30. *)
Theorem bookkeeping_stays_sound (E : Env) (ops : list op) (w' : world) :
  silent_hooks E ->
  total_asked ops < 2 ^ 30 ->
  exec_ops E ops (initial_world E) = Ok w' ->
  idle w' /\ layout_ok w' /\ packed w'.
Proof.
  intros Hs Hb H.
  apply (sound_exec_ops E Hs ops (initial_world E) w' (sound_initial E)); [|exact H].
  change (0 + total_asked ops < 2 ^ 30). lia.
Qed.

Lemma bookkeeping_stays_sound_witness :
  let w' := world_of (exec_ops quiet_env example_ops (initial_world quiet_env)) quiet_env in
  idle w' /\ layout_ok w' /\ packed w'.
Proof.
  intros w'. apply (bookkeeping_stays_sound quiet_env example_ops w').
  - intros k a w0. split; reflexivity.
  - crunch.
  - vm_compute. reflexivity.
Defined.

(** ** What the after-hooks find when the kernel reports events *)











(** Both descriptors reported readable: each after-hook finds [POLLIN]
    in the [revents] of its own slot, and the cycle returns 2. *)
Example revents_of_two_descriptors :
  exists w w',
    two_watched_descriptors interrupted_env = Ok w
    /\ pa_rtpoll_run interrupted_env 2 w = Ok (w', 2)
    /\ skipn (length (trace w)) (trace w')
       = [ev_wait [mk_pollfd 4 POLLIN 0; mk_pollfd 3 POLLIN 0] None 2 0;
          ev_after 1 [mk_pollfd 4 POLLIN POLLIN];
          ev_after 0 [mk_pollfd 3 POLLIN POLLIN]].
Proof.
  eexists _, _. split; [vm_compute; reflexivity|]. split; vm_compute; reflexivity.
Qed.

(** ** From a timer call to the next wait *)

(** X21: a timer call decides how long the next cycle waits.  After
    [pa_rtpoll_set_timer_disabled] the system call of the next cycle
    waits without limit.  After [pa_rtpoll_set_timer_absolute] it waits
    until the given point in time, after
    [pa_rtpoll_set_timer_relative] and [pa_rtpoll_set_timer_periodic]
    until the clock reading taken inside the call plus the given
    microseconds: the timeout is the distance from the clock reading
    taken just before the system call to that deadline, zero when it has
    passed, in microseconds for [ppoll] and in whole milliseconds for
    [poll], which takes them through its [int] parameter: as they are
    when the deadline is less than 2^31 milliseconds away, reduced
    modulo 2^32 into the range of [int] otherwise.  The hooks are taken
    to make no timer call. *)
Theorem timer_call_sets_the_next_wait
  (E : Env) (fuel : nat) (c : api_call) (w w1 w' : world) (r : Z)
  (d1 d2 : list event) (fds : list struct_pollfd) (t : option Z) (ret err : Z) :
  hooks_within no_timer_call E ->
  timer_call c = true ->
  exec_call E c w = Ok w1 ->
  pa_rtpoll_run E fuel w1 = Ok (w', r) ->
  trace w' = trace w1 ++ d1 ++ ev_wait fds t ret err :: d2 ->
  t = option_map
        (fun dl => let us := Z.max 0 (dl - pa_rtclock_get E (trace w1 ++ d1)) in
                   if HAVE_PPOLL E then us else c_int (us / 1000))
        (armed_deadline E c w)
  /\ (forall dl, armed_deadline E c w = Some dl ->
                 dl - pa_rtclock_get E (trace w1 ++ d1) < 2 ^ 31 * 1000 ->
                 let us := Z.max 0 (dl - pa_rtclock_get E (trace w1 ++ d1)) in
                 c_int (us / 1000) = us / 1000).
Proof.
  intros Hh Hc Hcall H Ht. split.
  - destruct (wait_event_spec E fuel w1 w' r d1 d2 fds t ret err Hh H Ht)
      as (w3 & Ht3 & Htm & ->).
    assert (Hset : timer_enabled (rtpoll w1)
                   = match armed_deadline E c w with Some _ => true | None => false end
                   /\ forall dl, armed_deadline E c w = Some dl -> next_elapse (rtpoll w1) = dl).
    { destruct c; try discriminate Hc; cbn [exec_call] in Hcall; injection Hcall as <-;
        unfold pa_rtpoll_set_timer_absolute, pa_rtpoll_set_timer_periodic,
          pa_rtpoll_set_timer_relative, pa_rtpoll_set_timer_disabled, update_timer;
        match goal with |- context [if ?b then _ else _] => destruct b end;
        fields; cbn [armed_deadline]; (split; [reflexivity|]);
        intros dl Hdl; try discriminate Hdl; injection Hdl as <-; reflexivity. }
    destruct Hset as [Hen Hdl].
    unfold timer_of in Htm. injection Htm as He1 He2 _. rewrite He1, Hen.
    destruct (armed_deadline E c w) as [dl|]; [|reflexivity].
    rewrite calc_timeout_max, He2, Ht3, (Hdl dl eq_refl).
    cbn [option_map]. cbn zeta. f_equal.
    destruct (HAVE_PPOLL E); [reflexivity|]. f_equal. apply milliseconds_of. lia.
  - intros dl _ Hb us. apply c_int_small. split.
    + apply Z.div_pos; lia.
    + apply Z.div_lt_upper_bound; lia.
Qed.

Lemma timer_call_sets_the_next_wait_witness :
  let E := two_reading_clock_env 1000 3000 in
  let w := world_of (installed_only E) E in
  let c := call_set_timer_relative 2500 in
  let w1 := world_of (exec_call E c w) E in
  Some 2
  = option_map
      (fun dl => let us := Z.max 0 (dl - pa_rtclock_get E (trace w1 ++ [])) in
                 if HAVE_PPOLL E then us else c_int (us / 1000))
      (armed_deadline E c w)
  /\ (forall dl, armed_deadline E c w = Some dl ->
                 dl - pa_rtclock_get E (trace w1 ++ []) < 2 ^ 31 * 1000 ->
                 let us := Z.max 0 (dl - pa_rtclock_get E (trace w1 ++ [])) in
                 c_int (us / 1000) = us / 1000).
Proof.
  intros E w c w1.
  apply (timer_call_sets_the_next_wait E 0 c w w1
           (fst (run_result (pa_rtpoll_run E 0 w1) E)) 0 [] [] [] (Some 2) 0 0).
  - intros k a w0. split; reflexivity.
  - reflexivity.
  - reflexivity.
  - vm_compute. reflexivity.
  - vm_compute. reflexivity.
Defined.

(** * The stream-routing callbacks of module-appsurfer *)

Module AppsurferFacts.
Import String.
Import Appsurfer.

Lemma new_sink_input_loop_no_match P p i l tr :
  Forall (fun x => name x <> p) l ->
  new_sink_input_loop P (Some p) i l tr = Ok (tr, false).
Proof.
  induction 1 as [|x l Hx _ IH]; cbn; [reflexivity|].
  apply String.eqb_neq in Hx. rewrite String.eqb_sym in Hx. rewrite Hx. exact IH.
Qed.

Lemma move_fail_loop_no_match P p i l tr :
  Forall (fun x => name x <> p) l ->
  move_fail_loop P (Some p) i l tr = Ok (tr, falls_off_the_end).
Proof.
  induction 1 as [|x l Hx _ IH]; cbn; [reflexivity|].
  apply String.eqb_neq in Hx. rewrite String.eqb_sym in Hx. rewrite Hx. exact IH.
Qed.

Lemma running_core (A : Type) (c : pa_core) (x y : A) :
  state c <> PA_CORE_SHUTDOWN ->
  match state c with PA_CORE_SHUTDOWN => x | _ => y end = y.
Proof. destruct (state c); congruence. Qed.

(** X22: a new stream goes to the first sink that is named after its
    process.  While the core is not shutting down,
    [new_sink_input_callback] asks for one move of the stream, to the
    first sink in the order of [c->sinks] whose name equals the
    [application.process.id] of the stream; sinks of the same name
    further on are not tried, nothing is allocated and no module is
    loaded; and whether or not the move succeeds, the callback returns
    [PA_HOOK_OK]. *)
Theorem new_stream_goes_to_first_sink_named_by_pid
  (P : Pulsecore) (c : pa_core) (i : pa_sink_input) (tr : list pulsecore_call)
  (p : string) (before after : list pa_sink) (s : pa_sink) :
  state c <> PA_CORE_SHUTDOWN ->
  process_id i = Some p ->
  sinks c = before ++ s :: after ->
  Forall (fun x => name x <> p) before ->
  name s = p ->
  new_sink_input_callback P c i tr
  = Ok (tr ++ [call_sink_input_move_to i (target_sink s);
               call_log_info (0 <=? pa_sink_input_move_to P tr i (target_sink s))],
        PA_HOOK_OK).
Proof.
  intros Hst Hp Hs Hb Hn. unfold new_sink_input_callback.
  rewrite running_core by exact Hst. rewrite Hp, Hs. clear Hs.
  assert (Hloop : new_sink_input_loop P (Some p) i (before ++ s :: after) tr
                  = Ok (move_and_log P i (target_sink s) tr, true)).
  { induction Hb as [|x l Hx _ IH]; cbn.
    - rewrite Hn, String.eqb_refl. reflexivity.
    - apply String.eqb_neq in Hx. rewrite String.eqb_sym in Hx. rewrite Hx. exact IH. }
  rewrite Hloop. cbn [bind]. unfold move_and_log. rewrite Z.leb_antisym.
  destruct (pa_sink_input_move_to P tr i (target_sink s) <? 0);
    cbn [negb]; rewrite <- app_assoc; reflexivity.
Qed.

(** X23: a stream whose process has no sink yet.  When no sink carries
    the [application.process.id] of the stream,
    [new_sink_input_callback] moves the stream to no sink of the core:
    it allocates [strlen(pid)+11] bytes, which the text [sink_name=] and
    the process id and the terminating NUL fill exactly, calls
    [pa_module_load] once with that text as argument, and asks for a
    move only if a module came back, handing that module over as the
    target.  It returns [PA_HOOK_OK] in every case. *)
Theorem new_stream_without_sink_loads_a_module
  (P : Pulsecore) (c : pa_core) (i : pa_sink_input) (tr : list pulsecore_call)
  (p : string) :
  state c <> PA_CORE_SHUTDOWN ->
  process_id i = Some p ->
  Forall (fun x => name x <> p) (sinks c) ->
  let argument := String.append "sink_name=" p in
  let tr1 := tr ++ [call_xmalloc (Z.of_nat (String.length argument) + 1)] in
  let tr2 := tr1 ++ [call_module_load (multichar_constant P) argument] in
  new_sink_input_callback P c i tr
  = Ok (match pa_module_load P tr1 (multichar_constant P) argument with
        | Some m =>
            tr2 ++ [call_sink_input_move_to i (target_module m);
                    call_log_info (0 <=? pa_sink_input_move_to P tr2 i (target_module m))]
        | None => tr2
        end, PA_HOOK_OK).
Proof.
  intros Hst Hp Hno argument tr1 tr2. unfold new_sink_input_callback.
  rewrite running_core by exact Hst. rewrite Hp.
  rewrite (new_sink_input_loop_no_match P p i (sinks c) tr Hno).
  cbn [bind strlen]. unfold sprintf_sink_name.
  assert (Hlen : Z.of_nat (String.length argument) + 1 = Z.of_nat (String.length p) + 11).
  { unfold argument. cbn [String.append String.length]. lia. }
  fold argument. rewrite <- Hlen.
  rewrite Z.leb_refl. cbn [bind]. fold tr1. fold tr2.
  destruct (pa_module_load P tr1 (multichar_constant P) argument) as [m|]; [|reflexivity].
  unfold move_and_log. rewrite Z.leb_antisym.
  destruct (pa_sink_input_move_to P tr2 i (target_module m) <? 0);
    cbn [negb]; rewrite <- app_assoc; reflexivity.
Qed.

(** X24: a stream that does not say which process plays it.  When the
    stream has no [application.process.id] and the core is not shutting
    down, [new_sink_input_callback] reads through the NULL pointer that
    [pa_proplist_gets] returned, in [pa_streq] when the core has a sink
    and in [strlen] when it has none; and
    [sink_input_move_fail_hook_callback] does so whenever the core has
    a sink. *)
Theorem stream_without_process_id_faults
  (P : Pulsecore) (c : pa_core) (i : pa_sink_input) (tr : list pulsecore_call) :
  state c <> PA_CORE_SHUTDOWN ->
  process_id i = None ->
  new_sink_input_callback P c i tr = Fault invalid_pointer
  /\ (sinks c <> [] ->
      sink_input_move_fail_hook_callback P c i tr = Fault invalid_pointer).
Proof.
  intros Hst Hp. split.
  - unfold new_sink_input_callback. rewrite running_core by exact Hst. rewrite Hp.
    destruct (sinks c) as [|s l]; reflexivity.
  - intros Hs. unfold sink_input_move_fail_hook_callback.
    rewrite running_core by exact Hst. rewrite Hp.
    destruct (sinks c) as [|s l]; [congruence|reflexivity].
Qed.

(** X25: the move-fail callback stops the hook chain exactly when it
    rescued the stream.  While the core is not shutting down,
    [sink_input_move_fail_hook_callback] asks
    [pa_sink_input_finish_move] once, for the first sink in the order
    of [c->sinks] that is named after the process of the stream, and
    returns [PA_HOOK_STOP] when that call did not fail and
    [PA_HOOK_OK] when it failed. *)
Theorem move_fail_stops_after_a_finished_move
  (P : Pulsecore) (c : pa_core) (i : pa_sink_input) (tr : list pulsecore_call)
  (p : string) (before after : list pa_sink) (s : pa_sink) :
  state c <> PA_CORE_SHUTDOWN ->
  process_id i = Some p ->
  sinks c = before ++ s :: after ->
  Forall (fun x => name x <> p) before ->
  name s = p ->
  let r := pa_sink_input_finish_move P tr i s in
  sink_input_move_fail_hook_callback P c i tr
  = Ok (tr ++ [call_sink_input_finish_move i s; call_log_info (0 <=? r)],
        returns (if 0 <=? r then PA_HOOK_STOP else PA_HOOK_OK)).
Proof.
  intros Hst Hp Hs Hb Hn r. unfold sink_input_move_fail_hook_callback.
  rewrite running_core by exact Hst. rewrite Hp, Hs. clear Hs.
  induction Hb as [|x l Hx _ IH]; cbn.
  - rewrite Hn, String.eqb_refl. cbn [bind]. fold r. rewrite Z.leb_antisym.
    destruct (r <? 0); cbn [negb]; rewrite <- app_assoc; reflexivity.
  - apply String.eqb_neq in Hx. rewrite String.eqb_sym in Hx. rewrite Hx. exact IH.
Qed.

(** X26: the move-fail callback without a sink to go to.  When no sink
    is named after the process of the stream,
    [sink_input_move_fail_hook_callback] makes no call of pulsecore and
    reaches the end of its body without a [return] statement, so that
    its result is not determined. *)
Theorem move_fail_without_sink_returns_nothing
  (P : Pulsecore) (c : pa_core) (i : pa_sink_input) (tr : list pulsecore_call)
  (p : string) :
  state c <> PA_CORE_SHUTDOWN ->
  process_id i = Some p ->
  Forall (fun x => name x <> p) (sinks c) ->
  sink_input_move_fail_hook_callback P c i tr = Ok (tr, falls_off_the_end).
Proof.
  intros Hst Hp Hno. unfold sink_input_move_fail_hook_callback.
  rewrite running_core by exact Hst. rewrite Hp.
  induction Hno as [|x l Hx _ IH]; cbn; [reflexivity|].
  apply String.eqb_neq in Hx. rewrite String.eqb_sym in Hx. rewrite Hx. exact IH.
Qed.

(** ** The callbacks at concrete inputs *)

Ltac other_names :=
  repeat (constructor; [cbn; intros H; discriminate H|]); constructor.

Lemma new_stream_goes_to_first_sink_named_by_pid_witness :
  let s := mk_sink 1 "4711" in
  new_sink_input_callback willing three_sinks stream_of_4711 []
  = Ok ([] ++ [call_sink_input_move_to stream_of_4711 (target_sink s);
               call_log_info
                 (0 <=? pa_sink_input_move_to willing [] stream_of_4711 (target_sink s))],
        PA_HOOK_OK).
Proof.
  intros s.
  apply (new_stream_goes_to_first_sink_named_by_pid willing three_sinks stream_of_4711 []
           "4711" [mk_sink 0 "alsa"] [mk_sink 2 "4711"] s).
  - discriminate.
  - reflexivity.
  - reflexivity.
  - other_names.
  - reflexivity.
Defined.

Lemma new_stream_without_sink_loads_a_module_witness :
  let argument := String.append "sink_name=" "99" in
  let tr1 := [] ++ [call_xmalloc (Z.of_nat (String.length argument) + 1)] in
  let tr2 := tr1 ++ [call_module_load (multichar_constant willing) argument] in
  new_sink_input_callback willing three_sinks stream_of_99 []
  = Ok (match pa_module_load willing tr1 (multichar_constant willing) argument with
        | Some m =>
            tr2 ++ [call_sink_input_move_to stream_of_99 (target_module m);
                    call_log_info
                      (0 <=? pa_sink_input_move_to willing tr2 stream_of_99 (target_module m))]
        | None => tr2
        end, PA_HOOK_OK).
Proof.
  apply (new_stream_without_sink_loads_a_module willing three_sinks stream_of_99 [] "99").
  - discriminate.
  - reflexivity.
  - other_names.
Defined.

(** The stream of process 99 finds no sink of that name: thirteen bytes
    are allocated, a module is loaded with the argument [sink_name=99],
    and the stream is moved to what came back. *)
Example stream_of_99_gets_a_module :
  new_sink_input_callback willing three_sinks stream_of_99 []
  = Ok ([call_xmalloc 13; call_module_load 0 "sink_name=99";
         call_sink_input_move_to stream_of_99 (target_module 7); call_log_info true],
        PA_HOOK_OK).
Proof. reflexivity. Qed.

Lemma stream_without_process_id_faults_witness :
  new_sink_input_callback willing three_sinks anonymous_stream [] = Fault invalid_pointer
  /\ (sinks three_sinks <> [] ->
      sink_input_move_fail_hook_callback willing three_sinks anonymous_stream []
      = Fault invalid_pointer).
Proof.
  apply (stream_without_process_id_faults willing three_sinks anonymous_stream []).
  - discriminate.
  - reflexivity.
Defined.

Lemma move_fail_stops_after_a_finished_move_witness :
  let s := mk_sink 1 "4711" in
  let r := pa_sink_input_finish_move willing [] stream_of_4711 s in
  sink_input_move_fail_hook_callback willing three_sinks stream_of_4711 []
  = Ok ([] ++ [call_sink_input_finish_move stream_of_4711 s; call_log_info (0 <=? r)],
        returns (if 0 <=? r then PA_HOOK_STOP else PA_HOOK_OK)).
Proof.
  intros s.
  apply (move_fail_stops_after_a_finished_move willing three_sinks stream_of_4711 []
           "4711" [mk_sink 0 "alsa"] [mk_sink 2 "4711"] s).
  - discriminate.
  - reflexivity.
  - reflexivity.
  - other_names.
  - reflexivity.
Defined.

Lemma move_fail_without_sink_returns_nothing_witness :
  sink_input_move_fail_hook_callback willing three_sinks stream_of_99 []
  = Ok ([], falls_off_the_end).
Proof.
  apply (move_fail_without_sink_returns_nothing willing three_sinks stream_of_99 [] "99").
  - discriminate.
  - reflexivity.
  - other_names.
Defined.

End AppsurferFacts.
